(** * Interview assistant: the streaming client, its consumers and helpers

    A shallow embedding of the TypeScript sources of the Angular front end
    (agent-stream.service.ts, interview-room.component.ts,
    search.component.ts, sanitize-html.pipe.ts, list-interviews.component.ts)
    and of the event producer the front end talks to.

    JavaScript strings are sequences of UTF-16 code units; a code unit is a
    natural number ([N]).  Values that reach the code through [JSON.parse]
    are untyped at run time ([data: any]) and are modelled by [Js.value].
    Numbers are binary64 ([PrimFloat.float]) and their arithmetic is the
    one of the primitive floats.
    Platform primitives that are not code of the repository ([JSON.parse],
    [Number::toString], [String.prototype.toUpperCase], the regular
    expression engine) are Section variables. *)

From Stdlib Require Import List NArith ZArith QArith Bool Lia Arith.
From Stdlib Require Import Strings.String Strings.Ascii.
From Stdlib Require Import Floats.PrimFloat Floats.SpecFloat Floats.FloatOps.
From Stdlib Require Import Floats.FloatAxioms.
From Stdlib Require Uint63.
From Stdlib Require Import Sorting.Sorted.
Import ListNotations.

Set Implicit Arguments.
Set Warnings "-register-all".

(* ================================================================== *)
(** ** JavaScript strings *)
(* ================================================================== *)

Module JsStr.

  (** A string is the list of its UTF-16 code units. *)
Definition t : Type := list N.

  (** The code units of an ASCII literal of the source. *)
Definition lit (s : string) : t :=
    List.map N_of_ascii (list_ascii_of_string s).

Definition newline : N := 10%N.
Definition dquote : N := 34%N.

Fixpoint eqb (a b : t) : bool :=
    match a, b with
    | [], [] => true
    | x :: a', y :: b' => N.eqb x y && eqb a' b'
    | _, _ => false
    end.

  (** [s.startsWith(p)] *)
Fixpoint startsWith (p s : t) : bool :=
    match p with
    | [] => true
    | x :: p' =>
        match s with
        | [] => false
        | y :: s' => N.eqb x y && startsWith p' s'
        end
    end.

  (** [s.substring(n)] and [s.slice(n)] for a non-negative [n]. *)
Definition substring (n : nat) (s : t) : t := skipn n s.
Definition slice (n : nat) (s : t) : t := skipn n s.

  (** [s.charAt(n)]: the empty string out of range. *)
Definition charAt (n : nat) (s : t) : t := firstn 1 (skipn n s).

  (** [s.split(sep)] for a non-empty separator: the pieces between the
      successive, non-overlapping occurrences of [sep], scanned from the
      left.  [skip] counts the code units of an occurrence still to be
      passed over. *)
Fixpoint split_from (sep : t) (skip : nat) (s : t) : list t :=
    match s with
    | [] => [[]]
    | c :: s' =>
        match skip with
        | S k => split_from sep k s'
        | O =>
            if startsWith sep s
            then [] :: split_from sep (List.length sep - 1) s'
            else match split_from sep 0 s' with
                 | h :: tl => (c :: h) :: tl
                 | [] => [[c]]
                 end
        end
    end.

Definition split (sep s : t) : list t := split_from sep 0 s.

  (** [parts.join(sep)] *)
Fixpoint join (sep : t) (parts : list t) : t :=
    match parts with
    | [] => []
    | [p] => p
    | p :: rest => p ++ sep ++ join sep rest
    end.

  (** ECMAScript WhiteSpace and LineTerminator code units, the ones
      [String.prototype.trim] removes. *)
Definition is_whitespace (c : N) : bool :=
    (N.eqb c 9 || N.eqb c 10 || N.eqb c 11 || N.eqb c 12 || N.eqb c 13
     || N.eqb c 32 || N.eqb c 160 || N.eqb c 5760
     || (N.leb 8192 c && N.leb c 8202)
     || N.eqb c 8232 || N.eqb c 8233 || N.eqb c 8239 || N.eqb c 8287
     || N.eqb c 12288 || N.eqb c 65279)%N.

Fixpoint trimStart (s : t) : t :=
    match s with
    | [] => []
    | c :: s' => if is_whitespace c then trimStart s' else s
    end.

Definition trimEnd (s : t) : t := rev (trimStart (rev s)).

  (** [s.trim()] *)
Definition trim (s : t) : t := trimEnd (trimStart s).

  (** A string that is empty or made of white space only. *)
Definition whitespace_only (s : t) : bool := forallb is_whitespace s.

  (** No line feed occurs in the string. *)
Definition newline_free (s : t) : Prop := ~ In newline s.

(** [hay.includes(needle)] *)
Fixpoint includes (needle hay : t) : bool :=
  startsWith needle hay
  || match hay with
     | [] => false
     | _ :: rest => includes needle rest
     end.

(** [s.endsWith(p)] *)
Definition endsWith (p s : t) : bool := startsWith (rev p) (rev s).

(** [s.substring(a, b)] for non-negative arguments: both are clamped to
    the length and exchanged when the first is the larger. *)
Definition substring_between (a b : nat) (s : t) : t :=
  let a' := Nat.min a (List.length s) in
  let b' := Nat.min b (List.length s) in
  firstn (Nat.max a' b' - Nat.min a' b') (skipn (Nat.min a' b') s).

(** [s.replace(/\s+/g, by)]: every maximal run of white space becomes
    [by].  [inside] tells that the previous code unit was white space. *)
Fixpoint replace_whitespace_runs (by_ : t) (inside : bool) (s : t) : t :=
  match s with
  | [] => []
  | c :: rest =>
      if is_whitespace c
      then (if inside then [] else by_) ++ replace_whitespace_runs by_ true rest
      else c :: replace_whitespace_runs by_ false rest
  end.

End JsStr.

Definition jstring : Type := JsStr.t.

(** The frame delimiter of the event stream, ['\n\n']. *)
Definition blank_line : jstring := [JsStr.newline; JsStr.newline].

(* ================================================================== *)
(** ** JavaScript values as [JSON.parse] produces them *)
(* ================================================================== *)

Module Js.

  (** The values of type [any] the code handles: what [JSON.parse] returns,
      and [undefined] for a missing property.  An object is the list of its
      own properties in insertion order, with distinct keys. *)
Inductive value : Type :=
  | Undefined
  | Null
  | Bool (b : bool)
  | Number (d : float)
  | Str (s : jstring)
  | Array (items : list value)
  | Object (props : list (jstring * value)).

  (** Evaluation of an expression either completes with a value or throws
      (a [TypeError] on a property read of [undefined] or [null], on a call
      of a method the receiver does not have). *)
Inductive completion (A : Type) : Type :=
  | Return (a : A)
  | Throw (msg : jstring).
Arguments Return {A} a.
Arguments Throw {A} msg.

Definition bind {A B} (c : completion A) (k : A -> completion B)
    : completion B :=
    match c with
    | Return a => k a
    | Throw m => Throw m
    end.

Fixpoint lookup (k : jstring) (props : list (jstring * value)) : value :=
    match props with
    | [] => Undefined
    | (k', v) :: rest => if JsStr.eqb k k' then v else lookup k rest
    end.

  (** [v.k] for a key [k] that is neither inherited from a prototype nor
      an index or [length]: the own property of an object, [undefined] on
      the other values that can be read from, a [TypeError] on [undefined]
      and [null]. *)
Definition get (v : value) (k : jstring) : completion value :=
    match v with
    | Undefined => Throw (JsStr.lit "Cannot read properties of undefined")
    | Null => Throw (JsStr.lit "Cannot read properties of null")
    | Object props => Return (lookup k props)
    | _ => Return Undefined
    end.

  (** ToBoolean *)
Definition truthy (v : value) : bool :=
    match v with
    | Undefined | Null => false
    | Bool b => b
    | Number d => negb (PrimFloat.eqb d 0%float) && PrimFloat.eqb d d
    | Str s => match s with [] => false | _ => true end
    | Array _ | Object _ => true
    end.

  (** [a || b] on values already evaluated. *)
Definition or (a b : value) : value := if truthy a then a else b.

  (** [a === b] against a string literal, as a [switch] on strings does. *)
Definition is_string (v : value) (s : jstring) : bool :=
    match v with
    | Str s' => JsStr.eqb s' s
    | _ => false
    end.

Section Coercions.

    (** [Number::toString], the shortest round-trip decimal of a double. *)
Variable Number_toString : float -> jstring.

    (** ToString, with [Array.prototype.toString] (a join on [","] where
        [undefined] and [null] items print as nothing) and
        [Object.prototype.toString] for the compound values. *)
Fixpoint toString (v : value) : jstring :=
      match v with
      | Undefined => JsStr.lit "undefined"
      | Null => JsStr.lit "null"
      | Bool true => JsStr.lit "true"
      | Bool false => JsStr.lit "false"
      | Number d => Number_toString d
      | Str s => s
      | Array items =>
          JsStr.join (JsStr.lit ",")
            (List.map (fun i => match i with
                                | Undefined | Null => []
                                | _ => toString i
                                end) items)
      | Object _ => JsStr.lit "[object Object]"
      end.

    (** ToPrimitive: the compound values become their strings. *)
Definition toPrimitive (v : value) : value :=
      match v with
      | Array _ | Object _ => Str (toString v)
      | _ => v
      end.

    (** ToNumber on a primitive that is not a string. *)
Definition toNumber (v : value) : float :=
      match v with
      | Null => 0%float
      | Bool true => 1%float
      | Bool false => 0%float
      | Number d => d
      | _ => PrimFloat.nan
      end.

    (** [a + b]: concatenation as soon as one primitive is a string,
        the sum of the numbers otherwise. *)
Definition add (a b : value) : value :=
      let pa := toPrimitive a in
      let pb := toPrimitive b in
      match pa, pb with
      | Str _, _ | _, Str _ => Str (toString pa ++ toString pb)
      | _, _ => Number (PrimFloat.add (toNumber pa) (toNumber pb))
      end.

End Coercions.

(** The property names every object literal inherits from
    [Object.prototype]. *)
Definition object_prototype_keys : list jstring :=
  [ JsStr.lit "constructor"; JsStr.lit "__defineGetter__";
    JsStr.lit "__defineSetter__"; JsStr.lit "hasOwnProperty";
    JsStr.lit "__lookupGetter__"; JsStr.lit "__lookupSetter__";
    JsStr.lit "isPrototypeOf"; JsStr.lit "propertyIsEnumerable";
    JsStr.lit "toString"; JsStr.lit "valueOf"; JsStr.lit "__proto__";
    JsStr.lit "toLocaleString" ].

(** What [table[key] || fallback] gives for an object literal [table] of
    strings: a string, or the member of [Object.prototype] that the key
    names (a function or an object, which is truthy). *)
Inductive looked_up : Type :=
| Text (s : jstring)
| PrototypeMember (key : jstring).

Fixpoint own (table : list (jstring * jstring)) (key : jstring) : option jstring :=
  match table with
  | [] => None
  | (k, v) :: rest => if JsStr.eqb key k then Some v else own rest key
  end.

Definition lookup_or (table : list (jstring * jstring)) (fallback key : jstring)
  : looked_up :=
  match own table key with
  | Some [] => Text fallback
  | Some v => Text v
  | None =>
      if existsb (JsStr.eqb key) object_prototype_keys
      then PrototypeMember key
      else Text fallback
  end.

End Js.

(* ================================================================== *)
(** ** The RxJS Subject the service publishes on *)
(* ================================================================== *)

Module Rx.

(** What a subscriber of an observable of [A] with errors [E] receives. *)
Inductive notification (A E : Type) : Type :=
| Next (a : A)
| Error (e : E)
| Complete.
Arguments Next {A E} a.
Arguments Error {A E} e.
Arguments Complete {A E}.

(** A [Subject]: once it has completed or failed it is closed, and
    [next], [error] and [complete] on a closed subject do nothing.
    [delivered] is what its subscribers have received, oldest first. *)
Record subject (A E : Type) : Type := mkSubject {
  closed : bool;
  delivered : list (notification A E)
}.

Definition new_subject {A E} : subject A E := mkSubject false [].

Definition next {A E} (a : A) (s : subject A E) : subject A E :=
  if closed s then s else mkSubject false (delivered s ++ [Next a]).

Definition error {A E} (e : E) (s : subject A E) : subject A E :=
  if closed s then s else mkSubject true (delivered s ++ [Error e]).

Definition complete {A E} (s : subject A E) : subject A E :=
  if closed s then s else mkSubject true (delivered s ++ [Complete]).

Definition is_next {A E} (n : notification A E) : bool :=
  match n with Next _ => true | _ => false end.
Definition is_error {A E} (n : notification A E) : bool :=
  match n with Error _ => true | _ => false end.
Definition is_complete {A E} (n : notification A E) : bool :=
  match n with Complete => true | _ => false end.

(** The values delivered on the next channel, in order. *)
Definition values {A E} (l : list (notification A E)) : list A :=
  flat_map (fun n => match n with Next a => [a] | _ => [] end) l.

End Rx.

(* ================================================================== *)
(** ** agent-stream.service.ts *)
(* ================================================================== *)

Module AgentStreamService.

(** [StreamEvent]: an interface over [any]; at run time whatever
    [JSON.parse] returned. *)
Definition StreamEvent : Type := Js.value.

(** What [HttpClient] reports on failure ([HttpErrorResponse]): status 0
    for a network error, the status code of a response outside 2xx. *)
Record HttpErrorResponse : Type := mkHttpError {
  status : Z;
  statusText : jstring
}.

(** The events of [http.post(..., {observe: 'events'})], by
    [HttpEventType]. *)
Inductive HttpEvent : Type :=
| Sent
| UploadProgress
| ResponseHeader
| DownloadProgress (partialText : option jstring)
| Response (body : option jstring)
| User.

(** How the request observable ends: it completes, it fails, or it has
    not ended yet. *)
Inductive SourceEnd : Type :=
| SourceComplete
| SourceError (e : HttpErrorResponse)
| SourcePending.

(** The outcome of [JSON.parse]: a value, or a thrown [SyntaxError]. *)
Inductive parsed : Type :=
| Parsed (v : Js.value)
| SyntaxError (msg : jstring).

(** The state [streamAnswer] acts on: its subject, and the lines written
    with [console.error]. *)
Record world : Type := mkWorld {
  subject : Rx.subject StreamEvent HttpErrorResponse;
  console : list (jstring * jstring)
}.

Definition initial : world := mkWorld Rx.new_subject [].

Definition is_response (ev : HttpEvent) : bool :=
  match ev with Response _ => true | _ => false end.

(** The number of terminal notifications a subject has delivered. *)
Definition completions (w : world) : nat :=
  List.length (filter Rx.is_complete (Rx.delivered (subject w))).
Definition failures (w : world) : nat :=
  List.length (filter Rx.is_error (Rx.delivered (subject w))).

(** As long as only [next] and [complete] are used, a subject has
    delivered no error, and one completion exactly when it is closed. *)
Definition completes_once (w : world) : Prop :=
  failures w = 0%nat
  /\ completions w = (if Rx.closed (subject w) then 1%nat else 0%nat).


Section Service.

Variable JSON_parse : jstring -> parsed.

(** The body of [lines.forEach]. *)
Definition forLine (w : world) (line : jstring) : world :=
  if JsStr.startsWith (JsStr.lit "data: ") line then
    let jsonData := JsStr.substring 6 line in
    match JSON_parse jsonData with
    | Parsed parsedEvent =>
        mkWorld (Rx.next parsedEvent (subject w)) (console w)
    | SyntaxError e =>
        mkWorld (subject w)
                (console w ++ [(JsStr.lit "Error parsing SSE event:", e)])
    end
  else w.

(** [event.partialText || ''] *)
Definition partialText_or_empty (pt : option jstring) : jstring :=
  match pt with
  | Some s => s
  | None => []
  end.

(** The [next] callback of the subscription to the request. *)
Definition onNext (w : world) (event : HttpEvent) : world :=
  match event with
  | DownloadProgress pt =>
      let text := partialText_or_empty pt in
      let lines := JsStr.split blank_line text in
      fold_left forLine lines w
  | Response _ => mkWorld (Rx.complete (subject w)) (console w)
  | _ => w
  end.

(** The [error] callback. *)
Definition onError (w : world) (e : HttpErrorResponse) : world :=
  mkWorld (Rx.error e (subject w)) (console w).

(** The [complete] callback. *)
Definition onComplete (w : world) : world :=
  mkWorld (Rx.complete (subject w)) (console w).

(** [streamAnswer] run against a request that reports [events] and ends
    with [fin]. *)
Definition streamAnswer (events : list HttpEvent) (fin : SourceEnd) : world :=
  let w := fold_left onNext events initial in
  match fin with
  | SourceComplete => onComplete w
  | SourceError e => onError w e
  | SourcePending => w
  end.

(** The events one [DownloadProgress] text holds: the parsed documents of
    its ['data: '] segments, in order. *)
Definition segment_events (seg : jstring) : list StreamEvent :=
  if JsStr.startsWith (JsStr.lit "data: ") seg then
    match JSON_parse (JsStr.substring 6 seg) with
    | Parsed v => [v]
    | SyntaxError _ => []
    end
  else [].

Definition segment_errors (seg : jstring) : list (jstring * jstring) :=
  if JsStr.startsWith (JsStr.lit "data: ") seg then
    match JSON_parse (JsStr.substring 6 seg) with
    | Parsed _ => []
    | SyntaxError e => [(JsStr.lit "Error parsing SSE event:", e)]
    end
  else [].

Definition progress_segments (ev : HttpEvent) : list jstring :=
  match ev with
  | DownloadProgress pt => JsStr.split blank_line (partialText_or_empty pt)
  | _ => []
  end.

End Service.

(** How the text of the body reaches the callback when it arrives in
    [parts]: Angular reports in [partialText] all the text received so
    far ([xhr.responseText]). *)
Fixpoint cumulative_from (sofar : jstring) (parts : list jstring)
  : list HttpEvent :=
  match parts with
  | [] => []
  | p :: rest =>
      DownloadProgress (Some (sofar ++ p)) :: cumulative_from (sofar ++ p) rest
  end.

Definition cumulative (parts : list jstring) : list HttpEvent :=
  cumulative_from [] parts.

(** The other reading of [partialText]: only the text of the part. *)
Definition delta (parts : list jstring) : list HttpEvent :=
  List.map (fun p => DownloadProgress (Some p)) parts.

(** The values of [event_type] the [StreamEvent] interface lists. *)
Definition event_types : list jstring :=
  [ JsStr.lit "start"; JsStr.lit "routing"; JsStr.lit "processing";
    JsStr.lit "content"; JsStr.lit "answer_complete"; JsStr.lit "follow_ups";
    JsStr.lit "complete"; JsStr.lit "error" ].

(** What a document gives when parsed: its value, or nothing when the
    text is malformed. *)
Definition document_events (JSON_parse : jstring -> parsed) (doc : jstring)
  : list StreamEvent :=
  match JSON_parse doc with
  | Parsed v => [v]
  | SyntaxError _ => []
  end.

(** The frame of a document on the wire: the prefix, the document, a
    blank line. *)
Definition frame (doc : jstring) : jstring :=
  JsStr.lit "data: " ++ doc ++ blank_line.

(** The non-empty prefixes of a list, shortest first. *)
Fixpoint prefixes {A : Type} (l : list A) : list (list A) :=
  match l with
  | [] => []
  | x :: rest => [x] :: List.map (cons x) (prefixes rest)
  end.

(** A subject in the shape the observable contract allows: values, then
    at most one completion or error, which closes it. *)
Definition contract (s : Rx.subject StreamEvent HttpErrorResponse) : Prop :=
  exists (vs : list StreamEvent)
         (tail : list (Rx.notification StreamEvent HttpErrorResponse)),
    Rx.delivered s = List.map Rx.Next vs ++ tail
    /\ ((Rx.closed s = false /\ tail = [])
        \/ (Rx.closed s = true
            /\ (tail = [Rx.Complete] \/ exists e, tail = [Rx.Error e]))).

End AgentStreamService.

(* ================================================================== *)
(** ** The consumer printed in Documentation/START_HERE.md *)
(* ================================================================== *)

Module StartHere.

Import AgentStreamService.

(** The documented [streamAnswer] keeps the unterminated tail of the text
    in [buffer] between two callbacks. *)
Record state : Type := mkState {
  w : world;
  buffer : jstring
}.

Definition initial : state := mkState AgentStreamService.initial [].

Section Service.

Variable JSON_parse : jstring -> parsed.

Definition forEvent (w : world) (eventStr : jstring) : world :=
  if JsStr.startsWith (JsStr.lit "data: ") (JsStr.trim eventStr) then
    let jsonData := JsStr.substring 6 eventStr in
    match JSON_parse jsonData with
    | Parsed streamEvent =>
        mkWorld (Rx.next streamEvent (subject w)) (console w)
    | SyntaxError e =>
        mkWorld (subject w)
                (console w ++ [(JsStr.lit "Failed to parse SSE event:", e)])
    end
  else w.

Definition onNext (st : state) (event : HttpEvent) : state :=
  match event with
  | DownloadProgress pt =>
      let buffer1 := buffer st ++ partialText_or_empty pt in
      let events := JsStr.split blank_line buffer1 in
      (* [events.pop() || ''] *)
      let buffer2 := last events [] in
      let complete_events := removelast events in
      mkState (fold_left forEvent complete_events (w st)) buffer2
  | _ => st
  end.

Definition streamAnswer (events : list HttpEvent) (fin : SourceEnd) : world :=
  let st := fold_left onNext events initial in
  match fin with
  | SourceComplete => onComplete (w st)
  | SourceError e => onError (w st) e
  | SourcePending => w st
  end.

End Service.

End StartHere.

(* ================================================================== *)
(** ** A reader of JSON text *)
(* ================================================================== *)

Module JsonText.

Import AgentStreamService.

(** An executable instance of [JSON.parse] for the documents the examples
    use: objects, arrays, strings with their escapes, [true], [false] and
    [null].  Numeric literals are outside its domain. *)

Definition is_ws (c : N) : bool :=
  (N.eqb c 32 || N.eqb c 9 || N.eqb c 10 || N.eqb c 13)%N.

Fixpoint skip_ws (s : jstring) : jstring :=
  match s with
  | c :: s' => if is_ws c then skip_ws s' else s
  | [] => []
  end.

Definition hex (c : N) : option N :=
  (if (48 <=? c) && (c <=? 57) then Some (c - 48)
   else if (65 <=? c) && (c <=? 70) then Some (c - 55)
   else if (97 <=? c) && (c <=? 102) then Some (c - 87)
   else None)%N.

Definition hex4 (a b c d : N) : option N :=
  match hex a, hex b, hex c, hex d with
  | Some x, Some y, Some z, Some u => Some (((x * 16 + y) * 16 + z) * 16 + u)%N
  | _, _, _, _ => None
  end.

Definition escape (e : N) : option N :=
  (if N.eqb e 34 then Some 34
   else if N.eqb e 92 then Some 92
   else if N.eqb e 47 then Some 47
   else if N.eqb e 98 then Some 8
   else if N.eqb e 102 then Some 12
   else if N.eqb e 110 then Some 10
   else if N.eqb e 114 then Some 13
   else if N.eqb e 116 then Some 9
   else None)%N.

(** The characters of a string literal after its opening quote. *)
Fixpoint string_body (s : jstring) (acc : jstring) : option (jstring * jstring) :=
  match s with
  | [] => None
  | c :: r =>
      if N.eqb c 34 then Some (rev acc, r)
      else if N.eqb c 92 then
        match r with
        | e :: r1 =>
            if N.eqb e 117 then
              match r1 with
              | a :: b :: x :: y :: r2 =>
                  match hex4 a b x y with
                  | Some u => string_body r2 (u :: acc)
                  | None => None
                  end
              | _ => None
              end
            else match escape e with
                 | Some u => string_body r1 (u :: acc)
                 | None => None
                 end
        | [] => None
        end
      else if N.ltb c 32 then None
      else string_body r (c :: acc)
  end.

(** Defining a property: a key already present keeps its place and takes
    the new value. *)
Fixpoint define (k : jstring) (v : Js.value) (props : list (jstring * Js.value))
  : list (jstring * Js.value) :=
  match props with
  | [] => [(k, v)]
  | (k', v') :: rest =>
      if JsStr.eqb k k' then (k', v) :: rest else (k', v') :: define k v rest
  end.

Fixpoint value (fuel : nat) (s : jstring) {struct fuel}
  : option (Js.value * jstring) :=
  match fuel with
  | O => None
  | S f =>
      let s := skip_ws s in
      if JsStr.startsWith (JsStr.lit "null") s then Some (Js.Null, skipn 4 s)
      else if JsStr.startsWith (JsStr.lit "true") s
      then Some (Js.Bool true, skipn 4 s)
      else if JsStr.startsWith (JsStr.lit "false") s
      then Some (Js.Bool false, skipn 5 s)
      else
        match s with
        | c :: r =>
            if N.eqb c 34 then
              match string_body r [] with
              | Some (str, r') => Some (Js.Str str, r')
              | None => None
              end
            else if N.eqb c 91 then
              match skip_ws r with
              | c' :: r' =>
                  if N.eqb c' 93 then Some (Js.Array [], r')
                  else items f r []
              | [] => None
              end
            else if N.eqb c 123 then
              match skip_ws r with
              | c' :: r' =>
                  if N.eqb c' 125 then Some (Js.Object [], r')
                  else members f r []
              | [] => None
              end
            else None
        | [] => None
        end
  end
with items (fuel : nat) (s : jstring) (acc : list Js.value) {struct fuel}
  : option (Js.value * jstring) :=
  match fuel with
  | O => None
  | S f =>
      match value f s with
      | Some (v, r) =>
          match skip_ws r with
          | c :: r' =>
              if N.eqb c 44 then items f r' (acc ++ [v])
              else if N.eqb c 93 then Some (Js.Array (acc ++ [v]), r')
              else None
          | [] => None
          end
      | None => None
      end
  end
with members (fuel : nat) (s : jstring) (acc : list (jstring * Js.value))
  {struct fuel} : option (Js.value * jstring) :=
  match fuel with
  | O => None
  | S f =>
      match skip_ws s with
      | q :: r =>
          if N.eqb q 34 then
            match string_body r [] with
            | Some (k, r1) =>
                match skip_ws r1 with
                | colon :: r2 =>
                    if N.eqb colon 58 then
                      match value f r2 with
                      | Some (v, r3) =>
                          match skip_ws r3 with
                          | c :: r4 =>
                              if N.eqb c 44 then members f r4 (define k v acc)
                              else if N.eqb c 125
                              then Some (Js.Object (define k v acc), r4)
                              else None
                          | [] => None
                          end
                      | None => None
                      end
                    else None
                | [] => None
                end
            | None => None
            end
          else None
      | [] => None
      end
  end.

Definition parse (s : jstring) : parsed :=
  match value (2 * List.length s + 2) s with
  | Some (v, r) =>
      match skip_ws r with
      | [] => Parsed v
      | _ => SyntaxError (JsStr.lit "Unexpected non-whitespace character after JSON")
      end
  | None => SyntaxError (JsStr.lit "Unexpected token in JSON")
  end.

(** Building the text of a document: a quoted string, and an object from
    the texts of its property values, as [JSON.stringify] writes them when
    nothing needs an escape. *)
Definition quoted (s : string) : jstring :=
  JsStr.dquote :: JsStr.lit s ++ [JsStr.dquote].

Fixpoint fields (kvs : list (string * jstring)) : jstring :=
  match kvs with
  | [] => []
  | [(k, v)] => quoted k ++ JsStr.lit ":" ++ v
  | (k, v) :: rest => quoted k ++ JsStr.lit ":" ++ v ++ JsStr.lit "," ++ fields rest
  end.

Definition object_text (kvs : list (string * jstring)) : jstring :=
  JsStr.lit "{" ++ fields kvs ++ JsStr.lit "}".

End JsonText.

(* ================================================================== *)
(** ** Handlers: component state threaded through code that may throw *)
(* ================================================================== *)

Module Eff.

(** A handler acts on the component state [S]; it returns or throws, and
    the updates done before a throw stay. *)
Definition M (S A : Type) : Type := S -> Js.completion A * S.

Definition ret {S A} (a : A) : M S A := fun s => (Js.Return a, s).

Definition bind {S A B} (m : M S A) (k : A -> M S B) : M S B :=
  fun s =>
    match m s with
    | (Js.Return a, s') => k a s'
    | (Js.Throw msg, s') => (Js.Throw msg, s')
    end.

(** An expression evaluated for its value. *)
Definition eval {S A} (c : Js.completion A) : M S A := fun s => (c, s).

(** A read of the state. *)
Definition read {S A} (f : S -> A) : M S A := fun s => (Js.Return (f s), s).

(** An assignment to the state. *)
Definition modify {S} (f : S -> S) : M S unit := fun s => (Js.Return tt, f s).

End Eff.

Declare Scope eff_scope.
Delimit Scope eff_scope with eff.
Notation "x <- m ;; k" := (Eff.bind m (fun x => k))
  (at level 61, m at next level, right associativity) : eff_scope.
Notation "m ;;; k" := (Eff.bind m (fun _ => k))
  (at level 61, right associativity) : eff_scope.

(* ================================================================== *)
(** ** interview-room.component.ts *)
(* ================================================================== *)

Module InterviewRoomComponent.

Import AgentStreamService.

Inductive Role : Type := user | agent | system.

(** [Message]; [timestamp] is the reading of the clock, in milliseconds. *)
Record Message : Type := mkMessage {
  role : Role;
  content : Js.value;
  timestamp : Z;
  agentType : option Js.value
}.

(** An entry of [conversationHistory]. *)
Record HistoryEntry : Type := mkHistoryEntry {
  h_question : jstring;
  h_answer : Js.value;
  h_agent : Js.value
}.

(** [QuestionRequest] as [sendQuestion] builds it. *)
Record QuestionRequest : Type := mkQuestionRequest {
  r_question : jstring;
  r_context : option jstring;
  r_conversation_history : list HistoryEntry
}.

(** The fields of the component.  The ones assigned from event payloads
    hold whatever value the payload had. *)
Record state : Type := mkState {
  question : jstring;
  context : jstring;
  messages : list Message;
  currentAnswer : Js.value;
  isStreaming : bool;
  currentAgent : Js.value;
  routingReasoning : Js.value;
  confidence : Js.value;
  followUpQuestions : Js.value;
  conversationHistory : list HistoryEntry;
  streamingStatus : Js.value;
  showRouting : bool;
  showProcessing : bool
}.

(** The field initialisers of the class. *)
Definition initial : state :=
  mkState [] [] [] (Js.Str []) false (Js.Str []) (Js.Str [])
          (Js.Number 0%float) (Js.Array []) [] (Js.Str []) false false.

Definition set_question (v : jstring) (s : state) : state :=
  mkState v (context s) (messages s) (currentAnswer s) (isStreaming s) (currentAgent s) (routingReasoning s) (confidence s) (followUpQuestions s) (conversationHistory s) (streamingStatus s) (showRouting s) (showProcessing s).
Definition set_messages (v : list Message) (s : state) : state :=
  mkState (question s) (context s) v (currentAnswer s) (isStreaming s) (currentAgent s) (routingReasoning s) (confidence s) (followUpQuestions s) (conversationHistory s) (streamingStatus s) (showRouting s) (showProcessing s).
Definition set_currentAnswer (v : Js.value) (s : state) : state :=
  mkState (question s) (context s) (messages s) v (isStreaming s) (currentAgent s) (routingReasoning s) (confidence s) (followUpQuestions s) (conversationHistory s) (streamingStatus s) (showRouting s) (showProcessing s).
Definition set_isStreaming (v : bool) (s : state) : state :=
  mkState (question s) (context s) (messages s) (currentAnswer s) v (currentAgent s) (routingReasoning s) (confidence s) (followUpQuestions s) (conversationHistory s) (streamingStatus s) (showRouting s) (showProcessing s).
Definition set_currentAgent (v : Js.value) (s : state) : state :=
  mkState (question s) (context s) (messages s) (currentAnswer s) (isStreaming s) v (routingReasoning s) (confidence s) (followUpQuestions s) (conversationHistory s) (streamingStatus s) (showRouting s) (showProcessing s).
Definition set_routingReasoning (v : Js.value) (s : state) : state :=
  mkState (question s) (context s) (messages s) (currentAnswer s) (isStreaming s) (currentAgent s) v (confidence s) (followUpQuestions s) (conversationHistory s) (streamingStatus s) (showRouting s) (showProcessing s).
Definition set_confidence (v : Js.value) (s : state) : state :=
  mkState (question s) (context s) (messages s) (currentAnswer s) (isStreaming s) (currentAgent s) (routingReasoning s) v (followUpQuestions s) (conversationHistory s) (streamingStatus s) (showRouting s) (showProcessing s).
Definition set_followUpQuestions (v : Js.value) (s : state) : state :=
  mkState (question s) (context s) (messages s) (currentAnswer s) (isStreaming s) (currentAgent s) (routingReasoning s) (confidence s) v (conversationHistory s) (streamingStatus s) (showRouting s) (showProcessing s).
Definition set_conversationHistory (v : list HistoryEntry) (s : state) : state :=
  mkState (question s) (context s) (messages s) (currentAnswer s) (isStreaming s) (currentAgent s) (routingReasoning s) (confidence s) (followUpQuestions s) v (streamingStatus s) (showRouting s) (showProcessing s).
Definition set_streamingStatus (v : Js.value) (s : state) : state :=
  mkState (question s) (context s) (messages s) (currentAnswer s) (isStreaming s) (currentAgent s) (routingReasoning s) (confidence s) (followUpQuestions s) (conversationHistory s) v (showRouting s) (showProcessing s).
Definition set_showRouting (v : bool) (s : state) : state :=
  mkState (question s) (context s) (messages s) (currentAnswer s) (isStreaming s) (currentAgent s) (routingReasoning s) (confidence s) (followUpQuestions s) (conversationHistory s) (streamingStatus s) v (showProcessing s).
Definition set_showProcessing (v : bool) (s : state) : state :=
  mkState (question s) (context s) (messages s) (currentAnswer s) (isStreaming s) (currentAgent s) (routingReasoning s) (confidence s) (followUpQuestions s) (conversationHistory s) (streamingStatus s) (showRouting s) v.

(** [this.messages.push(...)] in the three [add...Message] methods. *)
Definition addUserMessage (now : Z) (c : Js.value) (s : state) : state :=
  set_messages (messages s ++ [mkMessage user c now None]) s.

Definition addAgentMessage (now : Z) (c : Js.value) (a : Js.value) (s : state)
  : state :=
  set_messages (messages s ++ [mkMessage agent c now (Some a)]) s.

Definition addSystemMessage (now : Z) (c : jstring) (s : state) : state :=
  set_messages (messages s ++ [mkMessage system (Js.Str c) now None]) s.

Section Component.

Variable Number_toString : float -> jstring.
Variable toUpperCase : jstring -> jstring.

Local Open Scope eff_scope.

(** [formatAgentName]: only a string has [split]. *)
Definition formatAgentName (agentType : Js.value) : Js.completion jstring :=
  match agentType with
  | Js.Str s =>
      Js.Return
        (JsStr.join (JsStr.lit " ")
           (List.map (fun word => toUpperCase (JsStr.charAt 0 word) ++ JsStr.slice 1 word)
                     (JsStr.split (JsStr.lit "_") s)))
  | _ => Js.Throw (JsStr.lit "agentType.split is not a function")
  end.

(** [handleStreamEvent]; [now] is what [new Date()] reads. *)
Definition handleStreamEvent (now : Z) (event : StreamEvent) : Eff.M state unit :=
  (* console.log('Stream event:', event.event_type, event.data) *)
  ty <- Eff.eval (Js.get event (JsStr.lit "event_type")) ;;
  data <- Eff.eval (Js.get event (JsStr.lit "data")) ;;
  if Js.is_string ty (JsStr.lit "start") then
    m <- Eff.eval (Js.get data (JsStr.lit "message")) ;;
    Eff.modify (set_streamingStatus m)
  else if Js.is_string ty (JsStr.lit "routing") then
    a <- Eff.eval (Js.get data (JsStr.lit "selected_agent")) ;;
    Eff.modify (set_currentAgent a) ;;;
    r <- Eff.eval (Js.get data (JsStr.lit "reasoning")) ;;
    Eff.modify (set_routingReasoning r) ;;;
    c <- Eff.eval (Js.get data (JsStr.lit "confidence")) ;;
    Eff.modify (set_confidence c) ;;;
    Eff.modify (set_showRouting true) ;;;
    cur <- Eff.read currentAgent ;;
    name <- Eff.eval (formatAgentName cur) ;;
    Eff.modify (set_streamingStatus
                  (Js.Str (JsStr.lit "Routed to " ++ name ++ JsStr.lit " agent")))
  else if Js.is_string ty (JsStr.lit "processing") then
    Eff.modify (set_showProcessing true) ;;;
    m <- Eff.eval (Js.get data (JsStr.lit "message")) ;;
    Eff.modify (set_streamingStatus m)
  else if Js.is_string ty (JsStr.lit "content") then
    cur <- Eff.read currentAnswer ;;
    chunk <- Eff.eval (Js.get data (JsStr.lit "chunk")) ;;
    Eff.modify (set_currentAnswer (Js.add Number_toString cur chunk))
  else if Js.is_string ty (JsStr.lit "answer_complete") then
    full <- Eff.eval (Js.get data (JsStr.lit "full_answer")) ;;
    Eff.modify (set_currentAnswer full) ;;;
    Eff.modify (fun s => addAgentMessage now (currentAnswer s) (currentAgent s) s) ;;;
    Eff.modify (set_streamingStatus (Js.Str (JsStr.lit "Answer complete")))
  else if Js.is_string ty (JsStr.lit "follow_ups") then
    q <- Eff.eval (Js.get data (JsStr.lit "questions")) ;;
    Eff.modify (set_followUpQuestions (Js.or q (Js.Array [])))
  else if Js.is_string ty (JsStr.lit "complete") then
    Eff.modify (set_streamingStatus (Js.Str (JsStr.lit "Complete"))) ;;;
    Eff.modify (set_showRouting false) ;;;
    Eff.modify (set_showProcessing false)
  else if Js.is_string ty (JsStr.lit "error") then
    m <- Eff.eval (Js.get data (JsStr.lit "message")) ;;
    Eff.modify (addSystemMessage now
                  (JsStr.lit "Error: " ++ Js.toString Number_toString m)) ;;;
    Eff.modify (set_isStreaming false)
  else Eff.ret tt.

End Component.

(** [sendQuestion]: the request handed to [streamAnswer], if any, and the
    component afterwards. *)
Definition sendQuestion (now : Z) (s : state) : option QuestionRequest * state :=
  match JsStr.trim (question s) with
  | [] => (None, s)
  | _ :: _ =>
      let s1 := addUserMessage now (Js.Str (question s)) s in
      let s2 := set_currentAnswer (Js.Str []) s1 in
      let s3 := set_followUpQuestions (Js.Array []) s2 in
      let s4 := set_isStreaming true s3 in
      let s5 := set_showRouting false s4 in
      let s6 := set_showProcessing false s5 in
      let request :=
        mkQuestionRequest (question s6)
          (match context s6 with [] => None | c => Some c end)
          (conversationHistory s6) in
      (Some request, set_question [] s6)
  end.

(** The [error] and [complete] callbacks of the subscription that
    [sendQuestion] opens; [currentQuestion] is the question it sent. *)
Definition onStreamError (now : Z) (s : state) : state :=
  addSystemMessage now (JsStr.lit "Error: Failed to get answer. Please try again.")
    (set_isStreaming false s).

Definition onStreamComplete (currentQuestion : jstring) (s : state) : state :=
  let s1 := set_isStreaming false s in
  if Js.truthy (currentAnswer s1)
  then set_conversationHistory
         (conversationHistory s1
          ++ [mkHistoryEntry currentQuestion (currentAnswer s1) (currentAgent s1)]) s1
  else s1.

Definition askFollowUp (now : Z) (q : jstring) (s : state)
  : option QuestionRequest * state :=
  sendQuestion now (set_question q s).


(** [ngOnInit]: the welcome message. *)
Definition ngOnInit (now : Z) (s : state) : state :=
  addSystemMessage now
    (JsStr.lit "Welcome to the AI Interview Room! Ask any interview question and I will help you prepare.")
    s.

(** An event that carries the chunk [c]: its type is [content] and its
    payload has the string [c] under [chunk]. *)
Definition carries_chunk (event : StreamEvent) (c : jstring) : Prop :=
  Js.get event (JsStr.lit "event_type") = Js.Return (Js.Str (JsStr.lit "content"))
  /\ exists data,
       Js.get event (JsStr.lit "data") = Js.Return data
       /\ Js.get data (JsStr.lit "chunk") = Js.Return (Js.Str c).

(** An event that carries the full answer [full]. *)
Definition carries_full_answer (event : StreamEvent) (full : jstring) : Prop :=
  Js.get event (JsStr.lit "event_type")
  = Js.Return (Js.Str (JsStr.lit "answer_complete"))
  /\ exists data,
       Js.get event (JsStr.lit "data") = Js.Return data
       /\ Js.get data (JsStr.lit "full_answer") = Js.Return (Js.Str full).

(** [event_type] is one of the strings the [switch] has a case for. *)
Definition handled_type (ty : Js.value) : bool :=
  existsb (Js.is_string ty) event_types.

(** The [switch] takes the case [name] for this event. *)
Definition has_type (event : StreamEvent) (name : jstring) : bool :=
  match Js.get event (JsStr.lit "event_type") with
  | Js.Return ty => Js.is_string ty name
  | Js.Throw _ => false
  end.

(** A [routing] event that selects [agent]. *)
Definition carries_agent (event : StreamEvent) (agent : Js.value) : Prop :=
  Js.get event (JsStr.lit "event_type") = Js.Return (Js.Str (JsStr.lit "routing"))
  /\ exists data,
       Js.get event (JsStr.lit "data") = Js.Return data
       /\ Js.get data (JsStr.lit "selected_agent") = Js.Return agent.

(** The notifications of an answered question, in the order of the
    protocol: what precedes the routing, the [routing] event, what lies
    between it and the answer, the [answer_complete] event, what follows
    it, and the completion of the stream. *)
Definition whole_turn
  (opening : list (Z * Rx.notification StreamEvent HttpErrorResponse))
  (routed : Z) (routing : StreamEvent)
  (middle : list (Z * Rx.notification StreamEvent HttpErrorResponse))
  (now : Z) (final : StreamEvent)
  (closing : list (Z * Rx.notification StreamEvent HttpErrorResponse))
  (done : Z) : list (Z * Rx.notification StreamEvent HttpErrorResponse) :=
  opening ++ (routed, Rx.Next routing) :: middle
  ++ (now, Rx.Next final) :: closing ++ [(done, Rx.Complete)].

Section Subscription.

Variable Number_toString : float -> jstring.
Variable toUpperCase : jstring -> jstring.

(** The subscriber [sendQuestion] registers, fed the notifications of the
    stream with the reading of the clock at each.  An exception thrown in
    the [next] callback is reported aside by RxJS and the subscription
    goes on, with the assignments made before the throw; after an error
    or a completion the subscriber takes nothing more. *)
Definition receive (currentQuestion : jstring) (acc : bool * state)
  (tn : Z * Rx.notification StreamEvent HttpErrorResponse) : bool * state :=
  let (stopped, s) := acc in
  if stopped then acc
  else
    match snd tn with
    | Rx.Next event =>
        (false, snd (handleStreamEvent Number_toString toUpperCase (fst tn) event s))
    | Rx.Error _ => (true, onStreamError (fst tn) s)
    | Rx.Complete => (true, onStreamComplete currentQuestion s)
    end.

Definition subscription (currentQuestion : jstring)
  (timed : list (Z * Rx.notification StreamEvent HttpErrorResponse)) (s : state)
  : state :=
  snd (fold_left (receive currentQuestion) timed (false, s)).

End Subscription.

(** [getAgentColor] *)
Definition agent_colors : list (jstring * jstring) :=
  [ (JsStr.lit "product_manager", JsStr.lit "#4CAF50");
    (JsStr.lit "technical", JsStr.lit "#2196F3");
    (JsStr.lit "architect", JsStr.lit "#9C27B0");
    (JsStr.lit "coding", JsStr.lit "#FF9800");
    (JsStr.lit "behavioral", JsStr.lit "#E91E63");
    (JsStr.lit "system_design", JsStr.lit "#00BCD4") ].

Definition getAgentColor (agentType : jstring) : Js.looked_up :=
  Js.lookup_or agent_colors (JsStr.lit "#757575") agentType.

End InterviewRoomComponent.

(* ================================================================== *)
(** ** search.component.ts *)
(* ================================================================== *)

Module SearchComponent.

Import AgentStreamService.

(** [StreamingState]; an optional field that is absent reads as
    [undefined]. *)
Record StreamingState : Type := mkStreamingState {
  isStreaming : bool;
  selectedAgent : Js.value;
  routingReasoning : Js.value;
  confidence : Js.value;
  streamedAnswer : Js.value;
  fullAnswer : Js.value;
  followUpQuestions : Js.value;
  error : Js.value;
  processingMessage : Js.value
}.

(** The initialiser of [streamingState]. *)
Definition initial : StreamingState :=
  mkStreamingState false Js.Undefined Js.Undefined Js.Undefined (Js.Str [])
                   Js.Undefined (Js.Array []) Js.Undefined Js.Undefined.

(** What [resetStreamingState] assigns. *)
Definition resetStreamingState : StreamingState :=
  mkStreamingState true Js.Undefined Js.Undefined Js.Undefined (Js.Str [])
                   Js.Undefined (Js.Array []) Js.Undefined Js.Undefined.

Definition set_isStreaming (v : bool) (s : StreamingState) : StreamingState :=
  mkStreamingState v (selectedAgent s) (routingReasoning s) (confidence s) (streamedAnswer s) (fullAnswer s) (followUpQuestions s) (error s) (processingMessage s).
Definition set_selectedAgent (v : Js.value) (s : StreamingState) : StreamingState :=
  mkStreamingState (isStreaming s) v (routingReasoning s) (confidence s) (streamedAnswer s) (fullAnswer s) (followUpQuestions s) (error s) (processingMessage s).
Definition set_routingReasoning (v : Js.value) (s : StreamingState) : StreamingState :=
  mkStreamingState (isStreaming s) (selectedAgent s) v (confidence s) (streamedAnswer s) (fullAnswer s) (followUpQuestions s) (error s) (processingMessage s).
Definition set_confidence (v : Js.value) (s : StreamingState) : StreamingState :=
  mkStreamingState (isStreaming s) (selectedAgent s) (routingReasoning s) v (streamedAnswer s) (fullAnswer s) (followUpQuestions s) (error s) (processingMessage s).
Definition set_streamedAnswer (v : Js.value) (s : StreamingState) : StreamingState :=
  mkStreamingState (isStreaming s) (selectedAgent s) (routingReasoning s) (confidence s) v (fullAnswer s) (followUpQuestions s) (error s) (processingMessage s).
Definition set_fullAnswer (v : Js.value) (s : StreamingState) : StreamingState :=
  mkStreamingState (isStreaming s) (selectedAgent s) (routingReasoning s) (confidence s) (streamedAnswer s) v (followUpQuestions s) (error s) (processingMessage s).
Definition set_followUpQuestions (v : Js.value) (s : StreamingState) : StreamingState :=
  mkStreamingState (isStreaming s) (selectedAgent s) (routingReasoning s) (confidence s) (streamedAnswer s) (fullAnswer s) v (error s) (processingMessage s).
Definition set_error (v : Js.value) (s : StreamingState) : StreamingState :=
  mkStreamingState (isStreaming s) (selectedAgent s) (routingReasoning s) (confidence s) (streamedAnswer s) (fullAnswer s) (followUpQuestions s) v (processingMessage s).
Definition set_processingMessage (v : Js.value) (s : StreamingState) : StreamingState :=
  mkStreamingState (isStreaming s) (selectedAgent s) (routingReasoning s) (confidence s) (streamedAnswer s) (fullAnswer s) (followUpQuestions s) (error s) v.

Section Component.

Variable Number_toString : float -> jstring.

Local Open Scope eff_scope.

(** [handleStreamEvent] on [this.streamingState]. *)
Definition handleStreamEvent (event : StreamEvent) : Eff.M StreamingState unit :=
  ty <- Eff.eval (Js.get event (JsStr.lit "event_type")) ;;
  if Js.is_string ty (JsStr.lit "start") then
    data <- Eff.eval (Js.get event (JsStr.lit "data")) ;;
    m <- Eff.eval (Js.get data (JsStr.lit "message")) ;;
    Eff.modify (set_processingMessage m)
  else if Js.is_string ty (JsStr.lit "routing") then
    data <- Eff.eval (Js.get event (JsStr.lit "data")) ;;
    a <- Eff.eval (Js.get data (JsStr.lit "selected_agent")) ;;
    Eff.modify (set_selectedAgent a) ;;;
    r <- Eff.eval (Js.get data (JsStr.lit "reasoning")) ;;
    Eff.modify (set_routingReasoning r) ;;;
    c <- Eff.eval (Js.get data (JsStr.lit "confidence")) ;;
    Eff.modify (set_confidence c)
  else if Js.is_string ty (JsStr.lit "processing") then
    data <- Eff.eval (Js.get event (JsStr.lit "data")) ;;
    m <- Eff.eval (Js.get data (JsStr.lit "message")) ;;
    Eff.modify (set_processingMessage m)
  else if Js.is_string ty (JsStr.lit "content") then
    cur <- Eff.read streamedAnswer ;;
    data <- Eff.eval (Js.get event (JsStr.lit "data")) ;;
    chunk <- Eff.eval (Js.get data (JsStr.lit "chunk")) ;;
    Eff.modify (set_streamedAnswer (Js.add Number_toString cur chunk))
  else if Js.is_string ty (JsStr.lit "answer_complete") then
    data <- Eff.eval (Js.get event (JsStr.lit "data")) ;;
    full <- Eff.eval (Js.get data (JsStr.lit "full_answer")) ;;
    Eff.modify (set_fullAnswer full) ;;;
    Eff.modify (set_streamedAnswer full)
  else if Js.is_string ty (JsStr.lit "follow_ups") then
    data <- Eff.eval (Js.get event (JsStr.lit "data")) ;;
    q <- Eff.eval (Js.get data (JsStr.lit "questions")) ;;
    Eff.modify (set_followUpQuestions (Js.or q (Js.Array [])))
  else if Js.is_string ty (JsStr.lit "complete") then
    Eff.modify (set_isStreaming false)
  else if Js.is_string ty (JsStr.lit "error") then
    data <- Eff.eval (Js.get event (JsStr.lit "data")) ;;
    e <- Eff.eval (Js.get data (JsStr.lit "error")) ;;
    m <- (if Js.truthy e then Eff.ret e
          else Eff.eval (Js.get data (JsStr.lit "message"))) ;;
    Eff.modify (set_error m) ;;;
    Eff.modify (set_isStreaming false)
  else Eff.ret tt.

End Component.

Definition handleStreamError (s : StreamingState) : StreamingState :=
  set_isStreaming false
    (set_error (Js.Str (JsStr.lit "Failed to get answer from API. Please try again.")) s).

Definition handleStreamComplete (s : StreamingState) : StreamingState :=
  set_isStreaming false s.

(** [InterviewQuestion] *)
Record InterviewQuestion : Type := mkInterviewQuestion {
  q_id : Z;
  q_question : jstring;
  q_category : jstring;
  q_difficulty : jstring;
  q_topic : jstring;
  q_answer : jstring;
  q_tips : list jstring;
  q_relatedTopics : list jstring;
  q_isPracticed : bool
}.

(** The fields of the component that [onSearch] works on;
    [streamSubscription] tells whether a subscription is held. *)
Record state : Type := mkState {
  searchQuery : jstring;
  allQuestions : list InterviewQuestion;
  filteredQuestions : list InterviewQuestion;
  streamingState : StreamingState;
  streamSubscription : bool
}.

(** What [onSearch] does outside the component: whether it unsubscribed
    from the previous stream, and the request it handed to
    [streamAnswer]. *)
Record effects : Type := mkEffects {
  unsubscribed : bool;
  requested : option InterviewRoomComponent.QuestionRequest
}.

Section Search.

Variable toLowerCase : jstring -> jstring.

(** [onSearch] *)
Definition onSearch (s : state) : effects * state :=
  let query := JsStr.trim (toLowerCase (searchQuery s)) in
  match query with
  | [] =>
      (mkEffects false None,
       mkState (searchQuery s) (allQuestions s) (allQuestions s)
               (streamingState s) (streamSubscription s))
  | _ :: _ =>
      (* resetStreamingState, then streamAnswerFromAPI *)
      (mkEffects (streamSubscription s)
         (Some (InterviewRoomComponent.mkQuestionRequest query
                  (Some (JsStr.lit "User searching for interview question answer"))
                  [])),
       mkState (searchQuery s) (allQuestions s) (filteredQuestions s)
               resetStreamingState true)
  end.

(** [selectFollowUpQuestion] *)
Definition selectFollowUpQuestion (question : jstring) (s : state)
  : effects * state :=
  onSearch (mkState question (allQuestions s) (filteredQuestions s)
                    (streamingState s) (streamSubscription s)).

(** [getDifficultyClass] *)
Definition getDifficultyClass (difficulty : jstring) : jstring :=
  toLowerCase difficulty.

(** [getCategoryClass] *)
Definition getCategoryClass (category : jstring) : jstring :=
  JsStr.replace_whitespace_runs (JsStr.lit "-") false (toLowerCase category).

End Search.

(** [togglePracticed] on the question itself. *)
Definition togglePracticed (q : InterviewQuestion) : InterviewQuestion :=
  mkInterviewQuestion (q_id q) (q_question q) (q_category q) (q_difficulty q)
    (q_topic q) (q_answer q) (q_tips q) (q_relatedTopics q)
    (negb (q_isPracticed q)).

End SearchComponent.

(* ================================================================== *)
(** ** sanitize-html.pipe.ts *)
(* ================================================================== *)

Module SanitizeHtmlPipe.

(** What a template can hand to the pipe where a [string] is declared. *)
Inductive input : Type :=
| InUndefined
| InNull
| InString (s : jstring).

(** A regular expression literal: its source and its flags. *)
Record RegExp : Type := mkRegExp {
  source : jstring;
  flags : string
}.

(** The value [transform] returns: the plain string of the early return,
    or the wrapper [bypassSecurityTrustHtml] builds. *)
Inductive output : Type :=
| PlainString (s : jstring)
| SafeHtml (html : jstring).

(** One call of [String.prototype.replace]. *)
Record ReplaceCall : Type := mkReplaceCall {
  pattern : RegExp;
  replacement : jstring;
  subject : jstring
}.

Definition bs : jstring := [92%N].
Definition bt : jstring := [96%N].
Definition dq : jstring := [JsStr.dquote].

(** The replacements of the conversion, in the order of the source, up to
    the paragraph wrapping. *)
Definition markdown_rules : list (RegExp * jstring) :=
  [ (mkRegExp (bt ++ bt ++ bt ++ JsStr.lit "([" ++ bs ++ JsStr.lit "s" ++ bs ++ JsStr.lit "S]*?)" ++ bt ++ bt ++ bt) "g",
     JsStr.lit "<pre class=" ++ dq ++ JsStr.lit "code-block" ++ dq ++ JsStr.lit "><code>$1</code></pre>");
    (mkRegExp (bt ++ JsStr.lit "([^" ++ bt ++ JsStr.lit "]+)" ++ bt) "g",
     JsStr.lit "<code class=" ++ dq ++ JsStr.lit "inline-code" ++ dq ++ JsStr.lit ">$1</code>");
    (mkRegExp (bs ++ JsStr.lit "*" ++ bs ++ JsStr.lit "*(.+?)" ++ bs ++ JsStr.lit "*" ++ bs ++ JsStr.lit "*") "g",
     JsStr.lit "<strong>$1</strong>");
    (mkRegExp (JsStr.lit "__(.+?)__") "g", JsStr.lit "<strong>$1</strong>");
    (mkRegExp (bs ++ JsStr.lit "*(.+?)" ++ bs ++ JsStr.lit "*") "g", JsStr.lit "<em>$1</em>");
    (mkRegExp (JsStr.lit "_(.+?)_") "g", JsStr.lit "<em>$1</em>");
    (mkRegExp (JsStr.lit "^### (.+)$") "gm", JsStr.lit "<h3>$1</h3>");
    (mkRegExp (JsStr.lit "^## (.+)$") "gm", JsStr.lit "<h2>$1</h2>");
    (mkRegExp (JsStr.lit "^# (.+)$") "gm", JsStr.lit "<h1>$1</h1>");
    (mkRegExp (JsStr.lit "^" ++ bs ++ JsStr.lit "* (.+)$") "gm", JsStr.lit "<li>$1</li>");
    (mkRegExp (JsStr.lit "^- (.+)$") "gm", JsStr.lit "<li>$1</li>");
    (mkRegExp (JsStr.lit "(<li>.*<" ++ bs ++ JsStr.lit "/li>" ++ bs ++ JsStr.lit "n?)+") "g",
     JsStr.lit "<ul>$&</ul>");
    (mkRegExp (JsStr.lit "^" ++ bs ++ JsStr.lit "d+" ++ bs ++ JsStr.lit ". (.+)$") "gm",
     JsStr.lit "<li>$1</li>");
    (mkRegExp (bs ++ JsStr.lit "[([^" ++ bs ++ JsStr.lit "]]+)" ++ bs ++ JsStr.lit "]" ++ bs ++ JsStr.lit "(([^)]+)" ++ bs ++ JsStr.lit ")") "g",
     JsStr.lit "<a href=" ++ dq ++ JsStr.lit "$2" ++ dq ++ JsStr.lit " target=" ++ dq ++ JsStr.lit "_blank" ++ dq ++ JsStr.lit " rel=" ++ dq ++ JsStr.lit "noopener" ++ dq ++ JsStr.lit ">$1</a>");
    (mkRegExp (JsStr.lit "^> (.+)$") "gm", JsStr.lit "<blockquote>$1</blockquote>");
    (mkRegExp (JsStr.lit "^---$") "gm", JsStr.lit "<hr>");
    (mkRegExp (JsStr.lit "^" ++ bs ++ JsStr.lit "*" ++ bs ++ JsStr.lit "*" ++ bs ++ JsStr.lit "*$") "gm", JsStr.lit "<hr>");
    (mkRegExp (bs ++ JsStr.lit "n" ++ bs ++ JsStr.lit "n") "g", JsStr.lit "</p><p>");
    (mkRegExp (bs ++ JsStr.lit "n") "g", JsStr.lit "<br>") ].

(** The two replacements that remove empty paragraphs at the end. *)
Definition cleanup_rules : list (RegExp * jstring) :=
  [ (mkRegExp (JsStr.lit "<p><" ++ bs ++ JsStr.lit "/p>") "g", []);
    (mkRegExp (JsStr.lit "<p>" ++ bs ++ JsStr.lit "s*<" ++ bs ++ JsStr.lit "/p>") "g", []) ].

Section Pipe.

(** [html.replace(re, by)], the regular expression engine. *)
Variable replace : RegExp -> jstring -> jstring -> jstring.

(** [html = html.replace(...)] for each rule in turn; the calls made are
    recorded after the ones in [calls]. *)
Definition apply_rules (rules : list (RegExp * jstring))
  (acc : jstring * list ReplaceCall) : jstring * list ReplaceCall :=
  fold_left
    (fun (a : jstring * list ReplaceCall) (r : RegExp * jstring) =>
       (replace (fst r) (snd r) (fst a),
        snd a ++ [mkReplaceCall (fst r) (snd r) (fst a)]))
    rules acc.

(** [transform]: its result, and the [replace] calls it made. *)
Definition transform (value : input) : output * list ReplaceCall :=
  match value with
  | InUndefined | InNull | InString [] => (PlainString [], [])
  | InString v =>
      let a := apply_rules markdown_rules (v, []) in
      let html := fst a in
      let html1 :=
        if JsStr.startsWith (JsStr.lit "<") html then html
        else JsStr.lit "<p>" ++ html ++ JsStr.lit "</p>" in
      let b := apply_rules cleanup_rules (html1, snd a) in
      (SafeHtml (fst b), snd b)
  end.

End Pipe.

(** [!value] *)
Definition falsy (value : input) : bool :=
  match value with
  | InUndefined | InNull => true
  | InString s => match s with [] => true | _ => false end
  end.

End SanitizeHtmlPipe.

(* ================================================================== *)
(** ** Numbers: what rounding to binary64 keeps *)
(* ================================================================== *)

Module Binary64.

(** The bits a right shift has dropped were not all zero. *)
Definition inexact (r : shr_record) : bool := shr_r r || shr_s r.

(** [b] is [a] shifted right by [k] bits: its mantissa is not negative,
    does not exceed the one of [a], and is strictly below it when the
    shift itself has dropped a bit that was set. *)
Definition shifted (k : Z) (a b : shr_record) : Prop :=
  (0 <= shr_m b)%Z
  /\ (shr_m b * 2 ^ k <= shr_m a)%Z
  /\ (inexact b = true -> inexact a = true \/ (shr_m b * 2 ^ k < shr_m a)%Z).

(** [x] is a zero, or a positive finite number not above [mB * 2^eB] and
    written with an exponent not above [eB]. *)
Definition at_most (mB : positive) (eB : Z) (x : spec_float) : Prop :=
  match x with
  | S754_zero _ => True
  | S754_finite false m e => (e <= eB)%Z /\ (Zpos m <= Zpos mB * 2 ^ (eB - e))%Z
  | _ => False
  end.

End Binary64.

(* ================================================================== *)
(** ** list-interviews.component.ts *)
(* ================================================================== *)

Module ListInterviewsComponent.

Record Interview : Type := mkInterview {
  interview_id : Z;
  company_name : jstring;
  role_name : jstring;
  interview_type : jstring;
  seniority_level : jstring;
  interview_status : jstring;
  interview_result : jstring;
  first_interview_date : jstring;
  application_date : jstring;
  total_rounds : Z;
  preparation_hours : option Z
}.

(** The rows [loadHardcodedData] installs. *)
Definition loadHardcodedData : list Interview :=
  [ mkInterview 1 (JsStr.lit "Google") (JsStr.lit "Senior Product Manager") (JsStr.lit "actual") (JsStr.lit "senior") (JsStr.lit "scheduled") (JsStr.lit "pending") (JsStr.lit "2025-01-15") (JsStr.lit "2025-01-05") 5 (Some 20%Z);
    mkInterview 2 (JsStr.lit "Meta") (JsStr.lit "Technical Product Manager") (JsStr.lit "actual") (JsStr.lit "senior") (JsStr.lit "in_progress") (JsStr.lit "pending") (JsStr.lit "2025-01-10") (JsStr.lit "2024-12-28") 4 (Some 15%Z);
    mkInterview 3 (JsStr.lit "Amazon") (JsStr.lit "Product Manager") (JsStr.lit "actual") (JsStr.lit "mid_level") (JsStr.lit "completed") (JsStr.lit "passed") (JsStr.lit "2024-12-20") (JsStr.lit "2024-12-10") 4 (Some 18%Z);
    mkInterview 4 (JsStr.lit "Microsoft") (JsStr.lit "GenAI Architect") (JsStr.lit "actual") (JsStr.lit "senior") (JsStr.lit "scheduled") (JsStr.lit "pending") (JsStr.lit "2025-01-20") (JsStr.lit "2025-01-08") 5 (Some 25%Z);
    mkInterview 5 (JsStr.lit "Netflix") (JsStr.lit "Product Head") (JsStr.lit "actual") (JsStr.lit "director") (JsStr.lit "completed") (JsStr.lit "no_hire") (JsStr.lit "2024-12-15") (JsStr.lit "2024-12-01") 6 (Some 30%Z);
    mkInterview 6 (JsStr.lit "Apple") (JsStr.lit "Senior Technical Product Manager") (JsStr.lit "actual") (JsStr.lit "senior") (JsStr.lit "in_progress") (JsStr.lit "pending") (JsStr.lit "2025-01-08") (JsStr.lit "2024-12-20") 5 (Some 22%Z);
    mkInterview 7 (JsStr.lit "Anthropic") (JsStr.lit "GenAI Architect") (JsStr.lit "actual") (JsStr.lit "staff") (JsStr.lit "scheduled") (JsStr.lit "pending") (JsStr.lit "2025-01-25") (JsStr.lit "2025-01-10") 4 (Some 28%Z);
    mkInterview 8 (JsStr.lit "OpenAI") (JsStr.lit "Product Manager - AI") (JsStr.lit "actual") (JsStr.lit "senior") (JsStr.lit "cancelled") (JsStr.lit "unknown") (JsStr.lit "2025-01-12") (JsStr.lit "2024-12-30") 0 (Some 10%Z);
    mkInterview 9 (JsStr.lit "Startup XYZ") (JsStr.lit "Head of Product") (JsStr.lit "actual") (JsStr.lit "vp") (JsStr.lit "completed") (JsStr.lit "strong_hire") (JsStr.lit "2024-12-18") (JsStr.lit "2024-12-08") 3 (Some 12%Z);
    mkInterview 10 (JsStr.lit "Databricks") (JsStr.lit "Data Product Manager") (JsStr.lit "actual") (JsStr.lit "senior") (JsStr.lit "completed") (JsStr.lit "hire") (JsStr.lit "2024-12-22") (JsStr.lit "2024-12-12") 4 (Some 16%Z) ].

(** [xs.includes(x)] on strings. *)
Definition includes (xs : list jstring) (x : jstring) : bool :=
  existsb (JsStr.eqb x) xs.

Definition is_completed (i : Interview) : bool :=
  JsStr.eqb (interview_status i) (JsStr.lit "completed").

Definition is_successful (i : Interview) : bool :=
  includes [JsStr.lit "passed"; JsStr.lit "hire"; JsStr.lit "strong_hire"]
           (interview_result i).

Definition getTotalInterviews (interviews : list Interview) : nat :=
  List.length interviews.

Definition getCompletedInterviews (interviews : list Interview) : nat :=
  List.length (filter is_completed interviews).

(** The Number of a length.  An array holds fewer than 2^32 elements, so
    its length is an integer that binary64 holds exactly. *)
Definition of_length {A} (l : list A) : float :=
  PrimFloat.of_uint63 (Uint63.of_Z (Z.of_nat (List.length l))).

(** [getSuccessRate] over [this.interviews], in binary64: the quotient is
    rounded, then the product. *)
Definition getSuccessRate (interviews : list Interview) : float :=
  let completed := filter is_completed interviews in
  let successful := filter is_successful completed in
  if (0 <? List.length completed)%nat
  then (of_length successful / of_length completed * 100)%float
  else 0%float.

(** The part of the component the list view works on. *)
Record state : Type := mkState {
  interviews : list Interview;
  filteredInterviews : list Interview;
  statusFilter : jstring;
  searchTerm : jstring
}.

Section Component.

(** [String.prototype.toLowerCase] and [toUpperCase]. *)
Variable toLowerCase : jstring -> jstring.
Variable toUpperCase : jstring -> jstring.

(** The predicate of [applyFilters]. *)
Definition matches (status term : jstring) (interview : Interview) : bool :=
  let matchesStatus :=
    JsStr.eqb status (JsStr.lit "all")
    || JsStr.eqb (interview_status interview) status in
  let matchesSearch :=
    match term with
    | [] => true
    | _ :: _ =>
        JsStr.includes term (toLowerCase (company_name interview))
        || JsStr.includes term (toLowerCase (role_name interview))
    end in
  matchesStatus && matchesSearch.

Definition applyFilters (s : state) : state :=
  mkState (interviews s)
          (filter (matches (statusFilter s) (searchTerm s)) (interviews s))
          (statusFilter s) (searchTerm s).

(** [ngOnInit] on the fields as the class initialises them. *)
Definition ngOnInit : state :=
  mkState loadHardcodedData loadHardcodedData (JsStr.lit "all") [].

Definition filterByStatus (status : jstring) (s : state) : state :=
  applyFilters (mkState (interviews s) (filteredInterviews s) status (searchTerm s)).

(** [onSearch]; [value] is [event.target.value]. *)
Definition onSearch (value : jstring) (s : state) : state :=
  applyFilters
    (mkState (interviews s) (filteredInterviews s) (statusFilter s)
             (toLowerCase value)).

(** [deleteInterview]; [confirmed] is the answer to [confirm(...)]. *)
Definition deleteInterview (interviewId : Z) (confirmed : bool) (s : state)
  : state :=
  if confirmed
  then applyFilters
         (mkState (filter (fun i => negb (Z.eqb (interview_id i) interviewId))
                          (interviews s))
                  (filteredInterviews s) (statusFilter s) (searchTerm s))
  else s.

(** The rows shown are the rows that pass the filters in force. *)
Definition shows_filtered (s : state) : Prop :=
  filteredInterviews s
  = filter (matches (statusFilter s) (searchTerm s)) (interviews s).

(** What the user can do on the list. *)
Inductive action : Type :=
| FilterByStatus (status : jstring)
| OnSearch (value : jstring)
| DeleteInterview (interviewId : Z) (confirmed : bool).

Definition step (s : state) (a : action) : state :=
  match a with
  | FilterByStatus status => filterByStatus status s
  | OnSearch value => onSearch value s
  | DeleteInterview interviewId confirmed => deleteInterview interviewId confirmed s
  end.

Definition run (actions : list action) (s : state) : state :=
  fold_left step actions s.

(** [formatInterviewType] *)
Definition formatInterviewType (type : jstring) : jstring :=
  toUpperCase (JsStr.charAt 0 type) ++ JsStr.slice 1 type.

(** [formatSeniorityLevel] *)
Definition formatSeniorityLevel (level : jstring) : jstring :=
  JsStr.join (JsStr.lit " ")
    (List.map (fun word => toUpperCase (JsStr.charAt 0 word) ++ JsStr.slice 1 word)
              (JsStr.split (JsStr.lit "_") level)).

End Component.

Definition is_active (i : Interview) : bool :=
  JsStr.eqb (interview_status i) (JsStr.lit "scheduled")
  || JsStr.eqb (interview_status i) (JsStr.lit "in_progress").

Definition getActiveInterviews (interviews : list Interview) : nat :=
  List.length (filter is_active interviews).

(** [getStatusBadgeClass] *)
Definition statusClasses : list (jstring * jstring) :=
  [ (JsStr.lit "scheduled", JsStr.lit "badge-info");
    (JsStr.lit "in_progress", JsStr.lit "badge-warning");
    (JsStr.lit "completed", JsStr.lit "badge-success");
    (JsStr.lit "cancelled", JsStr.lit "badge-danger");
    (JsStr.lit "no_show", JsStr.lit "badge-danger");
    (JsStr.lit "rescheduled", JsStr.lit "badge-secondary") ].

Definition getStatusBadgeClass (status : jstring) : Js.looked_up :=
  Js.lookup_or statusClasses (JsStr.lit "badge-secondary") status.

(** [getResultBadgeClass] *)
Definition resultClasses : list (jstring * jstring) :=
  [ (JsStr.lit "passed", JsStr.lit "badge-success");
    (JsStr.lit "failed", JsStr.lit "badge-danger");
    (JsStr.lit "strong_hire", JsStr.lit "badge-success");
    (JsStr.lit "hire", JsStr.lit "badge-success");
    (JsStr.lit "no_hire", JsStr.lit "badge-danger");
    (JsStr.lit "pending", JsStr.lit "badge-warning");
    (JsStr.lit "mixed", JsStr.lit "badge-secondary");
    (JsStr.lit "unknown", JsStr.lit "badge-secondary") ].

Definition getResultBadgeClass (result : jstring) : Js.looked_up :=
  Js.lookup_or resultClasses (JsStr.lit "badge-secondary") result.

End ListInterviewsComponent.

(* ================================================================== *)
(** ** The stream producer *)
(* ================================================================== *)

Module Producer.

(** Modelled from the spec: the server-side stream producer (the FastAPI
    router behind [POST /api/agents/answer-stream] is not among the
    sources).  Sections 4.1, 6 and 7 of the specification give its event
    sequence, its payloads and its error policy. *)
Inductive Event : Type :=
| start (message question : jstring)
| routing (selected_agent reasoning : jstring) (confidence : Q)
| processing (message : jstring)
| content (chunk : jstring) (is_final : bool)
| answer_complete (full_answer : jstring) (word_count character_count : nat)
                  (metadata : jstring)
| follow_ups (questions : list jstring)
| complete (message agent_used : jstring) (success : bool)
| error (message : jstring).

(** Modelled from the spec: a pipeline step that calls out (the
    classification, the LLM answer, the follow-up suggestions) yields its
    result or fails with a message. *)
Inductive step (A : Type) : Type :=
| Ok (a : A)
| Failed (message : jstring).
Arguments Ok {A} a.
Arguments Failed {A} message.

(** Modelled from the spec: the outcomes of the three steps of one
    request: the agent chosen with its justification and confidence, the
    full answer with its metadata, the follow-up questions. *)
Record outcomes : Type := mkOutcomes {
  classified : step (jstring * jstring * Q);
  answered : step (jstring * jstring);
  suggested : step (list jstring)
}.

(** Modelled from the spec: the answer cut into substrings of [size]
    characters, the last one possibly shorter. *)
Fixpoint chunks_upto (fuel size : nat) (answer : jstring) : list jstring :=
  match fuel with
  | O => []
  | S f =>
      match answer with
      | [] => []
      | _ :: _ => firstn size answer :: chunks_upto f size (skipn size answer)
      end
  end.

(** Modelled from the spec: the chunks of the whole answer; an answer of
    [n] characters has at most [n] chunks. *)
Definition chunks (size : nat) (answer : jstring) : list jstring :=
  chunks_upto (List.length answer) size answer.

(** Modelled from the spec: one [content] event per chunk, [is_final]
    true only on the last. *)
Fixpoint content_events (cs : list jstring) : list Event :=
  match cs with
  | [] => []
  | [c] => [content c true]
  | c :: rest => content c false :: content_events rest
  end.

(** Modelled from the spec: the literal word count of the answer, its
    maximal runs of characters that are not white space. *)
Fixpoint count_words (inside : bool) (s : jstring) : nat :=
  match s with
  | [] => 0
  | c :: s' =>
      if JsStr.is_whitespace c then count_words false s'
      else if inside then count_words true s'
      else S (count_words true s')
  end.

(** Modelled from the spec: [word_count] of [answer_complete]. *)
Definition word_count (s : jstring) : nat := count_words false s.

(** Modelled from the spec: the sequence of section 4.1.  A failure in a
    step emits one [error] event and ends the sequence. *)
Definition generate_stream_events (chunk_size : nat) (question : jstring)
  (o : outcomes) : list Event :=
  start (JsStr.lit "Processing question...") question ::
  match classified o with
  | Failed m => [error m]
  | Ok (agent, reasoning, confidence) =>
      routing agent reasoning confidence ::
      processing (JsStr.lit "Processing with " ++ agent ++ JsStr.lit " agent...") ::
      match answered o with
      | Failed m => [error m]
      | Ok (full, metadata) =>
          content_events (chunks chunk_size full) ++
          answer_complete full (word_count full) (List.length full) metadata ::
          match suggested o with
          | Failed m => [error m]
          | Ok qs =>
              [follow_ups qs;
               complete (JsStr.lit "Processing complete") agent true]
          end
      end
  end.

(** Modelled from the spec: the streaming endpoint rejects a question
    shorter than the configured minimum before any event is emitted. *)
Definition answer_stream (min_length chunk_size : nat) (question : jstring)
  (o : outcomes) : option (list Event) :=
  if (List.length question <? min_length)%nat then None
  else Some (generate_stream_events chunk_size question o).

Definition is_start (e : Event) : bool :=
  match e with start _ _ => true | _ => false end.
Definition is_routing (e : Event) : bool :=
  match e with routing _ _ _ => true | _ => false end.
Definition is_content (e : Event) : bool :=
  match e with content _ _ => true | _ => false end.
Definition is_complete (e : Event) : bool :=
  match e with complete _ _ _ => true | _ => false end.
Definition is_error (e : Event) : bool :=
  match e with error _ => true | _ => false end.
Definition is_terminal (e : Event) : bool := is_complete e || is_error e.

Definition count (p : Event -> bool) (evs : list Event) : nat :=
  List.length (filter p evs).

(** The [is_final] flags of the [content] events, in emission order. *)
Definition final_flags (evs : list Event) : list bool :=
  flat_map (fun e => match e with content _ f => [f] | _ => [] end) evs.

(** The [chunk] fields of the [content] events, concatenated in emission
    order. *)
Definition content_text (evs : list Event) : jstring :=
  flat_map (fun e => match e with content c _ => c | _ => [] end) evs.

(** The [chunk] fields of the [content] events, in emission order. *)
Definition content_chunks (evs : list Event) : list jstring :=
  flat_map (fun e => match e with content c _ => [c] | _ => [] end) evs.

Definition is_answer_complete (e : Event) : bool :=
  match e with answer_complete _ _ _ _ => true | _ => false end.

(** True on and only on the last flag. *)
Fixpoint last_only (flags : list bool) : bool :=
  match flags with
  | [] => true
  | [f] => f
  | f :: rest => negb f && last_only rest
  end.

End Producer.

(* ================================================================== *)
(** ** architect.component.ts *)
(* ================================================================== *)

Module ArchitectComponent.

Record ArchitectPattern : Type := mkArchitectPattern {
  id : jstring;
  title : jstring;
  description : jstring;
  icon : jstring;
  category : jstring;
  difficulty : jstring;
  contentType : jstring;
  markdownFile : option jstring;
  imageUrl : option jstring;
  htmlFile : option jstring;
  tags : list jstring;
  color : jstring
}.

(** The fields the list, its filters and its pagination work on.  Page
    numbers and sizes are integers. *)
Record state : Type := mkState {
  architectPatterns : list ArchitectPattern;
  filteredPatterns : list ArchitectPattern;
  paginatedPatterns : list ArchitectPattern;
  searchQuery : jstring;
  selectedCategory : jstring;
  currentPage : Z;
  itemsPerPage : Z;
  totalPages : Z;
  categories : list jstring
}.

(** The field initialisers of the class. *)
Definition initial : state :=
  mkState [] [] [] [] (JsStr.lit "all") 1 6 1 [].

(** An index of [Array.prototype.slice] brought into the array: a
    negative one counts from the end. *)
Definition relative_index (len k : Z) : Z :=
  if (k <? 0)%Z then Z.max (len + k) 0 else Z.min k len.

(** [xs.slice(from, to)] *)
Definition slice {A : Type} (from to : Z) (xs : list A) : list A :=
  let len := Z.of_nat (List.length xs) in
  let k := relative_index len from in
  let final := relative_index len to in
  firstn (Z.to_nat (final - k)) (skipn (Z.to_nat k) xs).

(** [Math.ceil(n / d)] for a length [n] and a positive [d]. *)
Definition ceil_div (n d : Z) : Z := ((n + d - 1) / d)%Z.

(** [updatePagination] *)
Definition updatePagination (s : state) : state :=
  let totalPages' :=
    ceil_div (Z.of_nat (List.length (filteredPatterns s))) (itemsPerPage s) in
  let currentPage' :=
    if (totalPages' <? currentPage s)%Z then 1%Z else currentPage s in
  let startIndex := ((currentPage' - 1) * itemsPerPage s)%Z in
  let endIndex := (startIndex + itemsPerPage s)%Z in
  mkState (architectPatterns s) (filteredPatterns s)
          (slice startIndex endIndex (filteredPatterns s))
          (searchQuery s) (selectedCategory s)
          currentPage' (itemsPerPage s) totalPages' (categories s).

Definition set_currentPage (page : Z) (s : state) : state :=
  mkState (architectPatterns s) (filteredPatterns s) (paginatedPatterns s)
          (searchQuery s) (selectedCategory s) page (itemsPerPage s)
          (totalPages s) (categories s).

(** [goToPage] *)
Definition goToPage (page : Z) (s : state) : state :=
  if ((1 <=? page) && (page <=? totalPages s))%Z
  then updatePagination (set_currentPage page s)
  else s.

(** [previousPage] *)
Definition previousPage (s : state) : state :=
  if (1 <? currentPage s)%Z
  then updatePagination (set_currentPage (currentPage s - 1) s)
  else s.

(** [nextPage] *)
Definition nextPage (s : state) : state :=
  if (currentPage s <? totalPages s)%Z
  then updatePagination (set_currentPage (currentPage s + 1) s)
  else s.

(** The integers from [lo] to [hi], as a [for] loop pushes them. *)
Definition range (lo hi : Z) : list Z :=
  List.map (fun i => (lo + Z.of_nat i)%Z) (seq 0 (Z.to_nat (hi - lo + 1))).

(** [getPageNumbers]; [-1] stands for an ellipsis. *)
Definition getPageNumbers (s : state) : list Z :=
  let maxVisiblePages := 5%Z in
  if (totalPages s <=? maxVisiblePages)%Z then range 1 (totalPages s)
  else if (currentPage s <=? 3)%Z
  then range 1 4 ++ [(-1)%Z] ++ [totalPages s]
  else if (totalPages s - 2 <=? currentPage s)%Z
  then [1%Z] ++ [(-1)%Z] ++ range (totalPages s - 3) (totalPages s)
  else [ 1%Z; (-1)%Z; (currentPage s - 1)%Z; currentPage s;
         (currentPage s + 1)%Z; (-1)%Z; totalPages s ].

(** [Array.from(new Set(xs))]: the first occurrence of each value, in
    order. *)
Fixpoint distinct (seen xs : list jstring) : list jstring :=
  match xs with
  | [] => []
  | x :: rest =>
      if existsb (JsStr.eqb x) seen then distinct seen rest
      else x :: distinct (x :: seen) rest
  end.

Section Component.

Variable toLowerCase : jstring -> jstring.

(** The predicate of [filterPatterns]. *)
Definition matches (query selected : jstring) (pattern : ArchitectPattern) : bool :=
  let matchesSearch :=
    match query with
    | [] => true
    | _ :: _ =>
        JsStr.includes (toLowerCase query) (toLowerCase (title pattern))
        || JsStr.includes (toLowerCase query) (toLowerCase (description pattern))
        || existsb (fun tag => JsStr.includes (toLowerCase query) (toLowerCase tag))
                   (tags pattern)
    end in
  let matchesCategory :=
    JsStr.eqb selected (JsStr.lit "all")
    || JsStr.eqb (category pattern) selected in
  matchesSearch && matchesCategory.

(** [filterPatterns] *)
Definition filterPatterns (s : state) : state :=
  updatePagination
    (mkState (architectPatterns s)
             (filter (matches (searchQuery s) (selectedCategory s))
                     (architectPatterns s))
             (paginatedPatterns s) (searchQuery s) (selectedCategory s)
             1 (itemsPerPage s) (totalPages s) (categories s)).

(** [onSearchChange], after the template stored the query. *)
Definition onSearchChange (query : jstring) (s : state) : state :=
  filterPatterns
    (mkState (architectPatterns s) (filteredPatterns s) (paginatedPatterns s)
             query (selectedCategory s) (currentPage s) (itemsPerPage s)
             (totalPages s) (categories s)).

(** [onCategoryChange] *)
Definition onCategoryChange (selected : jstring) (s : state) : state :=
  filterPatterns
    (mkState (architectPatterns s) (filteredPatterns s) (paginatedPatterns s)
             (searchQuery s) selected (currentPage s) (itemsPerPage s)
             (totalPages s) (categories s)).

(** The [next] callback of [loadPatternsFromJson], on the fields above
    (it also lowers [isLoading]). *)
Definition loaded (data : list ArchitectPattern) (s : state) : state :=
  updatePagination
    (mkState data data (paginatedPatterns s) (searchQuery s)
             (selectedCategory s) (currentPage s) (itemsPerPage s)
             (totalPages s) (distinct [] (List.map category data))).

(** What the user can do on the list. *)
Inductive action : Type :=
| OnSearchChange (query : jstring)
| OnCategoryChange (selected : jstring)
| GoToPage (page : Z)
| PreviousPage
| NextPage.

Definition step (s : state) (a : action) : state :=
  match a with
  | OnSearchChange query => onSearchChange query s
  | OnCategoryChange selected => onCategoryChange selected s
  | GoToPage page => goToPage page s
  | PreviousPage => previousPage s
  | NextPage => nextPage s
  end.

Definition run (actions : list action) (s : state) : state :=
  fold_left step actions s.

End Component.

(** The pagination fields agree with the filtered list: the page is
    between 1 and the number of pages (1 when there is none), the number
    of pages is the one the list needs, and the page shown is its slice
    of the list. *)
Definition paged (s : state) : Prop :=
  (0 < itemsPerPage s)%Z
  /\ (1 <= currentPage s <= Z.max 1 (totalPages s))%Z
  /\ totalPages s
     = ceil_div (Z.of_nat (List.length (filteredPatterns s))) (itemsPerPage s)
  /\ paginatedPatterns s
     = slice ((currentPage s - 1) * itemsPerPage s)
             ((currentPage s - 1) * itemsPerPage s + itemsPerPage s)
             (filteredPatterns s).

End ArchitectComponent.

(* ================================================================== *)
(** ** markdown.pipe.ts: tables *)
(* ================================================================== *)

Module MarkdownPipe.

Definition pipe : N := 124%N.

(** [line.startsWith('|') && line.endsWith('|')] *)
Definition is_row (line : jstring) : bool :=
  JsStr.startsWith [pipe] line && JsStr.endsWith [pipe] line.

(** A code unit of the class [[\s\-:]]. *)
Definition separator_unit (c : N) : bool :=
  (JsStr.is_whitespace c || N.eqb c 45 || N.eqb c 58)%N.

(** [line.match(/^\|[\s\-:]+\|$/)]: a bar, one or more units of the
    class, a bar, and nothing else. *)
Definition is_separator (line : jstring) : bool :=
  match line with
  | first :: rest =>
      N.eqb first pipe
      && match rev rest with
         | final :: middle =>
             N.eqb final pipe
             && match middle with [] => false | _ :: _ => true end
             && forallb separator_unit middle
         | [] => false
         end
  | [] => false
  end.

(** The cells of a row: the text between the outer bars, cut at the
    bars, each piece trimmed. *)
Definition cells_of (line : jstring) : list jstring :=
  List.map JsStr.trim
    (JsStr.split [pipe]
       (JsStr.substring_between 1 (List.length line - 1) line)).

Definition header_row (cells : list jstring) : jstring :=
  JsStr.lit "<thead><tr>"
  ++ flat_map (fun cell => JsStr.lit "<th>" ++ cell ++ JsStr.lit "</th>") cells
  ++ JsStr.lit "</tr></thead><tbody>".

Definition body_row (cells : list jstring) : jstring :=
  JsStr.lit "<tr>"
  ++ flat_map (fun cell => JsStr.lit "<td>" ++ cell ++ JsStr.lit "</td>") cells
  ++ JsStr.lit "</tr>".

(** The variables of the loop of [convertTables]. *)
Record loop : Type := mkLoop {
  inTable : bool;
  isHeader : bool;
  result : jstring
}.

(** One turn of the loop, on [lines[i]]. *)
Definition turn (st : loop) (raw : jstring) : loop :=
  let line := JsStr.trim raw in
  if is_row line then
    let st1 :=
      if inTable st then st
      else mkLoop true true (result st ++ JsStr.lit "<table>") in
    if is_separator line then st1
    else if isHeader st1
    then mkLoop (inTable st1) false (result st1 ++ header_row (cells_of line))
    else mkLoop (inTable st1) (isHeader st1)
                (result st1 ++ body_row (cells_of line))
  else
    let closed :=
      if inTable st then result st ++ JsStr.lit "</tbody></table>"
      else result st in
    mkLoop false (isHeader st) (closed ++ line ++ [JsStr.newline]).

(** [convertTables] *)
Definition convertTables (html : jstring) : jstring :=
  let st := fold_left turn (JsStr.split [JsStr.newline] html)
                      (mkLoop false false []) in
  if inTable st then result st ++ JsStr.lit "</tbody></table>" else result st.

(** The line of a row of cells, and the text of a table: its header, a
    separator line, its rows. *)
Definition row_line (cells : list jstring) : jstring :=
  [pipe] ++ JsStr.join [pipe] cells ++ [pipe].


(** A cell that can stand in a row: trimmed, without bar or line feed. *)
Definition plain_cell (cell : jstring) : Prop :=
  JsStr.trim cell = cell /\ ~ In pipe cell /\ ~ In JsStr.newline cell.






End MarkdownPipe.

(* ================================================================== *)
(** ** Sample traffic *)
(* ================================================================== *)

Module Samples.

Import AgentStreamService.

(** The text of an event as the server frames it, without the prefix. *)
Definition event_text (event_type timestamp : string) (data : jstring) : jstring :=
  JsonText.object_text
    [ ("event_type"%string, JsonText.quoted event_type);
      ("timestamp"%string, JsonText.quoted timestamp);
      ("data"%string, data) ].

(** The value that text denotes. *)
Definition event_value (event_type timestamp : string) (data : Js.value) : Js.value :=
  Js.Object
    [ (JsStr.lit "event_type", Js.Str (JsStr.lit event_type));
      (JsStr.lit "timestamp", Js.Str (JsStr.lit timestamp));
      (JsStr.lit "data", data) ].

Definition start_text : jstring :=
  event_text "start" "2024-12-02T10:00:00"
    (JsonText.object_text [("message"%string, JsonText.quoted "Processing question...")]).

Definition start_event : Js.value :=
  event_value "start" "2024-12-02T10:00:00"
    (Js.Object [(JsStr.lit "message", Js.Str (JsStr.lit "Processing question..."))]).

Definition complete_text : jstring :=
  event_text "complete" "2024-12-02T10:00:05"
    (JsonText.object_text [("message"%string, JsonText.quoted "Processing complete")]).

Definition complete_event : Js.value :=
  event_value "complete" "2024-12-02T10:00:05"
    (Js.Object [(JsStr.lit "message", Js.Str (JsStr.lit "Processing complete"))]).

Definition error_text : jstring :=
  event_text "error" "2024-12-02T10:00:03"
    (JsonText.object_text [("message"%string, JsonText.quoted "LLM unavailable")]).

Definition error_event : Js.value :=
  event_value "error" "2024-12-02T10:00:03"
    (Js.Object [(JsStr.lit "message", Js.Str (JsStr.lit "LLM unavailable"))]).

(** A frame cut short: its text is not a document. *)
Definition truncated_text : jstring :=
  JsStr.lit "{" ++ JsonText.quoted "event_type" ++ JsStr.lit ":".

Definition frame (doc : jstring) : jstring :=
  JsStr.lit "data: " ++ doc ++ blank_line.

(** The body [start] frame, [complete] frame, delivered in two parts with
    the cut inside the prefix of the second frame. *)
Definition part1 : jstring := frame start_text ++ JsStr.lit "da".
Definition part2 : jstring := JsStr.lit "ta: " ++ complete_text ++ blank_line.

(** A body with a malformed frame between two well-formed ones. *)
Definition body_with_malformed : jstring :=
  frame start_text ++ frame truncated_text ++ frame complete_text.

Definition network_error : HttpErrorResponse :=
  mkHttpError 0 (JsStr.lit "Unknown Error").

Definition server_error : HttpErrorResponse :=
  mkHttpError 500 (JsStr.lit "Internal Server Error").

(** What the request reports for that body, delivered at once. *)
Definition malformed_delivery : list HttpEvent :=
  [ Sent; ResponseHeader;
    DownloadProgress (Some body_with_malformed);
    DownloadProgress None ].

(** An interview room after a first answer, its question field holding a
    space, a tab and a no-break space. *)
Definition room_with_blank_question : InterviewRoomComponent.state :=
  InterviewRoomComponent.mkState
    [32%N; 9%N; 160%N] (JsStr.lit "staff role")
    [InterviewRoomComponent.mkMessage InterviewRoomComponent.user
       (Js.Str (JsStr.lit "What is the CAP theorem?")) 1733133500000%Z None]
    (Js.Str (JsStr.lit "Consistency, availability, partition tolerance."))
    false (Js.Str (JsStr.lit "technical")) (Js.Str (JsStr.lit "distributed systems"))
    (Js.Number 1%float) (Js.Array [Js.Str (JsStr.lit "What about PACELC?")])
    [InterviewRoomComponent.mkHistoryEntry (JsStr.lit "What is the CAP theorem?")
       (Js.Str (JsStr.lit "Consistency, availability, partition tolerance."))
       (Js.Str (JsStr.lit "technical"))]
    (Js.Str (JsStr.lit "Complete")) false false.

(** A request answered in full: the answer is cut into chunks of four
    characters. *)
Definition hello_outcomes : Producer.outcomes :=
  Producer.mkOutcomes
    (Producer.Ok (JsStr.lit "technical", JsStr.lit "Question about algorithms", 19 # 20))
    (Producer.Ok (JsStr.lit "Hello world", JsStr.lit "{}"))
    (Producer.Ok [JsStr.lit "What about the worst case?"]).

Definition hello_question : jstring := JsStr.lit "What is Big O notation?".

(** The same request when the LLM call fails. *)
Definition failing_outcomes : Producer.outcomes :=
  Producer.mkOutcomes
    (Producer.Ok (JsStr.lit "technical", JsStr.lit "Question about algorithms", 19 # 20))
    (Producer.Failed (JsStr.lit "Connection timeout"))
    (Producer.Ok []).

(** Three documents, the second malformed. *)
Definition documents : list jstring :=
  [start_text; truncated_text; complete_text].

(** A [content] event and an [answer_complete] event as values. *)
Definition content_event (chunk : jstring) (is_final : bool) : Js.value :=
  event_value "content" "2024-12-02T10:00:01"
    (Js.Object [ (JsStr.lit "chunk", Js.Str chunk);
                 (JsStr.lit "is_final", Js.Bool is_final) ]).

Definition answer_complete_event (full_answer : jstring) : Js.value :=
  event_value "answer_complete" "2024-12-02T10:00:04"
    (Js.Object [ (JsStr.lit "full_answer", Js.Str full_answer);
                 (JsStr.lit "metadata", Js.Object []) ]).

(** The other events of an answered question. *)
Definition routing_event (agent : jstring) : Js.value :=
  event_value "routing" "2024-12-02T10:00:00"
    (Js.Object [ (JsStr.lit "selected_agent", Js.Str agent);
                 (JsStr.lit "reasoning", Js.Str (JsStr.lit "Question about algorithms"));
                 (JsStr.lit "confidence", Js.Number 0.75%float) ]).

Definition processing_event : Js.value :=
  event_value "processing" "2024-12-02T10:00:00"
    (Js.Object [ (JsStr.lit "agent", Js.Str (JsStr.lit "technical"));
                 (JsStr.lit "message", Js.Str (JsStr.lit "Generating answer...")) ]).

Definition follow_ups_event (questions : list jstring) : Js.value :=
  event_value "follow_ups" "2024-12-02T10:00:05"
    (Js.Object [ (JsStr.lit "questions", Js.Array (List.map Js.Str questions)) ]).

(** An event of a type the handlers do not know, and a [start] event
    that lost its payload. *)
Definition heartbeat_event : Js.value :=
  event_value "heartbeat" "2024-12-02T10:00:02" Js.Null.

Definition bare_start_event : Js.value :=
  Js.Object [(JsStr.lit "event_type", Js.Str (JsStr.lit "start"))].

(** Three completed interviews, one of them passed. *)
Definition one_in_three : list ListInterviewsComponent.Interview :=
  [ ListInterviewsComponent.mkInterview 1 (JsStr.lit "A") (JsStr.lit "PM")
      (JsStr.lit "actual") (JsStr.lit "senior") (JsStr.lit "completed")
      (JsStr.lit "passed") (JsStr.lit "2025-01-01") (JsStr.lit "2024-12-01")
      3 None;
    ListInterviewsComponent.mkInterview 2 (JsStr.lit "B") (JsStr.lit "PM")
      (JsStr.lit "actual") (JsStr.lit "senior") (JsStr.lit "completed")
      (JsStr.lit "failed") (JsStr.lit "2025-01-02") (JsStr.lit "2024-12-02")
      3 None;
    ListInterviewsComponent.mkInterview 3 (JsStr.lit "C") (JsStr.lit "PM")
      (JsStr.lit "actual") (JsStr.lit "senior") (JsStr.lit "completed")
      (JsStr.lit "no_hire") (JsStr.lit "2025-01-03") (JsStr.lit "2024-12-03")
      3 None ].

(** The interview room with a question typed in. *)
Definition room_with_question : InterviewRoomComponent.state :=
  InterviewRoomComponent.set_question (JsStr.lit " What about PACELC? ")
    room_with_blank_question.

(** Upper-casing of the ASCII letters. *)
Definition ascii_upper (s : jstring) : jstring :=
  List.map (fun c => if ((97 <=? c) && (c <=? 122))%N then (c - 32)%N else c) s.

(** Eight patterns, of two categories. *)
Definition pattern (name category : string) : ArchitectComponent.ArchitectPattern :=
  ArchitectComponent.mkArchitectPattern
    (JsStr.lit name) (JsStr.lit name) (JsStr.lit "A pattern") (JsStr.lit "cube")
    (JsStr.lit category) (JsStr.lit "Advanced") (JsStr.lit "markdown")
    (Some (JsStr.lit "etc-pipeline-architecture.md")) None None
    [JsStr.lit "design"] (JsStr.lit "#2196F3").

Definition patterns : list ArchitectComponent.ArchitectPattern :=
  [ pattern "etl" "Data"; pattern "cqrs" "Services"; pattern "saga" "Services";
    pattern "lambda" "Data"; pattern "kappa" "Data"; pattern "outbox" "Services";
    pattern "sidecar" "Services"; pattern "mesh" "Services" ].

(** The architect list after the load: two pages, the first shown. *)
Definition architect_loaded : ArchitectComponent.state :=
  ArchitectComponent.loaded patterns ArchitectComponent.initial.

(** A list of forty pages, the twentieth shown. *)
Definition architect_many_pages : ArchitectComponent.state :=
  ArchitectComponent.mkState [] [] [] [] (JsStr.lit "all") 20 6 40 [].

Definition no_number (d : float) : jstring := [].

Definition table_separator : jstring := JsStr.lit "| :------- |".
Definition table_dashes : list jstring := [JsStr.lit "---"; JsStr.lit ":--"].

Definition indented_text : jstring :=
  JsStr.lit "  # Title" ++ [JsStr.newline] ++ JsStr.lit "a | b  ".

End Samples.

(* ================================================================== *)
(** * Properties *)
(* ================================================================== *)

(** ** Strings *)

Unset Implicit Arguments.

Lemma startsWith_blank_line_cons (c : N) (s : jstring) :
  c <> JsStr.newline -> JsStr.startsWith blank_line (c :: s) = false.
Proof.
  intros Hc. unfold blank_line. cbn [JsStr.startsWith].
  destruct (N.eqb_spec JsStr.newline c) as [E | E]; [congruence | reflexivity].
Qed.

(** A piece without line feed, followed by the delimiter, is the first
    piece of the split. *)
Lemma split_frame (seg rest : jstring) :
  JsStr.newline_free seg ->
  JsStr.split blank_line (seg ++ blank_line ++ rest)
  = seg :: JsStr.split blank_line rest.
Proof.
  unfold JsStr.split, JsStr.newline_free.
  induction seg as [| c seg IH]; intros Hfree.
  - reflexivity.
  - assert (Hc : c <> JsStr.newline) by (intros E; apply Hfree; left; auto).
    assert (Hseg : ~ In JsStr.newline seg) by (intros E; apply Hfree; right; auto).
    change ((c :: seg) ++ blank_line ++ rest)
      with (c :: (seg ++ blank_line ++ rest)).
    cbn [JsStr.split_from].
    rewrite (startsWith_blank_line_cons _ _ Hc).
    rewrite (IH Hseg). reflexivity.
Qed.

(** A text without line feed is a single piece. *)
Lemma split_newline_free (seg : jstring) :
  JsStr.newline_free seg -> JsStr.split blank_line seg = [seg].
Proof.
  unfold JsStr.split, JsStr.newline_free.
  induction seg as [| c seg IH]; intros Hfree.
  - reflexivity.
  - assert (Hc : c <> JsStr.newline) by (intros E; apply Hfree; left; auto).
    assert (Hseg : ~ In JsStr.newline seg) by (intros E; apply Hfree; right; auto).
    cbn [JsStr.split_from].
    rewrite (startsWith_blank_line_cons _ _ Hc).
    rewrite (IH Hseg). reflexivity.
Qed.

(** Splitting undoes joining, for pieces without line feed. *)
Lemma split_join (segs : list jstring) :
  segs <> [] ->
  Forall JsStr.newline_free segs ->
  JsStr.split blank_line (JsStr.join blank_line segs) = segs.
Proof.
  induction segs as [| seg segs IH]; intros Hne Hall; [congruence |].
  inversion Hall as [| ? ? Hseg Hrest]; subst.
  destruct segs as [| seg' segs'].
  - cbn [JsStr.join]. apply split_newline_free; assumption.
  - change (JsStr.join blank_line (seg :: seg' :: segs'))
      with (seg ++ blank_line ++ JsStr.join blank_line (seg' :: segs')).
    rewrite (split_frame _ _ Hseg). f_equal.
    apply IH; [discriminate | assumption].
Qed.

Lemma trimStart_whitespace_only (s : jstring) :
  JsStr.whitespace_only s = true -> JsStr.trimStart s = [].
Proof.
  induction s as [| c s IH]; cbn; [reflexivity |].
  destruct (JsStr.is_whitespace c); cbn; [exact IH | discriminate].
Qed.

Lemma trimStart_nil_whitespace_only (s : jstring) :
  JsStr.trimStart s = [] -> JsStr.whitespace_only s = true.
Proof.
  induction s as [| c s IH]; cbn; [reflexivity |].
  destruct (JsStr.is_whitespace c); cbn; [exact IH | discriminate].
Qed.

(** [trim] gives the empty string exactly on the strings that are empty
    or white space only. *)
Lemma trim_nil_iff (s : jstring) :
  JsStr.trim s = [] <-> JsStr.whitespace_only s = true.
Proof.
  unfold JsStr.trim, JsStr.trimEnd. split.
  - intros H. apply trimStart_nil_whitespace_only.
    destruct (JsStr.trimStart s) as [| c r] eqn:E; [reflexivity |].
    exfalso.
    assert (Hrev : JsStr.trimStart (rev (c :: r)) = []).
    { apply (f_equal (@rev N)) in H. rewrite rev_involutive in H. exact H. }
    apply trimStart_nil_whitespace_only in Hrev.
    unfold JsStr.whitespace_only in Hrev.
    rewrite forallb_forall in Hrev.
    assert (Hc : JsStr.is_whitespace c = true).
    { apply Hrev. rewrite <- in_rev. left; reflexivity. }
    clear - E Hc.
    induction s as [| x s IH]; cbn in E; [discriminate |].
    destruct (JsStr.is_whitespace x) eqn:Ex; [auto |].
    inversion E; subst. congruence.
  - intros H. rewrite (trimStart_whitespace_only _ H). reflexivity.
Qed.

(** ** The stream consumer *)

Section ServiceFacts.

Import AgentStreamService.

Variable JSON_parse : jstring -> parsed.

(** On an open subject a line adds its events and its console lines. *)
Lemma forLine_open (w : world) (line : jstring) :
  Rx.closed (subject w) = false ->
  forLine JSON_parse w line
  = mkWorld
      (Rx.mkSubject false
         (Rx.delivered (subject w)
          ++ List.map Rx.Next (segment_events JSON_parse line)))
      (console w ++ segment_errors JSON_parse line).
Proof.
  intros Hopen. unfold forLine, segment_events, segment_errors, Rx.next.
  destruct w as [[c d] k]. cbn [subject console Rx.closed Rx.delivered] in *.
  subst c.
  destruct (JsStr.startsWith _ line); [destruct (JSON_parse _) |];
    cbn [List.map]; rewrite ?app_nil_r; reflexivity.
Qed.

Lemma fold_forLine_open (lines : list jstring) (w : world) :
  Rx.closed (subject w) = false ->
  fold_left (forLine JSON_parse) lines w
  = mkWorld
      (Rx.mkSubject false
         (Rx.delivered (subject w)
          ++ List.map Rx.Next (flat_map (segment_events JSON_parse) lines)))
      (console w ++ flat_map (segment_errors JSON_parse) lines).
Proof.
  revert w. induction lines as [| l lines IH]; intros w Hopen.
  - destruct w as [[c d] k]; cbn in *; subst c. rewrite !app_nil_r. reflexivity.
  - cbn [fold_left flat_map]. rewrite (forLine_open _ _ Hopen).
    rewrite IH by reflexivity. cbn [subject console Rx.delivered].
    rewrite map_app, !app_assoc. reflexivity.
Qed.

(** On a closed subject a line delivers nothing. *)
Lemma forLine_closed (w : world) (line : jstring) :
  Rx.closed (subject w) = true ->
  subject (forLine JSON_parse w line) = subject w.
Proof.
  intros Hc. unfold forLine.
  destruct (JsStr.startsWith _ line); [| reflexivity].
  destruct (JSON_parse _); cbn [subject]; [| reflexivity].
  unfold Rx.next, StreamEvent in *. rewrite Hc. reflexivity.
Qed.

Lemma fold_forLine_closed (lines : list jstring) (w : world) :
  Rx.closed (subject w) = true ->
  subject (fold_left (forLine JSON_parse) lines w) = subject w.
Proof.
  revert w. induction lines as [| l lines IH]; intros w Hc; [reflexivity |].
  cbn [fold_left]. rewrite IH; rewrite forLine_closed; auto.
Qed.

(** A closed subject stays as it is under every callback. *)
Lemma onNext_closed (w : world) (ev : HttpEvent) :
  Rx.closed (subject w) = true ->
  subject (onNext JSON_parse w ev) = subject w.
Proof.
  intros Hc. destruct ev; cbn [onNext subject]; try reflexivity.
  - apply fold_forLine_closed; assumption.
  - unfold Rx.complete, StreamEvent in *. rewrite Hc. reflexivity.
Qed.

Lemma fold_onNext_closed (evs : list HttpEvent) (w : world) :
  Rx.closed (subject w) = true ->
  subject (fold_left (onNext JSON_parse) evs w) = subject w.
Proof.
  revert w. induction evs as [| ev evs IH]; intros w Hc; [reflexivity |].
  cbn [fold_left]. rewrite IH; rewrite onNext_closed; auto.
Qed.

(** An event other than the response, on an open subject. *)
Lemma onNext_open (w : world) (ev : HttpEvent) :
  Rx.closed (subject w) = false ->
  is_response ev = false ->
  onNext JSON_parse w ev
  = mkWorld
      (Rx.mkSubject false
         (Rx.delivered (subject w)
          ++ List.map Rx.Next
               (flat_map (segment_events JSON_parse) (progress_segments ev))))
      (console w ++ flat_map (segment_errors JSON_parse) (progress_segments ev)).
Proof.
  intros Hopen Hev.
  destruct ev; cbn in Hev; try discriminate;
    try (destruct w as [[c d] k]; cbn in *; subst c;
         rewrite !app_nil_r; reflexivity).
  cbn [onNext progress_segments]. apply fold_forLine_open; assumption.
Qed.

Lemma fold_onNext_open (evs : list HttpEvent) (w : world) :
  Rx.closed (subject w) = false ->
  Forall (fun ev => is_response ev = false) evs ->
  fold_left (onNext JSON_parse) evs w
  = mkWorld
      (Rx.mkSubject false
         (Rx.delivered (subject w)
          ++ List.map Rx.Next
               (flat_map (segment_events JSON_parse)
                         (flat_map progress_segments evs))))
      (console w
       ++ flat_map (segment_errors JSON_parse) (flat_map progress_segments evs)).
Proof.
  revert w. induction evs as [| ev evs IH]; intros w Hopen Hall.
  - destruct w as [[c d] k]; cbn in *; subst c. rewrite !app_nil_r. reflexivity.
  - inversion Hall as [| ? ? Hev Hrest]; subst.
    cbn [fold_left]. rewrite (onNext_open _ _ Hopen Hev).
    rewrite IH by (auto; reflexivity).
    cbn [subject console Rx.delivered flat_map].
    rewrite !flat_map_app, map_app, !app_assoc. reflexivity.
Qed.

Lemma completes_once_initial : completes_once initial.
Proof. split; reflexivity. Qed.

Lemma completes_once_next (w : world) (v : StreamEvent) :
  completes_once w ->
  completes_once (mkWorld (Rx.next v (subject w)) (console w)).
Proof.
  unfold completes_once, completions, failures, Rx.next.
  destruct w as [[c d] k]; cbn. destruct c; cbn; [auto |].
  rewrite !filter_app, !length_app; cbn. intros [H1 H2]. lia.
Qed.

Lemma completes_once_complete (w : world) :
  completes_once w ->
  completes_once (mkWorld (Rx.complete (subject w)) (console w))
  /\ Rx.closed (Rx.complete (subject w)) = true.
Proof.
  unfold completes_once, completions, failures, Rx.complete.
  destruct w as [[c d] k]; cbn. destruct c; cbn; [auto |].
  rewrite !filter_app, !length_app; cbn. intros [H1 H2]. repeat split; lia.
Qed.

Lemma completes_once_forLine (w : world) (line : jstring) :
  completes_once w -> completes_once (forLine JSON_parse w line).
Proof.
  intros H. unfold forLine.
  destruct (JsStr.startsWith _ line); [| exact H].
  destruct (JSON_parse _); [apply completes_once_next; exact H |].
  exact H.
Qed.

Lemma completes_once_onNext (w : world) (ev : HttpEvent) :
  completes_once w -> completes_once (onNext JSON_parse w ev).
Proof.
  intros H. destruct ev; cbn [onNext]; try exact H.
  - generalize (JsStr.split blank_line (partialText_or_empty partialText)).
    intros lines. revert w H.
    induction lines as [| l lines IH]; intros w H; [exact H |].
    cbn [fold_left]. apply IH. apply completes_once_forLine; exact H.
  - apply completes_once_complete; exact H.
Qed.

Lemma completes_once_fold (evs : list HttpEvent) (w : world) :
  completes_once w -> completes_once (fold_left (onNext JSON_parse) evs w).
Proof.
  revert w. induction evs as [| ev evs IH]; intros w H; [exact H |].
  cbn [fold_left]. apply IH. apply completes_once_onNext; exact H.
Qed.

End ServiceFacts.

(** ** Notifications *)

Lemma errors_of_nexts {A E : Type} (vs : list A) :
  filter (@Rx.is_error A E) (List.map Rx.Next vs) = [].
Proof. induction vs; cbn; auto. Qed.

Lemma completions_of_nexts {A E : Type} (vs : list A) :
  filter (@Rx.is_complete A E) (List.map Rx.Next vs) = [].
Proof. induction vs; cbn; auto. Qed.

Lemma values_of_nexts {A E : Type} (vs : list A) :
  @Rx.values A E (List.map Rx.Next vs) = vs.
Proof.
  unfold Rx.values.
  induction vs as [| v vs IH]; cbn; [reflexivity | rewrite IH; reflexivity].
Qed.

Section StreamClaims.

Import AgentStreamService.

(** C4: every segment of a delivered text, between blank lines, that
    begins with [data: ] is parsed with the prefix stripped and emitted; a
    segment whose text is malformed is logged on the console and dropped,
    the subject stays open, and every well-formed event of the same or of
    a later delivery is emitted. *)
Theorem data_segments_parsed_malformed_dropped
  (JSON_parse : jstring -> parsed) (events : list HttpEvent) :
  Forall (fun ev => is_response ev = false) events ->
  Rx.closed (subject (streamAnswer JSON_parse events SourcePending)) = false
  /\ Rx.delivered (subject (streamAnswer JSON_parse events SourcePending))
     = List.map Rx.Next
         (flat_map (segment_events JSON_parse) (flat_map progress_segments events))
  /\ console (streamAnswer JSON_parse events SourcePending)
     = flat_map (segment_errors JSON_parse) (flat_map progress_segments events)
  /\ (forall doc v,
        In (JsStr.lit "data: " ++ doc) (flat_map progress_segments events) ->
        JSON_parse doc = Parsed v ->
        In (Rx.Next v)
           (Rx.delivered (subject (streamAnswer JSON_parse events SourcePending))))
  /\ (forall doc e,
        In (JsStr.lit "data: " ++ doc) (flat_map progress_segments events) ->
        JSON_parse doc = SyntaxError e ->
        In (JsStr.lit "Error parsing SSE event:", e)
           (console (streamAnswer JSON_parse events SourcePending))).
Proof.
  intros Hall. unfold streamAnswer.
  rewrite (fold_onNext_open JSON_parse events initial eq_refl Hall).
  cbn [subject console Rx.closed Rx.delivered initial Rx.new_subject app].
  repeat split.
  - intros doc v Hin Hdoc. apply in_map. apply in_flat_map.
    exists (JsStr.lit "data: " ++ doc). split; [exact Hin |].
    unfold segment_events.
    change (JsStr.startsWith (JsStr.lit "data: ") (JsStr.lit "data: " ++ doc))
      with (JsStr.startsWith [] doc).
    change (JsStr.substring 6 (JsStr.lit "data: " ++ doc)) with doc.
    rewrite Hdoc. destruct doc; left; reflexivity.
  - intros doc e Hin Hdoc. apply in_flat_map.
    exists (JsStr.lit "data: " ++ doc). split; [exact Hin |].
    unfold segment_errors.
    change (JsStr.startsWith (JsStr.lit "data: ") (JsStr.lit "data: " ++ doc))
      with (JsStr.startsWith [] doc).
    change (JsStr.substring 6 (JsStr.lit "data: " ++ doc)) with doc.
    rewrite Hdoc. destruct doc; left; reflexivity.
Qed.

(** C5: when the request fails, with only progress events before, the
    subscriber receives the failure once, as the last notification on the
    error channel, and the values on the next channel are the ones parsed
    from the text of the server: the error callback adds none. *)
Theorem transport_failure_signalled_once
  (JSON_parse : jstring -> parsed) (events : list HttpEvent)
  (e : HttpErrorResponse) :
  Forall (fun ev => is_response ev = false) events ->
  Rx.delivered (subject (streamAnswer JSON_parse events (SourceError e)))
  = Rx.delivered (subject (streamAnswer JSON_parse events SourcePending))
    ++ [Rx.Error e]
  /\ failures (streamAnswer JSON_parse events (SourceError e)) = 1%nat
  /\ completions (streamAnswer JSON_parse events (SourceError e)) = 0%nat
  /\ Rx.values (Rx.delivered (subject (streamAnswer JSON_parse events (SourceError e))))
     = flat_map (segment_events JSON_parse) (flat_map progress_segments events).
Proof.
  intros Hall. unfold streamAnswer, failures, completions.
  rewrite (fold_onNext_open JSON_parse events initial eq_refl Hall).
  cbn [subject console Rx.closed Rx.delivered initial Rx.new_subject app
       onError Rx.error].
  generalize (flat_map (segment_events JSON_parse)
                (flat_map progress_segments events)).
  intros vs. unfold Rx.values.
  rewrite !filter_app, !length_app, flat_map_app.
  fold (@Rx.values StreamEvent HttpErrorResponse (List.map Rx.Next vs)).
  rewrite errors_of_nexts, completions_of_nexts, values_of_nexts. cbn.
  rewrite app_nil_r. repeat split; reflexivity.
Qed.

(** C6: when the response arrives and the request then completes, the
    subscribers receive one completion and no error: the subject is
    already closed when the complete callback runs, which changes
    nothing. *)
Theorem completion_signalled_once
  (JSON_parse : jstring -> parsed) (events : list HttpEvent)
  (body : option jstring) :
  completions (streamAnswer JSON_parse (events ++ [Response body]) SourceComplete)
  = 1%nat
  /\ failures (streamAnswer JSON_parse (events ++ [Response body]) SourceComplete)
     = 0%nat
  /\ streamAnswer JSON_parse (events ++ [Response body]) SourceComplete
     = streamAnswer JSON_parse (events ++ [Response body]) SourcePending.
Proof.
  unfold streamAnswer. rewrite fold_left_app. cbn [fold_left onNext].
  pose proof (completes_once_fold JSON_parse events initial completes_once_initial)
    as Hinv.
  set (w := fold_left (onNext JSON_parse) events initial) in *.
  destruct (completes_once_complete w Hinv) as [[Hf Hc] Hclosed].
  cbn [subject] in Hc.
  unfold onComplete. cbn [subject console].
  assert (Hidem : Rx.complete (Rx.complete (subject w)) = Rx.complete (subject w)).
  { unfold Rx.complete at 1. unfold StreamEvent in *. rewrite Hclosed. reflexivity. }
  rewrite Hidem. unfold StreamEvent in *. rewrite Hclosed in Hc.
  repeat split; assumption.
Qed.

End StreamClaims.

Section SplitDelivery.

Import AgentStreamService.

Lemma newline_free_app (a b : jstring) :
  JsStr.newline_free a -> JsStr.newline_free b -> JsStr.newline_free (a ++ b).
Proof.
  unfold JsStr.newline_free. intros Ha Hb Hin.
  apply in_app_or in Hin. tauto.
Qed.

Lemma newline_free_prefix (a b : jstring) :
  JsStr.newline_free (a ++ b) -> JsStr.newline_free a.
Proof.
  unfold JsStr.newline_free. intros H Hin. apply H. apply in_or_app. tauto.
Qed.

Lemma newline_free_data_prefix : JsStr.newline_free (JsStr.lit "data: ").
Proof.
  unfold JsStr.newline_free. cbn. intros H.
  repeat (destruct H as [H | H]; [discriminate H |]). exact H.
Qed.

Lemma segment_events_data (JSON_parse : jstring -> parsed) (doc : jstring) (v : Js.value) :
  JSON_parse doc = Parsed v ->
  segment_events JSON_parse (JsStr.lit "data: " ++ doc) = [v].
Proof.
  intros H. unfold segment_events.
  change (JsStr.startsWith (JsStr.lit "data: ") (JsStr.lit "data: " ++ doc))
    with (JsStr.startsWith [] doc).
  change (JsStr.substring 6 (JsStr.lit "data: " ++ doc)) with doc.
  rewrite H. destruct doc; reflexivity.
Qed.

(** Whatever the parser and the two documents, when the body
    [data: d1], blank line, [data: d2], blank line arrives in two parts
    with the cut inside the second frame and each callback is given the
    text received so far, the first event is emitted by both callbacks. *)
Lemma cumulative_split_reemits
  (JSON_parse : jstring -> parsed) (d1 d2 before after : jstring)
  (e1 e2 : Js.value) :
  JsStr.newline_free d1 ->
  JsStr.newline_free d2 ->
  before ++ after = JsStr.lit "data: " ++ d2 ->
  JSON_parse d1 = Parsed e1 ->
  JSON_parse d2 = Parsed e2 ->
  Rx.values
    (Rx.delivered
       (subject
          (streamAnswer JSON_parse
             (cumulative [ (JsStr.lit "data: " ++ d1) ++ blank_line ++ before;
                           after ++ blank_line ])
             SourcePending)))
  = e1 :: segment_events JSON_parse before ++ [e1; e2].
Proof.
  intros H1 H2 Hcut Hp1 Hp2.
  assert (Hall : Forall (fun ev => is_response ev = false)
                   (cumulative [ (JsStr.lit "data: " ++ d1) ++ blank_line ++ before;
                                 after ++ blank_line ])).
  { repeat constructor. }
  unfold streamAnswer.
  rewrite (fold_onNext_open JSON_parse _ initial eq_refl Hall).
  cbn [subject Rx.delivered initial Rx.new_subject app].
  rewrite values_of_nexts. clear Hall.
  assert (Hf1 : JsStr.newline_free (JsStr.lit "data: " ++ d1))
    by (apply newline_free_app; [apply newline_free_data_prefix | exact H1]).
  assert (Hf2 : JsStr.newline_free (JsStr.lit "data: " ++ d2))
    by (apply newline_free_app; [apply newline_free_data_prefix | exact H2]).
  assert (Hb : JsStr.newline_free before)
    by (apply (newline_free_prefix before after); rewrite Hcut; exact Hf2).
  unfold cumulative. cbn [cumulative_from flat_map progress_segments
                          partialText_or_empty app].
  rewrite (split_frame _ _ Hf1), (split_newline_free _ Hb).
  replace (((JsStr.lit "data: " ++ d1) ++ blank_line ++ before)
           ++ after ++ blank_line)
    with ((JsStr.lit "data: " ++ d1) ++ blank_line
          ++ ((JsStr.lit "data: " ++ d2) ++ blank_line ++ [])).
  2:{ rewrite <- Hcut, app_nil_r, <- !app_assoc. reflexivity. }
  rewrite (split_frame _ _ Hf1), (split_frame _ _ Hf2).
  cbn [JsStr.split JsStr.split_from app flat_map].
  rewrite !(segment_events_data _ _ _ Hp1), (segment_events_data _ _ _ Hp2).
  rewrite app_nil_r. cbn [app].
  replace (segment_events JSON_parse []) with (@nil StreamEvent) by reflexivity.
  reflexivity.
Qed.

(** C1, on the delivery of the specification: the body made of a [start]
    frame and a [complete] frame arrives as [part1] then [part2], the cut
    after the first two characters of the second frame.  Given the text
    received so far at each callback, [streamAnswer] emits the [start]
    event twice, three events in all; given only the text of each part it
    emits the [start] event alone.  The consumer printed in
    START_HERE.md, which keeps the unterminated tail in a buffer, emits
    the two events once each. *)
Theorem split_frame_delivery_not_buffered :
  Rx.delivered
    (subject
       (streamAnswer JsonText.parse
          (cumulative [Samples.part1; Samples.part2]
           ++ [Response (Some (Samples.part1 ++ Samples.part2))])
          SourceComplete))
  = [ Rx.Next Samples.start_event; Rx.Next Samples.start_event;
      Rx.Next Samples.complete_event; Rx.Complete ]
  /\ Rx.delivered
       (subject
          (streamAnswer JsonText.parse
             (delta [Samples.part1; Samples.part2]
              ++ [Response (Some (Samples.part1 ++ Samples.part2))])
             SourceComplete))
     = [ Rx.Next Samples.start_event; Rx.Complete ]
  /\ Rx.delivered
       (subject
          (StartHere.streamAnswer JsonText.parse
             (delta [Samples.part1; Samples.part2]
              ++ [Response (Some (Samples.part1 ++ Samples.part2))])
             SourceComplete))
     = [ Rx.Next Samples.start_event; Rx.Next Samples.complete_event;
         Rx.Complete ].
Proof. repeat split; vm_compute; reflexivity. Qed.

Lemma data_segments_parsed_malformed_dropped_witness :
  Forall (fun ev => is_response ev = false) Samples.malformed_delivery
  /\ Rx.delivered (subject (streamAnswer JsonText.parse Samples.malformed_delivery SourcePending))
     = [ Rx.Next Samples.start_event; Rx.Next Samples.complete_event ]
  /\ List.length (console (streamAnswer JsonText.parse Samples.malformed_delivery SourcePending))
     = 1%nat.
Proof.
  assert (H : Forall (fun ev => is_response ev = false) Samples.malformed_delivery)
    by (repeat constructor).
  split; [exact H |].
  destruct (data_segments_parsed_malformed_dropped JsonText.parse Samples.malformed_delivery H)
    as (_ & Hd & Hc & _).
  rewrite Hd, Hc. split; vm_compute; reflexivity.
Defined.

Lemma transport_failure_signalled_once_witness :
  Forall (fun ev => is_response ev = false)
         (cumulative [Samples.part1])
  /\ Rx.delivered
       (subject (streamAnswer JsonText.parse (cumulative [Samples.part1])
                   (SourceError Samples.network_error)))
     = [ Rx.Next Samples.start_event; Rx.Error Samples.network_error ].
Proof.
  assert (H : Forall (fun ev => is_response ev = false) (cumulative [Samples.part1]))
    by (repeat constructor).
  split; [exact H |].
  destruct (transport_failure_signalled_once JsonText.parse
              (cumulative [Samples.part1]) Samples.network_error H) as (Hd & _).
  rewrite Hd. vm_compute. reflexivity.
Defined.

End SplitDelivery.

(** ** The two consumers of the [error] event *)

(** C7: on an [error] event whose payload is exactly [{message: m}], the
    interview room appends the system message [Error: m] and the search
    component stores [m] in [streamingState.error]: reading [data.error]
    first gives [undefined], which is falsy, so [data.message] is taken. *)
Theorem error_text_same_at_both_call_sites
  (Number_toString : float -> jstring) (toUpperCase : jstring -> jstring)
  (now : Z) (event : Js.value) (m : jstring)
  (room : InterviewRoomComponent.state)
  (search : SearchComponent.StreamingState) :
  Js.get event (JsStr.lit "event_type") = Js.Return (Js.Str (JsStr.lit "error")) ->
  Js.get event (JsStr.lit "data")
  = Js.Return (Js.Object [(JsStr.lit "message", Js.Str m)]) ->
  InterviewRoomComponent.handleStreamEvent Number_toString toUpperCase now event room
  = (Js.Return tt,
     InterviewRoomComponent.set_isStreaming false
       (InterviewRoomComponent.addSystemMessage now (JsStr.lit "Error: " ++ m) room))
  /\ SearchComponent.handleStreamEvent Number_toString event search
     = (Js.Return tt,
        SearchComponent.set_isStreaming false
          (SearchComponent.set_error (Js.Str m) search)).
Proof.
  intros Hty Hdata. split.
  - unfold InterviewRoomComponent.handleStreamEvent, Eff.bind, Eff.eval.
    rewrite Hty, Hdata. reflexivity.
  - unfold SearchComponent.handleStreamEvent, Eff.bind, Eff.eval.
    rewrite Hty. cbn [Js.is_string]. cbv beta iota.
    change (JsStr.eqb (JsStr.lit "error") (JsStr.lit "start")) with false.
    change (JsStr.eqb (JsStr.lit "error") (JsStr.lit "routing")) with false.
    change (JsStr.eqb (JsStr.lit "error") (JsStr.lit "processing")) with false.
    change (JsStr.eqb (JsStr.lit "error") (JsStr.lit "content")) with false.
    change (JsStr.eqb (JsStr.lit "error") (JsStr.lit "answer_complete")) with false.
    change (JsStr.eqb (JsStr.lit "error") (JsStr.lit "follow_ups")) with false.
    change (JsStr.eqb (JsStr.lit "error") (JsStr.lit "complete")) with false.
    change (JsStr.eqb (JsStr.lit "error") (JsStr.lit "error")) with true.
    cbv beta iota. rewrite Hdata. reflexivity.
Qed.

Lemma error_text_same_at_both_call_sites_witness :
  Js.get Samples.error_event (JsStr.lit "event_type")
  = Js.Return (Js.Str (JsStr.lit "error"))
  /\ InterviewRoomComponent.messages
       (snd (InterviewRoomComponent.handleStreamEvent
               (fun _ => []) (fun s => s) 0%Z Samples.error_event
               InterviewRoomComponent.initial))
     = [ InterviewRoomComponent.mkMessage InterviewRoomComponent.system
           (Js.Str (JsStr.lit "Error: LLM unavailable")) 0%Z None ]
  /\ SearchComponent.error
       (snd (SearchComponent.handleStreamEvent (fun _ => []) Samples.error_event
               SearchComponent.resetStreamingState))
     = Js.Str (JsStr.lit "LLM unavailable").
Proof.
  assert (Hty : Js.get Samples.error_event (JsStr.lit "event_type")
                = Js.Return (Js.Str (JsStr.lit "error"))) by reflexivity.
  assert (Hdata : Js.get Samples.error_event (JsStr.lit "data")
                  = Js.Return (Js.Object [(JsStr.lit "message",
                                           Js.Str (JsStr.lit "LLM unavailable"))]))
    by reflexivity.
  split; [exact Hty |].
  destruct (error_text_same_at_both_call_sites (fun _ => []) (fun s => s) 0%Z
              Samples.error_event (JsStr.lit "LLM unavailable")
              InterviewRoomComponent.initial SearchComponent.resetStreamingState
              Hty Hdata) as [Hroom Hsearch].
  rewrite Hroom, Hsearch. split; reflexivity.
Defined.

(** ** The pipe, the list and the interview room *)

(** C8: on [undefined], [null] and the empty string, [transform] returns
    the empty string, not wrapped, and calls [replace] not once, whatever
    the regular expression engine does. *)
Theorem transform_empty_input
  (replace : SanitizeHtmlPipe.RegExp -> jstring -> jstring -> jstring) :
  SanitizeHtmlPipe.transform replace SanitizeHtmlPipe.InUndefined
  = (SanitizeHtmlPipe.PlainString [], [])
  /\ SanitizeHtmlPipe.transform replace SanitizeHtmlPipe.InNull
     = (SanitizeHtmlPipe.PlainString [], [])
  /\ SanitizeHtmlPipe.transform replace (SanitizeHtmlPipe.InString [])
     = (SanitizeHtmlPipe.PlainString [], []).
Proof. repeat split. Qed.

(** Every other input goes through the whole conversion: the twenty-one
    replacements, and the wrapper. *)
Lemma transform_nonempty_input
  (replace : SanitizeHtmlPipe.RegExp -> jstring -> jstring -> jstring)
  (c : N) (s : jstring) :
  List.length (snd (SanitizeHtmlPipe.transform replace
                      (SanitizeHtmlPipe.InString (c :: s)))) = 21%nat
  /\ exists html,
       fst (SanitizeHtmlPipe.transform replace (SanitizeHtmlPipe.InString (c :: s)))
       = SanitizeHtmlPipe.SafeHtml html.
Proof.
  split.
  - vm_compute. reflexivity.
  - eexists. reflexivity.
Qed.

Lemma filter_length_bound {A : Type} (p : A -> bool) (l : list A) :
  (List.length (filter p l) <= List.length l)%nat.
Proof.
  induction l as [| x l IH]; cbn; [lia |].
  destruct (p x); cbn; lia.
Qed.

(** *** Rounding to binary64

    The quotient of two lengths and its product by 100 are rounded to
    binary64.  Rounding never goes past a number the format holds: the
    facts below follow the rounding of [SpecFloat], to which the axioms
    of the primitive floats reduce the operations. *)

Section Binary64Facts.

Import Binary64.
Local Open Scope Z_scope.

Lemma digits2_pos_size (p : positive) : digits2_pos p = Pos.size p.
Proof. induction p as [p IH | p IH |]; cbn; [rewrite IH | rewrite IH |]; reflexivity. Qed.

Lemma Zdigits2_log2 (p : positive) : Zdigits2 (Zpos p) = Z.log2 (Zpos p) + 1.
Proof.
  cbn [Zdigits2]. rewrite digits2_pos_size.
  destruct p as [p | p |]; cbn [Pos.size Z.log2]; lia.
Qed.

Lemma Zdigits2_bound (m k : Z) (mB : positive) :
  0 <= m -> 0 <= k -> m <= Zpos mB * 2 ^ k ->
  Zdigits2 m <= Zdigits2 (Zpos mB) + k.
Proof.
  intros Hm Hk Hle. destruct m as [| p | p]; [| | lia].
  - rewrite Zdigits2_log2. cbn [Zdigits2]. pose proof (Z.log2_nonneg (Zpos mB)). lia.
  - rewrite !Zdigits2_log2.
    pose proof (Z.log2_le_mono _ _ Hle) as H.
    rewrite Z.log2_mul_pow2 in H by lia. lia.
Qed.

Lemma shifted_refl (a : shr_record) : 0 <= shr_m a -> shifted 0 a a.
Proof.
  intros H. unfold shifted. rewrite Z.pow_0_r, Z.mul_1_r.
  repeat split; [exact H | lia | auto].
Qed.

Lemma shifted_trans (j k : Z) (a b c : shr_record) :
  0 <= j -> 0 <= k -> shifted j a b -> shifted k b c -> shifted (j + k) a c.
Proof.
  intros Hj Hk (Hb & Hab & Hiab) (Hc & Hbc & Hibc). unfold shifted.
  rewrite Z.pow_add_r by assumption.
  assert (Hpj : 0 < 2 ^ j) by (apply Z.pow_pos_nonneg; lia).
  assert (Hpk : 0 < 2 ^ k) by (apply Z.pow_pos_nonneg; lia).
  assert (Hle : shr_m c * (2 ^ j * 2 ^ k) <= shr_m b * 2 ^ j) by nia.
  repeat split; [exact Hc | lia |].
  intros Hi. destruct (Hibc Hi) as [Hib | Hlt].
  - destruct (Hiab Hib) as [Hia | Hlt]; [left; exact Hia | right; lia].
  - right. assert (shr_m c * (2 ^ j * 2 ^ k) < shr_m b * 2 ^ j) by nia. lia.
Qed.

Lemma shr_1_shifted (a : shr_record) : 0 <= shr_m a -> shifted 1 a (shr_1 a).
Proof.
  destruct a as [m r s]. cbn [shr_m]. intros Hm. unfold shifted, inexact.
  destruct m as [| [p | p |] | p]; cbn [shr_1 shr_m shr_r shr_s]; try lia;
    (repeat split; [lia | lia |]);
    destruct r, s; cbn; intros H; try discriminate H; auto; right; lia.
Qed.

Lemma iter_shr_1_shifted (p : positive) (a : shr_record) :
  0 <= shr_m a -> shifted (Zpos p) a (iter_pos shr_1 p a).
Proof.
  revert a. induction p as [p IH | p IH |]; intros a Ha; cbn [iter_pos].
  - pose proof (shr_1_shifted a Ha) as H1.
    assert (Hb : 0 <= shr_m (shr_1 a)) by apply H1.
    pose proof (IH _ Hb) as H2.
    assert (Hc : 0 <= shr_m (iter_pos shr_1 p (shr_1 a))) by apply H2.
    pose proof (IH _ Hc) as H3.
    replace (Zpos p~1) with (1 + Zpos p + Zpos p) by lia.
    apply shifted_trans with (b := iter_pos shr_1 p (shr_1 a)); try lia; [| exact H3].
    apply shifted_trans with (b := shr_1 a); try lia; assumption.
  - pose proof (IH _ Ha) as H2.
    assert (Hc : 0 <= shr_m (iter_pos shr_1 p a)) by apply H2.
    pose proof (IH _ Hc) as H3.
    replace (Zpos p~0) with (Zpos p + Zpos p) by lia.
    apply shifted_trans with (b := iter_pos shr_1 p a); try lia; assumption.
  - apply shr_1_shifted. exact Ha.
Qed.

Lemma shr_shifted (a : shr_record) (e n : Z) :
  0 <= shr_m a ->
  snd (shr a e n) = e + Z.max n 0
  /\ shifted (Z.max n 0) a (fst (shr a e n)).
Proof.
  intros Ha. destruct n as [| p | p]; cbn [shr fst snd].
  - split; [lia | apply shifted_refl; exact Ha].
  - split; [lia |]. replace (Z.max (Zpos p) 0) with (Zpos p) by lia.
    apply iter_shr_1_shifted. exact Ha.
  - split; [lia |]. replace (Z.max (Zneg p) 0) with 0 by lia.
    apply shifted_refl; exact Ha.
Qed.

Lemma round_nearest_even_bound (a : shr_record) :
  shr_m a <= round_nearest_even (shr_m a) (loc_of_shr_record a) <= shr_m a + 1
  /\ (inexact a = false ->
      round_nearest_even (shr_m a) (loc_of_shr_record a) = shr_m a).
Proof.
  destruct a as [m r s]. unfold inexact. cbn [shr_m shr_r shr_s].
  destruct r, s; cbn [loc_of_shr_record round_nearest_even orb];
    try destruct (Z.even m); split; try lia; try discriminate; auto.
Qed.

Lemma inexact_of_loc (m : Z) (l : location) :
  shr_m (shr_record_of_loc m l) = m
  /\ (inexact (shr_record_of_loc m l) = true -> l <> loc_Exact).
Proof.
  destruct l as [| []]; cbn; split; try reflexivity; intros H; discriminate.
Qed.

Lemma fexp_le (d eB : Z) (mB : positive) :
  fexp prec emax (Zdigits2 (Zpos mB) + eB) <= eB ->
  d <= Zdigits2 (Zpos mB) + eB ->
  fexp prec emax d <= eB.
Proof. unfold fexp, SpecFloat.emin. lia. Qed.

Lemma pow2_split (a b : Z) : 0 <= a -> 0 <= b -> 2 ^ (a + b) = 2 ^ a * 2 ^ b.
Proof. intros. apply Z.pow_add_r; assumption. Qed.

Lemma binary_round_aux_at_most (mB : positive) (eB mx ex : Z) (lx : location) :
  fexp prec emax (Zdigits2 (Zpos mB) + eB) <= eB ->
  eB <= emax - prec ->
  0 <= mx -> ex <= eB ->
  mx <= Zpos mB * 2 ^ (eB - ex) ->
  (lx <> loc_Exact -> mx < Zpos mB * 2 ^ (eB - ex)) ->
  at_most mB eB (binary_round_aux prec emax false mx ex lx).
Proof.
  intros HB Hmax Hmx Hex Hle Hlt.
  unfold binary_round_aux, shr_fexp.
  destruct (inexact_of_loc mx lx) as [Hm0 Hi0].
  assert (Ha0 : 0 <= shr_m (shr_record_of_loc mx lx)) by (rewrite Hm0; exact Hmx).
  destruct (shr_shifted (shr_record_of_loc mx lx) ex
              (fexp prec emax (Zdigits2 mx + ex) - ex) Ha0) as [He1 Hs1].
  destruct (shr (shr_record_of_loc mx lx) ex
              (fexp prec emax (Zdigits2 mx + ex) - ex)) as [rec1 e1].
  cbn [fst snd] in He1, Hs1.
  assert (Hd1 : fexp prec emax (Zdigits2 mx + ex) <= eB).
  { apply (fexp_le _ _ mB HB).
    pose proof (Zdigits2_bound mx (eB - ex) mB Hmx ltac:(lia) Hle). lia. }
  assert (He1B : e1 <= eB) by lia.
  assert (Hk1 : 0 <= e1 - ex) by lia.
  destruct Hs1 as (Hm1 & Hle1 & Hin1). rewrite Hm0 in Hle1, Hin1.
  replace (Z.max (fexp prec emax (Zdigits2 mx + ex) - ex) 0) with (e1 - ex)
    in Hle1, Hin1 by lia.
  destruct (round_nearest_even_bound rec1) as [Hr Hrex].
  set (m2 := round_nearest_even (shr_m rec1) (loc_of_shr_record rec1)) in *.
  assert (Hp1 : 0 < 2 ^ (e1 - ex)) by (apply Z.pow_pos_nonneg; lia).
  assert (Hsplit : 2 ^ (eB - ex) = 2 ^ (eB - e1) * 2 ^ (e1 - ex)).
  { rewrite <- pow2_split by lia. f_equal. lia. }
  assert (Hm2 : m2 <= Zpos mB * 2 ^ (eB - e1)).
  { rewrite Hsplit in Hle, Hlt.
    destruct (inexact rec1) eqn:Ei.
    - assert (shr_m rec1 * 2 ^ (e1 - ex) < Zpos mB * (2 ^ (eB - e1) * 2 ^ (e1 - ex))).
      { destruct (Hin1 eq_refl) as [Hi | Hi]; [| lia].
        specialize (Hlt (Hi0 Hi)). lia. }
      assert (shr_m rec1 < Zpos mB * 2 ^ (eB - e1)) by nia. lia.
    - rewrite (Hrex eq_refl).
      assert (shr_m rec1 * 2 ^ (e1 - ex) <= Zpos mB * 2 ^ (eB - e1) * 2 ^ (e1 - ex)) by lia.
      nia. }
  assert (Hm2n : 0 <= m2) by lia.
  destruct (inexact_of_loc m2 loc_Exact) as [Hm20 _].
  assert (Ha2 : 0 <= shr_m (shr_record_of_loc m2 loc_Exact)) by (rewrite Hm20; exact Hm2n).
  destruct (shr_shifted (shr_record_of_loc m2 loc_Exact) e1
              (fexp prec emax (Zdigits2 m2 + e1) - e1) Ha2) as [He2 Hs2].
  destruct (shr (shr_record_of_loc m2 loc_Exact) e1
              (fexp prec emax (Zdigits2 m2 + e1) - e1)) as [rec2 e2].
  cbn [fst snd] in He2, Hs2.
  assert (Hd2 : fexp prec emax (Zdigits2 m2 + e1) <= eB).
  { apply (fexp_le _ _ mB HB).
    pose proof (Zdigits2_bound m2 (eB - e1) mB Hm2n ltac:(lia) Hm2). lia. }
  assert (He2B : e2 <= eB) by lia.
  destruct Hs2 as (Hmf & Hlef & _). rewrite Hm20 in Hlef.
  replace (Z.max (fexp prec emax (Zdigits2 m2 + e1) - e1) 0) with (e2 - e1)
    in Hlef by lia.
  destruct (shr_m rec2) as [| mf | mf]; [exact I | | lia].
  assert (Hover : Z.leb e2 (emax - prec) = true) by (apply Z.leb_le; lia).
  rewrite Hover. cbn [at_most]. split; [exact He2B |].
  assert (Hp2 : 0 < 2 ^ (e2 - e1)) by (apply Z.pow_pos_nonneg; lia).
  assert (Hsplit2 : 2 ^ (eB - e1) = 2 ^ (eB - e2) * 2 ^ (e2 - e1)).
  { rewrite <- pow2_split by lia. f_equal. lia. }
  rewrite Hsplit2 in Hm2.
  assert (Zpos mf * 2 ^ (e2 - e1) <= Zpos mB * 2 ^ (eB - e2) * 2 ^ (e2 - e1)) by lia.
  nia.
Qed.

Lemma at_most_leb (mB : positive) (eB : Z) (x : spec_float) :
  at_most mB eB x ->
  SFleb (S754_zero false) x = true /\ SFleb x (S754_finite false mB eB) = true.
Proof.
  destruct x as [s | s | | [] m e]; cbn [at_most]; try contradiction.
  - intros _. split; reflexivity.
  - intros [He Hm]. split; [reflexivity |].
    unfold SFleb, SFcompare.
    destruct (Z.compare_spec e eB) as [Heq | Hlt | Hgt]; [| reflexivity | lia].
    subst e. rewrite Z.sub_diag, Z.pow_0_r, Z.mul_1_r in Hm.
    change (Pos.compare_cont Eq m mB) with (Pos.compare m mB).
    destruct (Pos.compare_spec m mB); try reflexivity. lia.
Qed.

Lemma iter_xO_value (p d : positive) :
  Zpos (Pos.iter xO p d) = Zpos p * 2 ^ Zpos d
  /\ Zpos (digits2_pos (Pos.iter xO p d)) = Zpos (digits2_pos p) + Zpos d.
Proof.
  induction d as [| d IH] using Pos.peano_ind.
  - cbn [Pos.iter digits2_pos]. split; lia.
  - rewrite Pos.iter_succ. cbn [digits2_pos]. destruct IH as [IHv IHd].
    rewrite Pos2Z.inj_succ, Z.pow_succ_r by lia. split; lia.
Qed.

(** The Number of a positive integer below 2^32: the integer itself, with
    a mantissa of 53 bits. *)
Lemma binary_normalize_small (n : Z) :
  0 < n < 2 ^ 32 ->
  exists m e,
    binary_normalize prec emax n 0 false = S754_finite false m e
    /\ e = Zdigits2 n - 53
    /\ -52 <= e < 0
    /\ Zpos m = n * 2 ^ (- e)
    /\ Zdigits2 (Zpos m) = 53.
Proof.
  intros [Hpos Hlt]. destruct n as [| p | p]; try lia.
  assert (Hd : 1 <= Zdigits2 (Zpos p) <= 32).
  { rewrite Zdigits2_log2. pose proof (Z.log2_nonneg (Zpos p)).
    assert (Z.log2 (Zpos p) < 32) by (apply Z.log2_lt_pow2; lia). lia. }
  cbn [binary_normalize]. unfold binary_round.
  cbn [Zdigits2] in Hd.
  assert (Hf : fexp prec emax (Zpos (digits2_pos p) + 0) = Zpos (digits2_pos p) - 53).
  { unfold fexp, SpecFloat.emin, prec, emax. lia. }
  rewrite Hf. unfold shl_align.
  destruct (Zpos (digits2_pos p) - 53 - 0) as [| d | d] eqn:Ed; try lia.
  destruct (iter_xO_value p d) as [Hv Hdig].
  exists (Pos.iter xO p d), (Zpos (digits2_pos p) - 53).
  repeat split; try lia.
  - unfold binary_round_aux, shr_fexp. cbn [Zdigits2]. rewrite Hdig.
    replace (fexp prec emax (Zpos (digits2_pos p) + Zpos d + (Zpos (digits2_pos p) - 53))
             - (Zpos (digits2_pos p) - 53)) with 0
      by (unfold fexp, SpecFloat.emin, prec, emax; lia).
    cbn [shr shr_record_of_loc shr_m loc_of_shr_record round_nearest_even Zdigits2].
    rewrite Hdig.
    replace (fexp prec emax (Zpos (digits2_pos p) + Zpos d + (Zpos (digits2_pos p) - 53))
             - (Zpos (digits2_pos p) - 53)) with 0
      by (unfold fexp, SpecFloat.emin, prec, emax; lia).
    cbn [shr shr_m].
    replace (Z.leb (Zpos (digits2_pos p) - 53) (emax - prec)) with true
      by (symmetry; apply Z.leb_le; unfold prec, emax; lia).
    reflexivity.
  - rewrite Hv. f_equal. f_equal. lia.
  - cbn [Zdigits2]. lia.
Qed.

Lemma new_location_exact (nb r : Z) :
  new_location nb r <> loc_Exact -> r <> 0.
Proof.
  unfold new_location, new_location_even, new_location_odd.
  intros H ->. cbn in H. destruct (Z.even nb); apply H; reflexivity.
Qed.

(** The quotient of two such Numbers, the first at most the second, is at
    most 1. *)
Lemma SFdiv_at_most_one (s c : Z) (ms mc : positive) (es ec : Z) :
  0 < s <= c ->
  -52 <= es <= ec -> ec < 0 ->
  Zpos ms = s * 2 ^ (- es) -> Zpos mc = c * 2 ^ (- ec) ->
  Zdigits2 (Zpos ms) = 53 -> Zdigits2 (Zpos mc) = 53 ->
  at_most 4503599627370496 (-52)
    (SFdiv prec emax (S754_finite false ms es) (S754_finite false mc ec)).
Proof.
  intros Hsc Hes Hec Hms Hmc Hds Hdc.
  cbn [SFdiv xorb]. unfold SFdiv_core_binary. rewrite Hds, Hdc.
  replace (Z.min (fexp prec emax (53 + es - (53 + ec))) (es - ec))
    with (es - ec - 53) by (unfold fexp, SpecFloat.emin, prec, emax; lia).
  replace (es - ec - (es - ec - 53)) with 53 by lia.
  rewrite Z.shiftl_mul_pow2 by lia.
  pose proof (Z.div_eucl_eq (Zpos ms * 2 ^ 53) (Zpos mc) ltac:(lia)) as Heq.
  pose proof (Z.mod_pos_bound (Zpos ms * 2 ^ 53) (Zpos mc) ltac:(lia)) as Hmod.
  unfold Z.modulo in Hmod.
  destruct (Z.div_eucl (Zpos ms * 2 ^ 53) (Zpos mc)) as [q r].
  assert (Hq : 0 <= q) by nia.
  set (u := - es) in *. set (v := - ec) in *.
  assert (Hpv : 0 < 2 ^ v) by (apply Z.pow_pos_nonneg; lia).
  assert (Hpu : 0 < 2 ^ (u - v)) by (apply Z.pow_pos_nonneg; lia).
  assert (Hu : 2 ^ u = 2 ^ (u - v) * 2 ^ v).
  { rewrite <- pow2_split by lia. f_equal. lia. }
  assert (Ht : Zpos 4503599627370496 * 2 ^ (-52 - (es - ec - 53))
               = 2 ^ (u - v) * 2 ^ 53).
  { replace (-52 - (es - ec - 53)) with ((u - v) + 1) by lia.
    rewrite pow2_split by lia. change (Zpos 4503599627370496) with (2 ^ 52).
    change (2 ^ 53) with (2 ^ 52 * 2 ^ 1). ring. }
  assert (Hbound : q * (c * 2 ^ v) <= c * 2 ^ v * (2 ^ (u - v) * 2 ^ 53)).
  { rewrite <- Hmc. rewrite Hms, Hu in Heq.
    assert (s * (2 ^ (u - v) * 2 ^ v) * 2 ^ 53 <= c * (2 ^ (u - v) * 2 ^ v) * 2 ^ 53).
    { apply Z.mul_le_mono_nonneg_r; [lia |].
      apply Z.mul_le_mono_nonneg_r; [nia | lia]. }
    nia. }
  assert (Hcv : 0 < c * 2 ^ v) by nia.
  apply binary_round_aux_at_most.
  - unfold fexp, SpecFloat.emin, prec, emax. cbn. lia.
  - unfold prec, emax. lia.
  - exact Hq.
  - lia.
  - rewrite Ht. nia.
  - intros Hl. apply new_location_exact in Hl. rewrite Ht.
    assert (q * (c * 2 ^ v) < c * 2 ^ v * (2 ^ (u - v) * 2 ^ 53)).
    { rewrite <- Hmc. rewrite Hms, Hu in Heq.
      assert (s * (2 ^ (u - v) * 2 ^ v) * 2 ^ 53 <= c * (2 ^ (u - v) * 2 ^ v) * 2 ^ 53).
      { apply Z.mul_le_mono_nonneg_r; [lia |].
        apply Z.mul_le_mono_nonneg_r; [nia | lia]. }
      nia. }
    nia.
Qed.

(** A product with a Number at most 1 does not exceed the other factor. *)
Lemma SFmul_at_most (mB : positive) (eB : Z) (x : spec_float) :
  fexp prec emax (Zdigits2 (Zpos mB) + eB) <= eB ->
  eB <= emax - prec ->
  at_most 4503599627370496 (-52) x ->
  at_most mB eB (SFmul prec emax x (S754_finite false mB eB)).
Proof.
  intros HB Hmax.
  destruct x as [s | s | | [] m e]; cbn [at_most]; try contradiction.
  - intros _. exact I.
  - intros [He Hm]. cbn [SFmul xorb].
    assert (Hp : 2 ^ (eB - (e + eB)) = 2 ^ 52 * 2 ^ (-52 - e)).
    { rewrite <- pow2_split by lia. f_equal. lia. }
    change (Zpos 4503599627370496) with (2 ^ 52) in Hm.
    apply binary_round_aux_at_most; try assumption; try lia.
    + rewrite Hp, Pos2Z.inj_mul. nia.
    + intros H. contradiction H. reflexivity.
Qed.

Lemma Prim2SF_number (n : nat) :
  (Z.of_nat n < 2 ^ 32)%Z ->
  Prim2SF (PrimFloat.of_uint63 (Uint63.of_Z (Z.of_nat n))) = binary_normalize prec emax (Z.of_nat n) 0 false.
Proof.
  intros H. rewrite of_uint63_spec, Uint63.of_Z_spec.
  rewrite Z.mod_small; [reflexivity |].
  split; [lia |]. eapply Z.lt_trans; [exact H |]. reflexivity.
Qed.

Lemma number_positive (n : nat) :
  (0 < n)%nat -> (Z.of_nat n < 2 ^ 32)%Z ->
  (0 <? PrimFloat.of_uint63 (Uint63.of_Z (Z.of_nat n)))%float = true.
Proof.
  intros Hpos Hlt. rewrite ltb_spec, (Prim2SF_number n Hlt).
  destruct (binary_normalize_small (Z.of_nat n) ltac:(lia)) as (m & e & -> & _).
  reflexivity.
Qed.

Lemma rate_bounds (s c : nat) :
  (s <= c)%nat -> (0 < c)%nat -> (Z.of_nat c < 2 ^ 32)%Z ->
  (0 <=? PrimFloat.of_uint63 (Uint63.of_Z (Z.of_nat s)) / PrimFloat.of_uint63 (Uint63.of_Z (Z.of_nat c)) * 100)%float = true
  /\ (PrimFloat.of_uint63 (Uint63.of_Z (Z.of_nat s)) / PrimFloat.of_uint63 (Uint63.of_Z (Z.of_nat c)) * 100 <=? 100)%float = true.
Proof.
  intros Hsc Hc Hlt.
  rewrite !leb_spec, mul_spec, div_spec.
  rewrite (Prim2SF_number s) by lia. rewrite (Prim2SF_number c) by lia.
  change (Prim2SF 0) with (S754_zero false).
  change (Prim2SF 100) with (S754_finite false 7036874417766400 (-46)).
  apply at_most_leb. apply SFmul_at_most.
  - unfold fexp, SpecFloat.emin, prec, emax. cbn. lia.
  - unfold prec, emax. lia.
  - destruct (binary_normalize_small (Z.of_nat c) ltac:(lia))
      as (mc & ec & -> & Hec & Hecb & Hmc & Hdc).
    destruct s as [| s'].
    + cbn. exact I.
    + destruct (binary_normalize_small (Z.of_nat (S s')) ltac:(lia))
        as (ms & es & -> & Hes & Hesb & Hms & Hds).
      apply (SFdiv_at_most_one (Z.of_nat (S s')) (Z.of_nat c)); try assumption; try lia.
      split; [lia |]. subst es ec.
      assert (Zdigits2 (Z.of_nat (S s')) <= Zdigits2 (Z.of_nat c))%Z; [| lia].
      destruct (Z.of_nat c) as [| pc | pc] eqn:E; try lia.
      pose proof (Zdigits2_bound (Z.of_nat (S s')) 0 pc ltac:(lia) ltac:(lia)
                    ltac:(lia)). lia.
Qed.

End Binary64Facts.

(** C9: [getSuccessRate] never divides by zero and stays between 0 and
    100.  With no completed interview it returns 0 without dividing;
    otherwise the divisor is a positive number, and, the successful
    interviews being counted among the completed ones, the rounded
    quotient does not exceed 1 nor the rounded product 100.  The result is
    compared as binary64 numbers are, so it is not [NaN] either.  (An
    array holds fewer than 2^32 elements.) *)
Theorem getSuccessRate_bounded
  (interviews : list ListInterviewsComponent.Interview) :
  (Z.of_nat (List.length interviews) < 2 ^ 32)%Z ->
  (0 <=? ListInterviewsComponent.getSuccessRate interviews)%float = true
  /\ (ListInterviewsComponent.getSuccessRate interviews <=? 100)%float = true
  /\ (ListInterviewsComponent.getCompletedInterviews interviews = 0%nat ->
      ListInterviewsComponent.getSuccessRate interviews = 0%float)
  /\ (ListInterviewsComponent.getCompletedInterviews interviews <> 0%nat ->
      (0 <? ListInterviewsComponent.of_length
              (filter ListInterviewsComponent.is_completed interviews))%float
      = true
      /\ ListInterviewsComponent.getSuccessRate interviews
         = (ListInterviewsComponent.of_length
              (filter ListInterviewsComponent.is_successful
                 (filter ListInterviewsComponent.is_completed interviews))
            / ListInterviewsComponent.of_length
                (filter ListInterviewsComponent.is_completed interviews)
            * 100)%float)
  /\ (List.length
        (filter ListInterviewsComponent.is_successful
           (filter ListInterviewsComponent.is_completed interviews))
      <= ListInterviewsComponent.getCompletedInterviews interviews)%nat.
Proof.
  intros Hsize.
  unfold ListInterviewsComponent.getSuccessRate,
    ListInterviewsComponent.getCompletedInterviews,
    ListInterviewsComponent.of_length.
  set (completed := filter ListInterviewsComponent.is_completed interviews).
  set (successful := filter ListInterviewsComponent.is_successful completed).
  assert (Hsub : (List.length successful <= List.length completed)%nat)
    by apply filter_length_bound.
  assert (Hall : (List.length completed <= List.length interviews)%nat)
    by apply filter_length_bound.
  assert (Hc : (Z.of_nat (List.length completed) < 2 ^ 32)%Z) by lia.
  destruct (Nat.ltb_spec 0 (List.length completed)) as [Hpos | Hzero].
  - destruct (rate_bounds _ _ Hsub Hpos Hc) as [H0 H100].
    split; [exact H0 |]. split; [exact H100 |].
    split; [intros Hz; lia |].
    split; [| exact Hsub].
    intros _. split; [| reflexivity].
    apply number_positive; assumption.
  - split; [reflexivity |]. split; [reflexivity |].
    split; [reflexivity |].
    split; [| exact Hsub].
    intros Hne. lia.
Qed.

Lemma getSuccessRate_bounded_witness :
  (Z.of_nat (List.length ListInterviewsComponent.loadHardcodedData) < 2 ^ 32)%Z
  /\ (0 <=? ListInterviewsComponent.getSuccessRate
              ListInterviewsComponent.loadHardcodedData)%float = true
  /\ (ListInterviewsComponent.getSuccessRate
        ListInterviewsComponent.loadHardcodedData <=? 100)%float = true.
Proof.
  split; [reflexivity |].
  destruct (getSuccessRate_bounded ListInterviewsComponent.loadHardcodedData
              eq_refl) as (H0 & H100 & _).
  split; assumption.
Defined.

(** The rows of [loadHardcodedData]: four completed, three of them
    successful.  With one success in three the quotient is rounded before
    the product, which gives 33.33333333333333, the number below 100/3,
    where the exact rate would round to the one above. *)
Lemma getSuccessRate_hardcoded :
  ListInterviewsComponent.getSuccessRate ListInterviewsComponent.loadHardcodedData
  = 75%float
  /\ ListInterviewsComponent.getSuccessRate Samples.one_in_three
     = 0x1.0aaaaaaaaaaaap+5%float
  /\ (100 / 3 = 0x1.0aaaaaaaaaaabp+5)%float.
Proof. repeat split; vm_compute; reflexivity. Qed.

(** C10: with a question that is empty or white space only,
    [sendQuestion] hands no request to [streamAnswer] and returns the
    component as it was. *)
Theorem sendQuestion_blank_question
  (now : Z) (s : InterviewRoomComponent.state) :
  JsStr.whitespace_only (InterviewRoomComponent.question s) = true ->
  InterviewRoomComponent.sendQuestion now s = (None, s).
Proof.
  intros Hblank. unfold InterviewRoomComponent.sendQuestion.
  apply trim_nil_iff in Hblank. rewrite Hblank. reflexivity.
Qed.

Lemma sendQuestion_blank_question_witness :
  JsStr.whitespace_only
    (InterviewRoomComponent.question Samples.room_with_blank_question) = true
  /\ InterviewRoomComponent.sendQuestion 1733133600000%Z
       Samples.room_with_blank_question
     = (None, Samples.room_with_blank_question).
Proof.
  split; [reflexivity |].
  apply (sendQuestion_blank_question 1733133600000%Z
           Samples.room_with_blank_question).
  reflexivity.
Defined.

(** A question with a visible character is sent: the request carries it,
    the field is cleared and the component is streaming. *)
Lemma sendQuestion_sends
  (now : Z) (s : InterviewRoomComponent.state) :
  JsStr.whitespace_only (InterviewRoomComponent.question s) = false ->
  exists request s',
    InterviewRoomComponent.sendQuestion now s = (Some request, s')
    /\ InterviewRoomComponent.r_question request = InterviewRoomComponent.question s
    /\ InterviewRoomComponent.question s' = []
    /\ InterviewRoomComponent.isStreaming s' = true.
Proof.
  intros Hvisible. unfold InterviewRoomComponent.sendQuestion.
  destruct (JsStr.trim (InterviewRoomComponent.question s)) as [| c r] eqn:E.
  - apply trim_nil_iff in E. congruence.
  - eexists. eexists. repeat split.
Qed.

(** ** The producer *)

Section ProducerFacts.

Import Producer.

Lemma split_at_unique {A : Type} (p : A -> bool)
  (l1' : list A) (a' : A) (l2' l1 : list A) (a : A) (l2 : list A) :
  l1 ++ a :: l2 = l1' ++ a' :: l2' ->
  p a = true ->
  (forall x, In x l1' -> p x = false) ->
  (forall x, In x l2' -> p x = false) ->
  l1 = l1' /\ a = a' /\ l2 = l2'.
Proof.
  revert l1. induction l1' as [| y l1' IH]; intros l1 Heq Hpa H1 H2.
  - destruct l1 as [| x l1]; cbn in Heq.
    + inversion Heq; auto.
    + exfalso. inversion Heq; subst.
      assert (Hf : p a = false) by (apply H2; apply in_or_app; right; left; auto).
      congruence.
  - destruct l1 as [| x l1]; cbn in Heq.
    + exfalso. inversion Heq; subst.
      assert (Hf : p y = false) by (apply H1; left; auto). congruence.
    + inversion Heq; subst.
      destruct (IH l1 H3 Hpa) as (E1 & E2 & E3).
      * intros z Hz. apply H1. right; exact Hz.
      * exact H2.
      * subst. auto.
Qed.

Lemma concat_chunks_upto (size : nat) :
  (0 < size)%nat ->
  forall (fuel : nat) (answer : jstring),
    (List.length answer <= fuel)%nat ->
    List.concat (chunks_upto fuel size answer) = answer.
Proof.
  intros Hsize. induction fuel as [| f IH]; intros answer Hlen.
  - destruct answer; [reflexivity | cbn in Hlen; lia].
  - destruct answer as [| c rest]; [reflexivity |].
    cbn [chunks_upto List.concat].
    rewrite IH.
    + apply firstn_skipn.
    + rewrite length_skipn. cbn [List.length] in *. lia.
Qed.

(** The chunks put end to end are the answer. *)
Lemma concat_chunks (size : nat) (answer : jstring) :
  (0 < size)%nat -> List.concat (chunks size answer) = answer.
Proof.
  intros Hsize. apply concat_chunks_upto; [exact Hsize | apply Nat.le_refl].
Qed.

Lemma nth_chunks_upto (size : nat) :
  (0 < size)%nat ->
  forall (fuel : nat) (answer : jstring) (i : nat),
    (List.length answer <= fuel)%nat ->
    nth i (chunks_upto fuel size answer) []
    = firstn size (skipn (i * size) answer).
Proof.
  intros Hsize. induction fuel as [| f IH]; intros answer i Hlen.
  - destruct answer; [| cbn in Hlen; lia].
    rewrite skipn_nil, firstn_nil. destruct i; reflexivity.
  - destruct answer as [| c rest].
    + rewrite skipn_nil, firstn_nil. destruct i; reflexivity.
    + cbn [chunks_upto]. destruct i as [| j].
      * reflexivity.
      * cbn [nth]. rewrite IH.
        -- rewrite skipn_skipn. f_equal. f_equal. cbn [Nat.mul]. lia.
        -- rewrite length_skipn. cbn [List.length] in *. lia.
Qed.

(** Chunk number [i] is the slice of [size] characters that starts at
    [i * size]. *)
Lemma nth_chunks (size : nat) (answer : jstring) (i : nat) :
  (0 < size)%nat ->
  nth i (chunks size answer) [] = firstn size (skipn (i * size) answer).
Proof.
  intros Hsize. apply nth_chunks_upto; [exact Hsize | apply Nat.le_refl].
Qed.

Lemma content_chunks_content_events (cs : list jstring) :
  content_chunks (content_events cs) = cs.
Proof.
  induction cs as [| c cs IH]; [reflexivity |].
  destruct cs as [| c' cs']; [reflexivity |].
  change (content_events (c :: c' :: cs'))
    with (content c false :: content_events (c' :: cs')).
  cbn [content_chunks flat_map app]. fold (content_chunks (content_events (c' :: cs'))).
  rewrite IH. reflexivity.
Qed.

Lemma content_text_concat (evs : list Event) :
  content_text evs = List.concat (content_chunks evs).
Proof.
  unfold content_text, content_chunks.
  induction evs as [| e evs IH]; [reflexivity |].
  cbn [flat_map]. rewrite List.concat_app, <- IH.
  destruct e; cbn; rewrite ?app_nil_r; reflexivity.
Qed.

Lemma final_flags_content_events (cs : list jstring) :
  last_only (final_flags (content_events cs)) = true.
Proof.
  induction cs as [| c cs IH]; [reflexivity |].
  destruct cs as [| c' cs']; [reflexivity |].
  change (content_events (c :: c' :: cs'))
    with (content c false :: content_events (c' :: cs')).
  cbn [final_flags flat_map app]. fold (final_flags (content_events (c' :: cs'))).
  destruct (final_flags (content_events (c' :: cs'))) eqn:E.
  - destruct cs'; discriminate E.
  - cbn [last_only negb andb]. exact IH.
Qed.

Lemma filter_content_events (p : Event -> bool) (cs : list jstring) :
  (forall c f, p (content c f) = false) ->
  filter p (content_events cs) = [].
Proof.
  intros Hp. induction cs as [| c cs IH]; [reflexivity |].
  destruct cs as [| c' cs'].
  - cbn. rewrite Hp. reflexivity.
  - change (content_events (c :: c' :: cs'))
      with (content c false :: content_events (c' :: cs')).
    cbn [filter]. rewrite Hp. exact IH.
Qed.

Lemma final_flags_app (a b : list Event) :
  final_flags (a ++ b) = final_flags a ++ final_flags b.
Proof. apply flat_map_app. Qed.

End ProducerFacts.

Section ProducerClaims.

Import Producer.

Lemma in_content_events (cs : list jstring) (x : Event) :
  In x (content_events cs) -> exists c f, x = content c f.
Proof.
  induction cs as [| c cs IH]; [intros [] |].
  destruct cs as [| c' cs'].
  - intros [H | []]. subst. eauto.
  - change (content_events (c :: c' :: cs'))
      with (content c false :: content_events (c' :: cs')).
    intros [H | H]; [subst; eauto | exact (IH H)].
Qed.

Ltac count_events :=
  unfold count; cbn [filter is_start is_routing is_complete is_error is_terminal
                     is_content orb];
  rewrite ?filter_app, ?filter_content_events by (intros; reflexivity);
  cbn [filter is_start is_routing is_complete is_error is_terminal is_content
       orb app List.length].

(** C2: the events of an accepted question hold one [start], at most one
    [routing], [content] events whose [is_final] is true on the last one
    and on no other, and one terminal event, [complete] or [error], which
    is the last event of the sequence. *)
Theorem event_sequence_shape
  (min_length chunk_size : nat) (question : jstring) (o : outcomes)
  (evs : list Event) :
  answer_stream min_length chunk_size question o = Some evs ->
  count is_start evs = 1%nat
  /\ (count is_routing evs <= 1)%nat
  /\ last_only (final_flags evs) = true
  /\ (count is_complete evs + count is_error evs = 1)%nat
  /\ exists before terminal,
       evs = before ++ [terminal]
       /\ is_terminal terminal = true
       /\ count is_terminal before = 0%nat.
Proof.
  unfold answer_stream.
  destruct (List.length question <? min_length)%nat; [discriminate |].
  intros Hevs. inversion Hevs as [Hgen]. clear Hevs Hgen.
  unfold generate_stream_events.
  destruct o as [cl an su]. cbn [classified answered suggested].
  destruct cl as [[[agent reasoning] conf] | m].
  2:{ repeat split; try reflexivity; try (count_events; lia).
      exists [start (JsStr.lit "Processing question...") question], (error m).
      repeat split. }
  destruct an as [[full metadata] | m].
  2:{ repeat split; try reflexivity; try (count_events; lia).
      eexists [_; _; _], (error m). repeat split. }
  set (cs := chunks chunk_size full).
  assert (Hflags : forall tail,
             final_flags tail = [] ->
             last_only (final_flags (content_events cs ++ tail)) = true).
  { intros tail Ht. rewrite final_flags_app, Ht, app_nil_r.
    apply final_flags_content_events. }
  destruct su as [qs | m].
  - repeat split.
    + count_events. reflexivity.
    + count_events. lia.
    + cbn [final_flags flat_map app].
      apply (Hflags (answer_complete _ _ _ _ :: _)). reflexivity.
    + count_events. reflexivity.
    + exists (start (JsStr.lit "Processing question...") question
              :: routing agent reasoning conf
              :: processing (JsStr.lit "Processing with " ++ agent
                             ++ JsStr.lit " agent...")
              :: content_events cs
                 ++ [answer_complete full (word_count full) (List.length full)
                       metadata;
                     follow_ups qs]),
        (complete (JsStr.lit "Processing complete") agent true).
      repeat split.
      * cbn [app]. rewrite <- app_assoc. reflexivity.
      * count_events. reflexivity.
  - repeat split.
    + count_events. reflexivity.
    + count_events. lia.
    + cbn [final_flags flat_map app].
      apply (Hflags (answer_complete _ _ _ _ :: _)). reflexivity.
    + count_events. reflexivity.
    + exists (start (JsStr.lit "Processing question...") question
              :: routing agent reasoning conf
              :: processing (JsStr.lit "Processing with " ++ agent
                             ++ JsStr.lit " agent...")
              :: content_events cs
                 ++ [answer_complete full (word_count full) (List.length full)
                       metadata]),
        (error m).
      repeat split.
      * cbn [app]. rewrite <- app_assoc. reflexivity.
      * count_events. reflexivity.
Qed.

Lemma event_sequence_shape_witness :
  answer_stream 5 4 Samples.hello_question Samples.hello_outcomes
  = Some (generate_stream_events 4 Samples.hello_question Samples.hello_outcomes)
  /\ count is_start
       (generate_stream_events 4 Samples.hello_question Samples.hello_outcomes)
     = 1%nat
  /\ final_flags
       (generate_stream_events 4 Samples.hello_question Samples.hello_outcomes)
     = [false; false; true].
Proof.
  assert (H : answer_stream 5 4 Samples.hello_question Samples.hello_outcomes
              = Some (generate_stream_events 4 Samples.hello_question
                        Samples.hello_outcomes)) by reflexivity.
  split; [exact H |].
  destruct (event_sequence_shape 5 4 Samples.hello_question Samples.hello_outcomes
              _ H) as (Hstart & _).
  split; [exact Hstart | reflexivity].
Defined.

(** C3: wherever an [answer_complete] event stands in the sequence, the
    chunks of the [content] events before it are the slices of
    [chunk_size] characters of its [full_answer], in order, and put end to
    end they are that string; no [content] event comes after it. *)
Theorem content_chunks_rebuild_full_answer
  (chunk_size : nat) (question : jstring) (o : outcomes)
  (before after : list Event) (full_answer : jstring)
  (words characters : nat) (metadata : jstring) :
  (0 < chunk_size)%nat ->
  generate_stream_events chunk_size question o
  = before ++ answer_complete full_answer words characters metadata :: after ->
  content_text before = full_answer
  /\ content_chunks before = chunks chunk_size full_answer
  /\ (forall i, nth i (content_chunks before) []
                = firstn chunk_size (skipn (i * chunk_size) full_answer))
  /\ content_chunks after = [].
Proof.
  intros Hsize Heq.
  assert (Hin : In (answer_complete full_answer words characters metadata)
                   (generate_stream_events chunk_size question o))
    by (rewrite Heq; apply in_elt).
  unfold generate_stream_events in Heq, Hin.
  destruct o as [cl an su]. cbn [classified answered suggested] in Heq, Hin.
  destruct cl as [[[agent reasoning] conf] | m].
  2:{ cbn in Hin. destruct Hin as [H | [H | []]]; discriminate H. }
  destruct an as [[full md] | m].
  2:{ cbn in Hin.
      destruct Hin as [H | [H | [H | [H | []]]]]; discriminate H. }
  clear Hin.
  set (tail := match su with
               | Ok qs => [follow_ups qs;
                           complete (JsStr.lit "Processing complete") agent true]
               | Failed m => [error m]
               end) in *.
  change (start (JsStr.lit "Processing question...") question
          :: routing agent reasoning conf
          :: processing (JsStr.lit "Processing with " ++ agent
                         ++ JsStr.lit " agent...")
          :: content_events (chunks chunk_size full)
             ++ answer_complete full (word_count full) (List.length full) md
                :: tail)
    with ((start (JsStr.lit "Processing question...") question
           :: routing agent reasoning conf
           :: processing (JsStr.lit "Processing with " ++ agent
                          ++ JsStr.lit " agent...")
           :: content_events (chunks chunk_size full))
          ++ answer_complete full (word_count full) (List.length full) md
             :: tail) in Heq.
  symmetry in Heq.
  apply (split_at_unique is_answer_complete) in Heq.
  - destruct Heq as (Hb & Ha & Ht). inversion Ha; subst.
    assert (Hchunks : content_chunks
                        (start (JsStr.lit "Processing question...") question
                         :: routing agent reasoning conf
                         :: processing (JsStr.lit "Processing with " ++ agent
                                        ++ JsStr.lit " agent...")
                         :: content_events (chunks chunk_size full))
                      = chunks chunk_size full).
    { cbn [content_chunks flat_map app].
      apply content_chunks_content_events. }
    repeat split.
    + rewrite content_text_concat, Hchunks. apply concat_chunks; exact Hsize.
    + exact Hchunks.
    + intros i. rewrite Hchunks. apply nth_chunks; exact Hsize.
    + subst tail. destruct su; reflexivity.
  - reflexivity.
  - intros x Hx. destruct Hx as [<- | [<- | [<- | Hx]]]; try reflexivity.
    apply in_content_events in Hx. destruct Hx as (c & f & ->). reflexivity.
  - intros x Hx. subst tail.
    destruct su; cbn in Hx;
      repeat (destruct Hx as [<- | Hx]; [reflexivity |]); destruct Hx.
Qed.

End ProducerClaims.

Section ProducerWitness.

Import Producer.

Lemma content_chunks_rebuild_full_answer_witness :
  (0 < 4)%nat
  /\ content_chunks
       [ start (JsStr.lit "Processing question...") Samples.hello_question;
         routing (JsStr.lit "technical") (JsStr.lit "Question about algorithms")
                 (19 # 20);
         processing (JsStr.lit "Processing with technical agent...");
         content (JsStr.lit "Hell") false;
         content (JsStr.lit "o wo") false;
         content (JsStr.lit "rld") true ]
     = chunks 4 (JsStr.lit "Hello world")
  /\ chunks 4 (JsStr.lit "Hello world")
     = [JsStr.lit "Hell"; JsStr.lit "o wo"; JsStr.lit "rld"].
Proof.
  assert (Hsize : (0 < 4)%nat) by lia.
  split; [exact Hsize |].
  destruct (content_chunks_rebuild_full_answer 4 Samples.hello_question
              Samples.hello_outcomes
              [ start (JsStr.lit "Processing question...") Samples.hello_question;
                routing (JsStr.lit "technical")
                        (JsStr.lit "Question about algorithms") (19 # 20);
                processing (JsStr.lit "Processing with technical agent...");
                content (JsStr.lit "Hell") false;
                content (JsStr.lit "o wo") false;
                content (JsStr.lit "rld") true ]
              [ follow_ups [JsStr.lit "What about the worst case?"];
                complete (JsStr.lit "Processing complete") (JsStr.lit "technical")
                         true ]
              (JsStr.lit "Hello world") 2 11 (JsStr.lit "{}") Hsize eq_refl)
    as (_ & Hchunks & _).
  split; [exact Hchunks | reflexivity].
Defined.

End ProducerWitness.

(* ================================================================== *)
(** * Further properties of the sources *)
(* ================================================================== *)

(** ** agent-stream.service.ts: deliveries *)

Section DeliveryFacts.

Import AgentStreamService.

Variable JSON_parse : jstring -> parsed.

Lemma segment_events_frame_text (doc : jstring) :
  segment_events JSON_parse (JsStr.lit "data: " ++ doc)
  = document_events JSON_parse doc.
Proof.
  unfold segment_events, document_events.
  change (JsStr.startsWith (JsStr.lit "data: ") (JsStr.lit "data: " ++ doc))
    with (JsStr.startsWith [] doc).
  change (JsStr.substring 6 (JsStr.lit "data: " ++ doc)) with doc.
  destruct doc; reflexivity.
Qed.

(** The pieces of a body made of frames: one per document, and the empty
    piece after the last blank line. *)
Lemma split_frames (docs : list jstring) :
  Forall JsStr.newline_free docs ->
  JsStr.split blank_line (flat_map frame docs)
  = List.map (fun d => JsStr.lit "data: " ++ d) docs ++ [[]].
Proof.
  induction docs as [| d docs IH]; intros Hall; [reflexivity |].
  inversion Hall as [| ? ? Hd Hrest]; subst.
  cbn [flat_map List.map].
  replace (frame d ++ flat_map frame docs)
    with ((JsStr.lit "data: " ++ d) ++ blank_line ++ flat_map frame docs)
    by (unfold frame; rewrite <- !app_assoc; reflexivity).
  rewrite split_frame.
  - rewrite (IH Hrest). reflexivity.
  - apply newline_free_app; [apply newline_free_data_prefix | exact Hd].
Qed.

Lemma segment_events_frames (docs : list jstring) :
  flat_map (segment_events JSON_parse)
    (List.map (fun d => JsStr.lit "data: " ++ d) docs ++ [[]])
  = flat_map (document_events JSON_parse) docs.
Proof.
  rewrite flat_map_app. cbn [flat_map].
  replace (segment_events JSON_parse []) with (@nil StreamEvent) by reflexivity.
  rewrite !app_nil_r.
  induction docs as [| d docs IH]; [reflexivity |].
  cbn [List.map flat_map]. rewrite segment_events_frame_text, IH. reflexivity.
Qed.

End DeliveryFacts.

Section DeliveryProperties.

Import AgentStreamService.

Variable JSON_parse : jstring -> parsed.

(** A body of frames that arrives at once: every document is parsed and
    emitted once, in the order of the body, a malformed one is skipped,
    and the stream completes after the last. *)
Theorem whole_body_emitted_once (docs : list jstring) :
  Forall JsStr.newline_free docs ->
  Rx.delivered
    (subject
       (streamAnswer JSON_parse
          [ Sent; ResponseHeader;
            DownloadProgress (Some (flat_map frame docs));
            Response (Some (flat_map frame docs)) ]
          SourceComplete))
  = List.map Rx.Next (flat_map (document_events JSON_parse) docs)
    ++ [Rx.Complete].
Proof.
  intros Hall. unfold streamAnswer.
  change [ Sent; ResponseHeader; DownloadProgress (Some (flat_map frame docs));
           Response (Some (flat_map frame docs)) ]
    with ([ Sent; ResponseHeader; DownloadProgress (Some (flat_map frame docs)) ]
          ++ [ Response (Some (flat_map frame docs)) ]).
  rewrite fold_left_app.
  rewrite (fold_onNext_open JSON_parse _ initial eq_refl)
    by (repeat constructor).
  cbn [flat_map progress_segments partialText_or_empty app].
  rewrite app_nil_r, (split_frames docs Hall), segment_events_frames.
  reflexivity.
Qed.

Lemma flat_map_of_map {A B C : Type} (f : B -> list C) (g : A -> B) (l : list A) :
  flat_map f (List.map g l) = flat_map (fun x => f (g x)) l.
Proof.
  induction l as [| x l IH]; [reflexivity |].
  cbn [List.map flat_map]. rewrite IH. reflexivity.
Qed.

Lemma cumulative_segments (rest seen : list jstring) :
  Forall JsStr.newline_free seen ->
  Forall JsStr.newline_free rest ->
  flat_map progress_segments
    (cumulative_from (flat_map frame seen) (List.map frame rest))
  = flat_map
      (fun pre => List.map (fun d => JsStr.lit "data: " ++ d) (seen ++ pre) ++ [[]])
      (prefixes rest).
Proof.
  revert seen. induction rest as [| d rest IH]; intros seen Hseen Hrest.
  - reflexivity.
  - inversion Hrest as [| ? ? Hd Hrest']; subst.
    assert (Hseen' : Forall JsStr.newline_free (seen ++ [d])).
    { apply Forall_app. split; [exact Hseen | constructor; [exact Hd | constructor]]. }
    cbn [List.map cumulative_from flat_map progress_segments
         partialText_or_empty prefixes].
    replace (flat_map frame seen ++ frame d) with (flat_map frame (seen ++ [d]))
      by (rewrite flat_map_app; cbn [flat_map]; rewrite app_nil_r; reflexivity).
    rewrite (split_frames _ Hseen'), (IH _ Hseen' Hrest').
    f_equal. rewrite flat_map_of_map.
    apply flat_map_ext. intros pre. rewrite <- app_assoc. reflexivity.
Qed.

Lemma length_concat_prefixes {A : Type} (l : list A) :
  (2 * List.length (List.concat (prefixes l))
   = List.length l * (List.length l + 1))%nat.
Proof.
  induction l as [| x l IH]; [reflexivity |].
  cbn [prefixes List.concat List.length app].
  assert (H : List.length (List.concat (List.map (cons x) (prefixes l)))
              = (List.length (prefixes l)
                 + List.length (List.concat (prefixes l)))%nat).
  { generalize (prefixes l). intros ps.
    induction ps as [| p ps IHps]; [reflexivity |].
    cbn [List.map List.concat List.length app].
    rewrite !length_app, IHps. cbn [List.length]. lia. }
  assert (Hn : List.length (prefixes l) = List.length l).
  { clear. induction l as [| y l IHl]; [reflexivity |].
    cbn [prefixes List.length]. rewrite length_map, IHl. reflexivity. }
  rewrite H, Hn. lia.
Qed.

(** A body of frames that arrives one frame at a time, each callback
    given the text received so far: the callback for frame [k] emits the
    events of frames 1 to [k] again.  With [n] well-formed frames the
    subscriber receives [n (n + 1) / 2] events. *)
Theorem frame_by_frame_delivery_reemits (docs : list jstring) :
  Forall JsStr.newline_free docs ->
  Rx.values
    (Rx.delivered
       (subject (streamAnswer JSON_parse (cumulative (List.map frame docs))
                   SourcePending)))
  = flat_map (document_events JSON_parse) (List.concat (prefixes docs))
  /\ ((forall d, In d docs -> exists v, JSON_parse d = Parsed v) ->
      (2 * List.length
             (Rx.values
                (Rx.delivered
                   (subject
                      (streamAnswer JSON_parse (cumulative (List.map frame docs))
                         SourcePending))))
       = List.length docs * (List.length docs + 1))%nat).
Proof.
  intros Hall.
  assert (Hvalues :
    Rx.values
      (Rx.delivered
         (subject (streamAnswer JSON_parse (cumulative (List.map frame docs))
                     SourcePending)))
    = flat_map (document_events JSON_parse) (List.concat (prefixes docs))).
  { unfold streamAnswer.
    rewrite (fold_onNext_open JSON_parse _ initial eq_refl).
    2:{ unfold cumulative. generalize (@nil N).
        induction (List.map frame docs) as [| p ps IH]; intros sofar;
          constructor; [reflexivity | apply IH]. }
    cbn [subject Rx.delivered initial Rx.new_subject app].
    rewrite values_of_nexts. unfold cumulative.
    pose proof (cumulative_segments docs [] (Forall_nil _) Hall) as Hseg.
    cbn [flat_map app] in Hseg. rewrite Hseg. clear Hseg.
    generalize (prefixes docs). intros ps.
    induction ps as [| p ps IH]; [reflexivity |].
    cbn [flat_map List.concat].
    rewrite (flat_map_app (segment_events JSON_parse)), IH.
    rewrite segment_events_frames, (flat_map_app (document_events JSON_parse)).
    reflexivity. }
  split; [exact Hvalues |].
  intros Hparse. rewrite Hvalues.
  assert (Hin : forall d, In d (List.concat (prefixes docs)) -> In d docs).
  { clear. induction docs as [| x l IH]; [intros d [] |].
    cbn [prefixes List.concat]. intros d Hd.
    apply in_app_or in Hd. destruct Hd as [[<- | []] | Hd]; [left; reflexivity |].
    apply in_concat in Hd. destruct Hd as (p & Hp & Hdp).
    apply in_map_iff in Hp. destruct Hp as (q & <- & Hq).
    destruct Hdp as [<- | Hdq]; [left; reflexivity |].
    right. apply IH. apply in_concat. exists q. split; assumption. }
  rewrite <- length_concat_prefixes.
  f_equal.
  generalize dependent (List.concat (prefixes docs)). intros l _ Hl.
  induction l as [| d l IH]; [reflexivity |].
  cbn [flat_map]. rewrite length_app, IH.
  - destruct (Hparse d (Hl d (or_introl eq_refl))) as [v Hv].
    unfold document_events. rewrite Hv. reflexivity.
  - intros d' Hd'. apply Hl. right. exact Hd'.
Qed.

Lemma contract_next (s : Rx.subject StreamEvent HttpErrorResponse) (v : StreamEvent) :
  contract s -> contract (Rx.next v s).
Proof.
  intros (vs & tail & Hd & Hcase). unfold Rx.next.
  destruct Hcase as [[Hopen ->] | [Hclosed Htail]].
  - unfold StreamEvent in *. rewrite Hopen.
    exists (vs ++ [v]), []. cbn [Rx.delivered Rx.closed].
    split; [| left; split; reflexivity].
    rewrite Hd, !app_nil_r, map_app. reflexivity.
  - unfold StreamEvent in *. rewrite Hclosed.
    exists vs, tail. split; [exact Hd | right; split; assumption].
Qed.

Lemma contract_complete (s : Rx.subject StreamEvent HttpErrorResponse) :
  contract s ->
  contract (Rx.complete s) /\ Rx.closed (Rx.complete s) = true.
Proof.
  intros (vs & tail & Hd & Hcase). unfold Rx.complete.
  destruct Hcase as [[Hopen ->] | [Hclosed Htail]].
  - unfold StreamEvent in *. rewrite Hopen. split; [| reflexivity].
    exists vs, [Rx.Complete]. cbn [Rx.delivered Rx.closed].
    split; [| right; split; [reflexivity | left; reflexivity]].
    rewrite Hd, app_nil_r. reflexivity.
  - unfold StreamEvent in *. rewrite Hclosed. split; [| exact Hclosed].
    exists vs, tail. split; [exact Hd | right; split; assumption].
Qed.

Lemma contract_error (s : Rx.subject StreamEvent HttpErrorResponse)
  (e : HttpErrorResponse) :
  contract s ->
  contract (Rx.error e s) /\ Rx.closed (Rx.error e s) = true.
Proof.
  intros (vs & tail & Hd & Hcase). unfold Rx.error.
  destruct Hcase as [[Hopen ->] | [Hclosed Htail]].
  - unfold StreamEvent in *. rewrite Hopen. split; [| reflexivity].
    exists vs, [Rx.Error e]. cbn [Rx.delivered Rx.closed].
    split; [| right; split; [reflexivity | right; exists e; reflexivity]].
    rewrite Hd, app_nil_r. reflexivity.
  - unfold StreamEvent in *. rewrite Hclosed. split; [| exact Hclosed].
    exists vs, tail. split; [exact Hd | right; split; assumption].
Qed.

Lemma contract_onNext (w : world) (ev : HttpEvent) :
  contract (subject w) -> contract (subject (onNext JSON_parse w ev)).
Proof.
  intros H. destruct ev; cbn [onNext subject]; try exact H.
  - generalize (JsStr.split blank_line (partialText_or_empty partialText)).
    intros lines. revert w H.
    induction lines as [| l lines IH]; intros w H; [exact H |].
    cbn [fold_left]. apply IH. unfold forLine.
    destruct (JsStr.startsWith _ l); [| exact H].
    destruct (JSON_parse _); cbn [subject]; [apply contract_next |]; exact H.
  - apply contract_complete; exact H.
Qed.

Lemma contract_initial : contract (subject initial).
Proof. exists [], []. split; [reflexivity | left; split; reflexivity]. Qed.

Lemma contract_fold_onNext (events : list HttpEvent) (w : world) :
  contract (subject w) ->
  contract (subject (fold_left (onNext JSON_parse) events w)).
Proof.
  revert w. induction events as [| ev events IH]; intros w Hw; [exact Hw |].
  cbn [fold_left]. apply IH. apply contract_onNext. exact Hw.
Qed.

(** Whatever the request reports and however it ends, subscribers
    receive values followed by at most one completion or error, and
    nothing after it; once the request has ended they have received
    one. *)
Theorem streamAnswer_keeps_contract (events : list HttpEvent) (fin : SourceEnd) :
  contract (subject (streamAnswer JSON_parse events fin))
  /\ (fin <> SourcePending ->
      Rx.closed (subject (streamAnswer JSON_parse events fin)) = true).
Proof.
  unfold streamAnswer.
  pose proof (contract_fold_onNext events initial contract_initial) as H.
  destruct fin as [| e |]; cbn [onComplete onError subject].
  - destruct (contract_complete _ H) as [Hc Hclosed]. split; [exact Hc | auto].
  - destruct (contract_error _ e H) as [Hc Hclosed]. split; [exact Hc | auto].
  - split; [exact H | intros Hne; congruence].
Qed.

End DeliveryProperties.

(** ** interview-room.component.ts *)

Lemma newline_free_check (s : jstring) :
  forallb (fun c => negb (N.eqb c JsStr.newline)) s = true ->
  JsStr.newline_free s.
Proof.
  unfold JsStr.newline_free. intros H Hin.
  rewrite forallb_forall in H. specialize (H _ Hin).
  rewrite N.eqb_refl in H. discriminate H.
Qed.

(** Decides the tests of a [switch] on a known string. *)
Ltac decide_cases :=
  repeat match goal with
         | |- context [Js.is_string (Js.Str ?a) ?b] =>
             let r := eval vm_compute in (Js.is_string (Js.Str a) b) in
             change (Js.is_string (Js.Str a) b) with r
         end;
  cbv beta iota.

Ltac run_handler :=
  unfold InterviewRoomComponent.handleStreamEvent,
    SearchComponent.handleStreamEvent, Eff.bind, Eff.eval, Eff.read, Eff.modify,
    Eff.ret.

Section RoomFacts.

Import AgentStreamService InterviewRoomComponent.

Variable Number_toString : float -> jstring.
Variable toUpperCase : jstring -> jstring.

Lemma handle_content (now : Z) (event : StreamEvent) (c a : jstring) (s : state) :
  carries_chunk event c ->
  currentAnswer s = Js.Str a ->
  handleStreamEvent Number_toString toUpperCase now event s
  = (Js.Return tt, set_currentAnswer (Js.Str (a ++ c)) s).
Proof.
  intros (Hty & data & Hdata & Hchunk) Ha.
  run_handler. rewrite Hty, Hdata. decide_cases.
  rewrite Ha, Hchunk. reflexivity.
Qed.

Lemma handle_answer_complete (now : Z) (event : StreamEvent) (full : jstring)
  (s : state) :
  carries_full_answer event full ->
  handleStreamEvent Number_toString toUpperCase now event s
  = (Js.Return tt,
     set_streamingStatus (Js.Str (JsStr.lit "Answer complete"))
       (addAgentMessage now (Js.Str full) (currentAgent s)
          (set_currentAnswer (Js.Str full) s))).
Proof.
  intros (Hty & data & Hdata & Hfull).
  run_handler. rewrite Hty, Hdata. decide_cases.
  rewrite Hfull. reflexivity.
Qed.

End RoomFacts.

Section RoomProperties.

Import AgentStreamService InterviewRoomComponent.

Variable Number_toString : float -> jstring.
Variable toUpperCase : jstring -> jstring.

Lemma set_currentAnswer_twice (a b : Js.value) (s : state) :
  set_currentAnswer b (set_currentAnswer a s) = set_currentAnswer b s.
Proof. reflexivity. Qed.

Lemma set_currentAnswer_same (a : Js.value) (s : state) :
  currentAnswer s = a -> set_currentAnswer a s = s.
Proof. intros <-. destruct s; reflexivity. Qed.

Lemma fold_receive_chunks
  (currentQuestion : jstring)
  (timed : list (Z * Rx.notification StreamEvent HttpErrorResponse))
  (chunks : list jstring) (a : jstring) (s : state) :
  Forall2 (fun tn c => exists event,
               snd tn = Rx.Next event /\ carries_chunk event c)
          timed chunks ->
  currentAnswer s = Js.Str a ->
  fold_left (receive Number_toString toUpperCase currentQuestion) timed (false, s)
  = (false, set_currentAnswer (Js.Str (a ++ List.concat chunks)) s).
Proof.
  intros Hall. revert a s.
  induction Hall as [| tn c timed chunks (event & Hnext & Hchunk) _ IH];
    intros a s Ha.
  - cbn [fold_left List.concat]. rewrite app_nil_r.
    rewrite set_currentAnswer_same by exact Ha. reflexivity.
  - cbn [fold_left]. unfold receive at 2. rewrite Hnext.
    rewrite (handle_content Number_toString toUpperCase (fst tn) event c a s
               Hchunk Ha).
    cbn [snd].
    rewrite (IH (a ++ c) (set_currentAnswer (Js.Str (a ++ c)) s) eq_refl).
    rewrite set_currentAnswer_twice. cbn [List.concat].
    rewrite app_assoc. reflexivity.
Qed.

(** The [content] events of a stream are appended, in order, to the
    answer being shown; nothing else in the component changes. *)
Theorem content_chunks_accumulate
  (currentQuestion : jstring)
  (timed : list (Z * Rx.notification StreamEvent HttpErrorResponse))
  (chunks : list jstring) (a : jstring) (s : state) :
  Forall2 (fun tn c => exists event,
               snd tn = Rx.Next event /\ carries_chunk event c)
          timed chunks ->
  currentAnswer s = Js.Str a ->
  subscription Number_toString toUpperCase currentQuestion timed s
  = set_currentAnswer (Js.Str (a ++ List.concat chunks)) s.
Proof.
  intros Hall. revert a s. unfold subscription.
  induction Hall as [| tn c timed chunks (event & Hnext & Hchunk) _ IH];
    intros a s Ha.
  - cbn [fold_left snd List.concat]. rewrite app_nil_r.
    symmetry. apply set_currentAnswer_same. exact Ha.
  - cbn [fold_left]. unfold receive at 2. rewrite Hnext.
    rewrite (handle_content Number_toString toUpperCase (fst tn) event c a s Hchunk Ha).
    cbn [snd].
    rewrite (IH (a ++ c) (set_currentAnswer (Js.Str (a ++ c)) s) eq_refl).
    rewrite set_currentAnswer_twice. cbn [List.concat].
    rewrite app_assoc. reflexivity.
Qed.

(** When [answer_complete] follows the [content] events, the answer shown
    is its [full_answer], whatever the chunks were, and one agent message
    with that text is added to the chat. *)
Theorem answer_complete_replaces_chunks
  (currentQuestion : jstring)
  (timed : list (Z * Rx.notification StreamEvent HttpErrorResponse))
  (chunks : list jstring) (now : Z) (final : StreamEvent)
  (a full : jstring) (s : state) :
  Forall2 (fun tn c => exists event,
               snd tn = Rx.Next event /\ carries_chunk event c)
          timed chunks ->
  currentAnswer s = Js.Str a ->
  carries_full_answer final full ->
  currentAnswer
    (subscription Number_toString toUpperCase currentQuestion
       (timed ++ [(now, Rx.Next final)]) s)
  = Js.Str full
  /\ messages
       (subscription Number_toString toUpperCase currentQuestion
          (timed ++ [(now, Rx.Next final)]) s)
     = messages s ++ [mkMessage agent (Js.Str full) now (Some (currentAgent s))].
Proof.
  intros Hall Ha Hfull.
  unfold subscription. rewrite fold_left_app.
  rewrite (fold_receive_chunks currentQuestion timed chunks a s Hall Ha).
  cbn [fold_left receive snd fst].
  rewrite (handle_answer_complete Number_toString toUpperCase now final full _ Hfull).
  split; reflexivity.
Qed.

(** An event whose type the [switch] has no case for changes nothing, in
    the interview room and in the search component alike. *)
Theorem unknown_event_type_ignored
  (now : Z) (event ty data : Js.value) (room : state)
  (search : SearchComponent.StreamingState) :
  Js.get event (JsStr.lit "event_type") = Js.Return ty ->
  Js.get event (JsStr.lit "data") = Js.Return data ->
  handled_type ty = false ->
  handleStreamEvent Number_toString toUpperCase now event room
  = (Js.Return tt, room)
  /\ SearchComponent.handleStreamEvent Number_toString event search
     = (Js.Return tt, search).
Proof.
  intros Hty Hdata Hunknown.
  unfold handled_type, event_types in Hunknown. cbn [existsb] in Hunknown.
  repeat (apply orb_false_elim in Hunknown;
          let H := fresh "H" in destruct Hunknown as [H Hunknown]).
  split; run_handler; rewrite Hty, ?Hdata; cbv beta iota;
    rewrite H, H0, H1, H2, H3, H4, H5, H6; reflexivity.
Qed.

End RoomProperties.

Lemma sendQuestion_blank_question_aux (now : Z) (s : InterviewRoomComponent.state) :
  JsStr.whitespace_only (InterviewRoomComponent.question s) = true ->
  InterviewRoomComponent.sendQuestion now s = (None, s).
Proof.
  intros Hblank. unfold InterviewRoomComponent.sendQuestion.
  apply trim_nil_iff in Hblank. rewrite Hblank. reflexivity.
Qed.

Section RoomEdgeCases.

Import AgentStreamService InterviewRoomComponent.

Variable Number_toString : float -> jstring.
Variable toUpperCase : jstring -> jstring.

(** An event that came without a payload: the handler throws when it
    reads the payload.  The component is left as it was, except that a
    [processing] event has already raised [showProcessing]; a [complete]
    event reads no payload and is handled. *)
Theorem event_without_payload
  (now : Z) (event : StreamEvent) (ty : jstring) (s : state) :
  Js.get event (JsStr.lit "event_type") = Js.Return (Js.Str ty) ->
  Js.get event (JsStr.lit "data") = Js.Return Js.Undefined ->
  (In ty [ JsStr.lit "start"; JsStr.lit "routing"; JsStr.lit "content";
           JsStr.lit "answer_complete"; JsStr.lit "follow_ups";
           JsStr.lit "error" ] ->
   exists msg,
     handleStreamEvent Number_toString toUpperCase now event s
     = (Js.Throw msg, s))
  /\ (ty = JsStr.lit "processing" ->
      exists msg,
        handleStreamEvent Number_toString toUpperCase now event s
        = (Js.Throw msg, set_showProcessing true s))
  /\ (ty = JsStr.lit "complete" ->
      handleStreamEvent Number_toString toUpperCase now event s
      = (Js.Return tt,
         set_showProcessing false
           (set_showRouting false
              (set_streamingStatus (Js.Str (JsStr.lit "Complete")) s)))).
Proof.
  intros Hty Hdata. repeat split.
  - intros Hin. cbn [In] in Hin.
    repeat (destruct Hin as [<- | Hin];
            [run_handler; rewrite Hty, Hdata; decide_cases;
             eexists; reflexivity |]).
    destruct Hin.
  - intros ->. run_handler. rewrite Hty, Hdata. decide_cases.
    eexists. reflexivity.
  - intros ->. run_handler. rewrite Hty, Hdata. decide_cases. reflexivity.
Qed.

(** [null] or [undefined] on the stream (the document [null] parses to
    it): both handlers throw before any assignment. *)
Theorem null_event_throws
  (now : Z) (s : state) (search : SearchComponent.StreamingState) :
  (exists msg,
     handleStreamEvent Number_toString toUpperCase now Js.Null s
     = (Js.Throw msg, s))
  /\ (exists msg,
        handleStreamEvent Number_toString toUpperCase now Js.Undefined s
        = (Js.Throw msg, s))
  /\ (exists msg,
        SearchComponent.handleStreamEvent Number_toString Js.Null search
        = (Js.Throw msg, search))
  /\ (exists msg,
        SearchComponent.handleStreamEvent Number_toString Js.Undefined search
        = (Js.Throw msg, search)).
Proof. repeat split; eexists; reflexivity. Qed.

(** A question with a visible character is handed to the service as it
    was typed, not trimmed, with the history so far; the field is then
    empty, so that calling [sendQuestion] again at once sends nothing and
    changes nothing. *)
Theorem sendQuestion_sends_once
  (now later : Z) (s : state) :
  JsStr.whitespace_only (question s) = false ->
  exists request s',
    sendQuestion now s = (Some request, s')
    /\ r_question request = question s
    /\ r_conversation_history request = conversationHistory s
    /\ messages s' = messages s ++ [mkMessage user (Js.Str (question s)) now None]
    /\ isStreaming s' = true
    /\ conversationHistory s' = conversationHistory s
    /\ sendQuestion later s' = (None, s').
Proof.
  intros Hvisible. unfold sendQuestion at 1.
  destruct (JsStr.trim (question s)) as [| c r] eqn:E.
  - apply trim_nil_iff in E. congruence.
  - eexists. eexists. repeat split.
Qed.

(** [askFollowUp] replaces what was typed by the suggested question and
    sends that; a blank suggestion sends nothing but still replaces the
    field. *)
Theorem askFollowUp_sends_suggestion
  (now : Z) (q : jstring) (s : state) :
  (JsStr.whitespace_only q = false ->
   exists request s',
     askFollowUp now q s = (Some request, s')
     /\ r_question request = q
     /\ question s' = [])
  /\ (JsStr.whitespace_only q = true ->
      askFollowUp now q s = (None, set_question q s)).
Proof.
  unfold askFollowUp. split; intros Hq.
  - destruct (sendQuestion_sends now (set_question q s) Hq)
      as (request & s' & Hsend & Hrq & Hq' & _).
    exists request, s'. repeat split; assumption.
  - apply sendQuestion_blank_question_aux. exact Hq.
Qed.

End RoomEdgeCases.

Section RoomStream.

Import AgentStreamService InterviewRoomComponent.

Variable Number_toString : float -> jstring.
Variable toUpperCase : jstring -> jstring.


(** No event of the stream touches the question field, the context or
    the conversation history. *)
Lemma handleStreamEvent_frame (now : Z) (event : StreamEvent) (s : state) :
  question (snd (handleStreamEvent Number_toString toUpperCase now event s))
  = question s
  /\ context (snd (handleStreamEvent Number_toString toUpperCase now event s))
     = context s
  /\ conversationHistory
       (snd (handleStreamEvent Number_toString toUpperCase now event s))
     = conversationHistory s.
Proof.
  run_handler.
  repeat (cbv beta iota;
          match goal with
          | |- context [if ?b then _ else _] => destruct b
          | |- context [match ?c with Js.Return _ => _ | Js.Throw _ => _ end] =>
              destruct c
          end);
    repeat split.
Qed.

Lemma nexts_keep_history (currentQuestion : jstring)
  (timed : list (Z * Rx.notification StreamEvent HttpErrorResponse))
  (vs : list StreamEvent) (s : state) :
  List.map snd timed = List.map Rx.Next vs ->
  exists s1,
    fold_left (receive Number_toString toUpperCase currentQuestion) timed (false, s)
    = (false, s1)
    /\ conversationHistory s1 = conversationHistory s.
Proof.
  revert vs s. induction timed as [| tn timed IH]; intros vs s Hmap.
  - exists s. split; reflexivity.
  - destruct vs as [| v vs]; [discriminate Hmap |].
    cbn [List.map] in Hmap. inversion Hmap as [[Hhead Htail]].
    cbn [fold_left]. unfold receive at 2. rewrite Hhead.
    destruct (IH vs (snd (handleStreamEvent Number_toString toUpperCase
                            (fst tn) v s)) Htail) as (s1 & Hfold & Hhist).
    exists s1. split; [exact Hfold |].
    rewrite Hhist. apply handleStreamEvent_frame.
Qed.

(** Whatever the request reports, once it has ended the interview room
    is no longer streaming, and the conversation history has grown by at
    most one entry. *)
Theorem room_stops_streaming
  (JSON_parse : jstring -> parsed) (events : list HttpEvent) (fin : SourceEnd)
  (currentQuestion : jstring)
  (timed : list (Z * Rx.notification StreamEvent HttpErrorResponse))
  (s : state) :
  fin <> SourcePending ->
  List.map snd timed
  = Rx.delivered (subject (streamAnswer JSON_parse events fin)) ->
  isStreaming (subscription Number_toString toUpperCase currentQuestion timed s)
  = false
  /\ (List.length
        (conversationHistory
           (subscription Number_toString toUpperCase currentQuestion timed s))
      <= S (List.length (conversationHistory s)))%nat.
Proof.
  intros Hfin Htimed.
  assert (Hended : contract (subject (streamAnswer JSON_parse events fin))
                   /\ Rx.closed (subject (streamAnswer JSON_parse events fin))
                      = true).
  { unfold streamAnswer.
    pose proof (contract_fold_onNext JSON_parse events AgentStreamService.initial
                  contract_initial) as H.
    destruct fin as [| e |]; cbn [onComplete onError subject];
      [apply contract_complete | apply contract_error | congruence]; exact H. }
  destruct Hended as [(vs & tail & Hd & Hcase) Hclosed].
  destruct Hcase as [[Hopen _] | [_ Htail]];
    [unfold StreamEvent in *; congruence |].
  rewrite Hd in Htimed.
  assert (Hsplit : exists timed1 last,
             timed = timed1 ++ [last]
             /\ List.map snd timed1 = List.map Rx.Next vs
             /\ tail = [snd last]).
  { destruct Htail as [-> | [e ->]];
      apply map_eq_app in Htimed;
      destruct Htimed as (t1 & t2 & -> & H1 & H2);
      destruct t2 as [| x [| y t2]]; try discriminate H2;
      inversion H2 as [Hx]; exists t1, x; repeat split; auto. }
  destruct Hsplit as (timed1 & last & -> & Hnexts & Hlast).
  unfold subscription. rewrite fold_left_app.
  destruct (nexts_keep_history currentQuestion timed1 vs s Hnexts)
    as (s1 & -> & Hhist).
  destruct last as [t n]. cbn [snd] in Hlast.
  destruct Htail as [-> | [e ->]]; inversion Hlast as [Hsnd]; subst n;
    cbn [fold_left receive snd fst].
  - unfold onStreamComplete.
    destruct (Js.truthy _); cbn; rewrite ?length_app, Hhist; cbn; split;
      try reflexivity; lia.
  - split; [reflexivity |]. cbn. rewrite Hhist. lia.
Qed.

End RoomStream.

(** ** list-interviews.component.ts *)

Lemma JsStr_eqb_eq (a b : jstring) : JsStr.eqb a b = true -> a = b.
Proof.
  revert b. induction a as [| x a IH]; intros [| y b] H; cbn in H;
    try discriminate; [reflexivity |].
  apply andb_prop in H. destruct H as [Hxy Hab].
  apply N.eqb_eq in Hxy. subst. f_equal. apply IH. exact Hab.
Qed.

Lemma filter_all {A : Type} (p : A -> bool) (l : list A) :
  (forall x, In x l -> p x = true) -> filter p l = l.
Proof.
  induction l as [| x l IH]; intros H; [reflexivity |].
  cbn [filter]. rewrite (H x (or_introl eq_refl)).
  f_equal. apply IH. intros y Hy. apply H. right. exact Hy.
Qed.

Lemma filter_disjoint_length {A : Type} (p q : A -> bool) (l : list A) :
  (forall x, p x && q x = false) ->
  (List.length (filter p l) + List.length (filter q l) <= List.length l)%nat.
Proof.
  intros Hpq. induction l as [| x l IH]; [reflexivity |].
  cbn [filter List.length]. specialize (Hpq x).
  destruct (p x), (q x); cbn [List.length]; try discriminate Hpq; lia.
Qed.

Section ListProperties.

Import ListInterviewsComponent.

Variable toLowerCase : jstring -> jstring.

Lemma shows_filtered_step (s : state) (a : action) :
  shows_filtered toLowerCase s ->
  shows_filtered toLowerCase (step toLowerCase s a).
Proof.
  intros H. destruct a as [status | value | interviewId confirmed];
    try reflexivity.
  cbn [step]. unfold deleteInterview. destruct confirmed; [reflexivity | exact H].
Qed.

Lemma shows_filtered_run (actions : list action) (s : state) :
  shows_filtered toLowerCase s ->
  shows_filtered toLowerCase (run toLowerCase actions s).
Proof.
  revert s. unfold run.
  induction actions as [| a actions IH]; intros s Hs; [exact Hs |].
  cbn [fold_left]. apply IH. apply shows_filtered_step. exact Hs.
Qed.

(** From [ngOnInit] on, whatever the user filters, searches or deletes,
    the rows shown are exactly the interviews that pass the status filter
    and the search term in force, in the order of the list. *)
Theorem list_shows_filtered_rows (actions : list action) :
  filteredInterviews (run toLowerCase actions ngOnInit)
  = filter (matches toLowerCase
              (statusFilter (run toLowerCase actions ngOnInit))
              (searchTerm (run toLowerCase actions ngOnInit)))
           (interviews (run toLowerCase actions ngOnInit)).
Proof.
  change (shows_filtered toLowerCase (run toLowerCase actions ngOnInit)).
  apply shows_filtered_run.
  unfold shows_filtered. cbn [ngOnInit filteredInterviews interviews
                               statusFilter searchTerm].
  symmetry. apply filter_all. intros x _. reflexivity.
Qed.

Lemma interviews_step_incl (s : state) (a : action) (i : Interview) :
  In i (interviews (step toLowerCase s a)) -> In i (interviews s).
Proof.
  destruct a as [status | value | interviewId confirmed]; cbn [step];
    try (intros H; exact H).
  unfold deleteInterview. destruct confirmed; [| intros H; exact H].
  cbn [applyFilters interviews]. intros H. apply filter_In in H. tauto.
Qed.

Lemma interviews_run_incl (actions : list action) (s : state) (i : Interview) :
  In i (interviews (run toLowerCase actions s)) -> In i (interviews s).
Proof.
  revert s. unfold run.
  induction actions as [| a actions IH]; intros s H; [exact H |].
  cbn [fold_left] in H. apply IH in H.
  apply (interviews_step_incl s a). exact H.
Qed.

(** A confirmed [deleteInterview] removes every row with that id and
    keeps the others in order; no later action brings a row with that id
    back, in the list or in the rows shown. *)
Theorem deleted_interview_stays_deleted
  (interviewId : Z) (s : state) (actions : list action) :
  interviews (deleteInterview toLowerCase interviewId true s)
  = filter (fun i => negb (Z.eqb (interview_id i) interviewId)) (interviews s)
  /\ forallb (fun i => negb (Z.eqb (interview_id i) interviewId))
       (interviews
          (run toLowerCase actions (deleteInterview toLowerCase interviewId true s)))
     = true
  /\ (shows_filtered toLowerCase s ->
      forallb (fun i => negb (Z.eqb (interview_id i) interviewId))
        (filteredInterviews
           (run toLowerCase actions
              (deleteInterview toLowerCase interviewId true s)))
      = true).
Proof.
  assert (Hgone : forall i,
             In i (interviews
                     (run toLowerCase actions
                        (deleteInterview toLowerCase interviewId true s))) ->
             negb (Z.eqb (interview_id i) interviewId) = true).
  { intros i Hi. apply interviews_run_incl in Hi.
    cbn [deleteInterview applyFilters interviews] in Hi.
    apply filter_In in Hi. tauto. }
  split; [reflexivity |]. split.
  - apply forallb_forall. exact Hgone.
  - intros Hs. apply forallb_forall. intros i Hi.
    assert (Hshown : shows_filtered toLowerCase
                       (run toLowerCase actions
                          (deleteInterview toLowerCase interviewId true s)))
      by (apply shows_filtered_run; reflexivity).
    unfold shows_filtered in Hshown. rewrite Hshown in Hi.
    apply filter_In in Hi. apply Hgone. tauto.
Qed.

(** The two counters of the dashboard never count an interview twice:
    active and completed interviews together are at most the total. *)
Theorem active_and_completed_within_total (rows : list Interview) :
  (getActiveInterviews rows + getCompletedInterviews rows
   <= getTotalInterviews rows)%nat.
Proof.
  unfold getActiveInterviews, getCompletedInterviews, getTotalInterviews.
  apply filter_disjoint_length. intros i.
  unfold is_active, is_completed.
  destruct (JsStr.eqb (interview_status i) (JsStr.lit "completed")) eqn:E;
    [| apply andb_false_r].
  apply JsStr_eqb_eq in E. rewrite E. reflexivity.
Qed.

End ListProperties.

(** ** Display names and classes *)

Lemma split_single_free (c : N) (s : jstring) :
  Forall (fun piece => ~ In c piece) (JsStr.split [c] s).
Proof.
  unfold JsStr.split.
  induction s as [| x s IH]; [repeat constructor; intros [] |].
  cbn [JsStr.split_from JsStr.startsWith List.length Nat.sub].
  destruct (N.eqb_spec c x) as [E | E]; cbn [andb].
  - constructor; [intros [] | exact IH].
  - destruct (JsStr.split_from [c] 0 s) as [| h tl] eqn:Es.
    + repeat constructor. intros [H | []]. congruence.
    + inversion IH as [| ? ? Hh Htl]; subst.
      constructor; [| exact Htl].
      intros [H | H]; [congruence | exact (Hh H)].
Qed.

Lemma join_free (c : N) (sep : jstring) (pieces : list jstring) :
  ~ In c sep ->
  Forall (fun piece => ~ In c piece) pieces ->
  ~ In c (JsStr.join sep pieces).
Proof.
  intros Hsep Hall. induction Hall as [| p ps Hp Hps IH]; [intros [] |].
  destruct ps as [| p' ps']; [exact Hp |].
  change (JsStr.join sep (p :: p' :: ps'))
    with (p ++ sep ++ JsStr.join sep (p' :: ps')).
  intros Hin. apply in_app_or in Hin. destruct Hin as [Hin | Hin]; [auto |].
  apply in_app_or in Hin. destruct Hin as [Hin | Hin]; auto.
Qed.

Lemma In_firstn_aux {A : Type} (n : nat) (l : list A) (x : A) :
  In x (firstn n l) -> In x l.
Proof.
  revert l. induction n as [| n IH]; intros [| y l] H; cbn in H; try contradiction.
  destruct H as [H | H]; [left; exact H | right; apply IH; exact H].
Qed.

Section NameProperties.

Variable toUpperCase : jstring -> jstring.

Lemma capitalised_free (word : jstring) :
  (forall w, ~ In 95%N w -> ~ In 95%N (toUpperCase w)) ->
  ~ In 95%N word ->
  ~ In 95%N (toUpperCase (JsStr.charAt 0 word) ++ JsStr.slice 1 word).
Proof.
  intros Hup Hword Hin. apply in_app_or in Hin. destruct Hin as [Hin | Hin].
  - revert Hin. apply Hup. unfold JsStr.charAt. cbn [skipn].
    intros H. apply Hword. apply (In_firstn_aux _ _ _ H).
  - apply Hword. unfold JsStr.slice in Hin.
    destruct word; [exact Hin | right; exact Hin].
Qed.

(** The display name of an agent and of a seniority level holds no
    underscore: every underscore of the identifier has become a space
    (as long as upper-casing a letter does not produce one). *)
Theorem display_names_have_no_underscore (identifier : jstring) :
  (forall w, ~ In 95%N w -> ~ In 95%N (toUpperCase w)) ->
  (exists name,
     InterviewRoomComponent.formatAgentName toUpperCase (Js.Str identifier)
     = Js.Return name
     /\ ~ In 95%N name
     /\ name = ListInterviewsComponent.formatSeniorityLevel toUpperCase identifier).
Proof.
  intros Hup. eexists. split; [reflexivity |]. split; [| reflexivity].
  apply join_free.
  - cbn. intros [H | []]. discriminate H.
  - apply Forall_map.
    pose proof (split_single_free 95%N identifier) as Hsplit.
    change [95%N] with (JsStr.lit "_") in Hsplit.
    eapply Forall_impl; [| exact Hsplit].
    intros word Hword. apply capitalised_free; assumption.
Qed.

End NameProperties.

(** ** search.component.ts *)

Section SearchProperties.

Import SearchComponent.

Variable toLowerCase : jstring -> jstring.

(** [onSearch] sends a request exactly when the lower-cased query has a
    visible character; the question sent is the query lower-cased and
    trimmed, with an empty history, after the streaming state has been
    reset and the previous subscription dropped.  With a blank query it
    sends nothing, leaves the streaming state and the subscription as
    they are and shows all the questions.  It never narrows the list. *)
Theorem onSearch_sends_lowercased_query (s : state) :
  (JsStr.whitespace_only (toLowerCase (searchQuery s)) = true ->
   onSearch toLowerCase s
   = (mkEffects false None,
      mkState (searchQuery s) (allQuestions s) (allQuestions s)
              (streamingState s) (streamSubscription s)))
  /\ (JsStr.whitespace_only (toLowerCase (searchQuery s)) = false ->
      exists request s',
        onSearch toLowerCase s
        = (mkEffects (streamSubscription s) (Some request), s')
        /\ InterviewRoomComponent.r_question request
           = JsStr.trim (toLowerCase (searchQuery s))
        /\ InterviewRoomComponent.r_conversation_history request = []
        /\ streamingState s' = resetStreamingState
        /\ streamSubscription s' = true
        /\ filteredQuestions s' = filteredQuestions s
        /\ searchQuery s' = searchQuery s).
Proof.
  unfold onSearch. split; intros Hq.
  - apply trim_nil_iff in Hq. rewrite Hq. reflexivity.
  - destruct (JsStr.trim (toLowerCase (searchQuery s))) as [| c r] eqn:E.
    + apply trim_nil_iff in E. congruence.
    + eexists. eexists. repeat split.
Qed.

Lemma replace_whitespace_runs_clean (by_ : jstring) (inside : bool) (s : jstring) :
  forallb (fun c => negb (JsStr.is_whitespace c)) by_ = true ->
  forallb (fun c => negb (JsStr.is_whitespace c))
          (JsStr.replace_whitespace_runs by_ inside s) = true.
Proof.
  intros Hby. revert inside. induction s as [| c s IH]; intros inside;
    [reflexivity |].
  cbn [JsStr.replace_whitespace_runs].
  destruct (JsStr.is_whitespace c) eqn:Ec.
  - rewrite forallb_app, IH. destruct inside; [reflexivity |].
    rewrite Hby. reflexivity.
  - cbn [forallb]. rewrite Ec, IH. reflexivity.
Qed.

Lemma replace_whitespace_runs_none (by_ : jstring) (inside : bool) (s : jstring) :
  forallb (fun c => negb (JsStr.is_whitespace c)) s = true ->
  JsStr.replace_whitespace_runs by_ inside s = s.
Proof.
  revert inside. induction s as [| c s IH]; intros inside H; [reflexivity |].
  cbn [forallb] in H. apply andb_prop in H. destruct H as [Hc Hs].
  cbn [JsStr.replace_whitespace_runs].
  destruct (JsStr.is_whitespace c); [discriminate Hc |].
  rewrite (IH false Hs). reflexivity.
Qed.

(** The class derived from a category holds no white space, whatever the
    category, and is the lower-cased category when that has none. *)
Theorem getCategoryClass_has_no_whitespace (category : jstring) :
  forallb (fun c => negb (JsStr.is_whitespace c))
          (getCategoryClass toLowerCase category) = true
  /\ (forallb (fun c => negb (JsStr.is_whitespace c)) (toLowerCase category) = true ->
      getCategoryClass toLowerCase category = toLowerCase category).
Proof.
  unfold getCategoryClass. split.
  - apply replace_whitespace_runs_clean. reflexivity.
  - apply replace_whitespace_runs_none.
Qed.

End SearchProperties.

(** ** architect.component.ts: pagination *)

Section PaginationFacts.

Import ArchitectComponent.

Local Open Scope Z_scope.

Lemma ceil_div_bounds (n d : Z) :
  0 <= n -> 0 < d ->
  0 <= ceil_div n d /\ (ceil_div n d - 1) * d < n + (if n =? 0 then 1 else 0)
  /\ n <= ceil_div n d * d.
Proof.
  intros Hn Hd. unfold ceil_div.
  pose proof (Z.div_mod (n + d - 1) d ltac:(lia)) as Hdm.
  pose proof (Z.mod_pos_bound (n + d - 1) d Hd) as Hmod.
  assert (H0 : 0 <= (n + d - 1) / d) by (apply Z.div_pos; lia).
  destruct (Z.eqb_spec n 0); repeat split; nia.
Qed.

Lemma slice_page {A : Type} (d p : Z) (xs : list A) :
  0 < d -> 1 <= p ->
  slice ((p - 1) * d) ((p - 1) * d + d) xs
  = firstn (Z.to_nat d) (skipn (Z.to_nat ((p - 1) * d)) xs).
Proof.
  intros Hd Hp. unfold slice, relative_index.
  set (len := Z.of_nat (List.length xs)).
  assert (Hstart : 0 <= (p - 1) * d) by nia.
  destruct (Z.ltb_spec ((p - 1) * d) 0) as [Hneg | _]; [lia |].
  destruct (Z.ltb_spec ((p - 1) * d + d) 0) as [Hneg | _]; [lia |].
  destruct (Z_lt_le_dec ((p - 1) * d) len) as [Hin | Hout].
  - rewrite (Z.min_l ((p - 1) * d) len) by lia.
    destruct (Z_le_gt_dec ((p - 1) * d + d) len) as [Hfull | Hpart].
    + rewrite Z.min_l by lia. f_equal. lia.
    + rewrite Z.min_r by lia.
      rewrite !firstn_all2; [reflexivity | |];
        rewrite length_skipn; subst len; lia.
  - rewrite !Z.min_r by lia. rewrite Z.sub_diag. cbn [Z.to_nat firstn].
    rewrite (skipn_all2 xs) by (subst len; lia).
    rewrite firstn_nil. reflexivity.
Qed.

Lemma updatePagination_paged (s : state) :
  0 < itemsPerPage s -> 1 <= currentPage s -> paged (updatePagination s).
Proof.
  intros Hd Hp. unfold paged, updatePagination.
  cbn [itemsPerPage currentPage totalPages filteredPatterns paginatedPatterns].
  set (t := ceil_div (Z.of_nat (List.length (filteredPatterns s))) (itemsPerPage s)).
  repeat split; try reflexivity; try exact Hd;
    destruct (Z.ltb_spec t (currentPage s)); lia.
Qed.

Section Runs.

Variable toLowerCase : jstring -> jstring.

Lemma paged_step (s : state) (a : action) :
  paged s -> paged (step toLowerCase s a).
Proof.
  intros Hs. pose proof Hs as (Hd & Hp & _).
  destruct a as [query | selected | page | |]; cbn [step].
  - apply updatePagination_paged; cbn; lia.
  - apply updatePagination_paged; cbn; lia.
  - unfold goToPage.
    destruct ((1 <=? page) && (page <=? totalPages s)) eqn:E; [| exact Hs].
    apply andb_prop in E. destruct E as [E1 E2]. apply Z.leb_le in E1.
    apply updatePagination_paged; cbn; lia.
  - unfold previousPage.
    destruct (Z.ltb_spec 1 (currentPage s)); [| exact Hs].
    apply updatePagination_paged; cbn; lia.
  - unfold nextPage.
    destruct (Z.ltb_spec (currentPage s) (totalPages s)); [| exact Hs].
    apply updatePagination_paged; cbn; lia.
Qed.

Lemma paged_run (actions : list action) (s : state) :
  paged s -> paged (run toLowerCase actions s).
Proof.
  revert s. unfold run.
  induction actions as [| a actions IH]; intros s Hs; [exact Hs |].
  cbn [fold_left]. apply IH. apply paged_step. exact Hs.
Qed.

Lemma paged_loaded (data : list ArchitectPattern) : paged (loaded data initial).
Proof. apply updatePagination_paged; cbn; lia. Qed.

(** Once the patterns are loaded, whatever the user searches, selects or
    pages through, the pagination agrees with the filtered list: the
    current page lies between 1 and the number of pages, that number is
    the one the list needs, and the page shown is its slice. *)
Theorem pagination_stays_consistent
  (data : list ArchitectPattern) (actions : list action) :
  paged (run toLowerCase actions (loaded data initial)).
Proof. apply paged_run. apply paged_loaded. Qed.

End Runs.

Lemma paged_page_bounds (s : state) :
  paged s ->
  (List.length (paginatedPatterns s) <= Z.to_nat (itemsPerPage s))%nat
  /\ (filteredPatterns s <> [] -> paginatedPatterns s <> []).
Proof.
  intros (Hd & Hp & Ht & Hpage).
  rewrite Hpage, (slice_page _ _ _ Hd (proj1 Hp)). split.
  - apply firstn_le_length.
  - intros Hne.
    assert (Hlen : (0 < List.length (filteredPatterns s))%nat).
    { destruct (filteredPatterns s); [congruence | cbn; lia]. }
    pose proof (ceil_div_bounds (Z.of_nat (List.length (filteredPatterns s)))
                  (itemsPerPage s) ltac:(lia) Hd) as (Ht0 & Hlow & Hhigh).
    rewrite <- Ht in *.
    destruct (Z.eqb_spec (Z.of_nat (List.length (filteredPatterns s))) 0) as [E | _];
      [lia |].
    assert (Htpos : 1 <= totalPages s) by nia.
    assert (Hstart : (currentPage s - 1) * itemsPerPage s
                     < Z.of_nat (List.length (filteredPatterns s))) by nia.
    intros Hnil. apply (f_equal (@List.length _)) in Hnil.
    rewrite length_firstn, length_skipn in Hnil. cbn [List.length] in Hnil. nia.
Qed.

(** A page never shows more than [itemsPerPage] patterns, and it shows
    at least one whenever a pattern passes the filters. *)
Theorem page_within_size_and_not_empty (s : state) :
  paged s ->
  (List.length (paginatedPatterns s) <= Z.to_nat (itemsPerPage s))%nat
  /\ (filteredPatterns s <> [] -> paginatedPatterns s <> []).
Proof. exact (paged_page_bounds s). Qed.

End PaginationFacts.

Section PaginationProperties.

Import ArchitectComponent.

Lemma firstn_add {A : Type} (a b : nat) (l : list A) :
  firstn (a + b) l = firstn a l ++ firstn b (skipn a l).
Proof.
  revert l. induction a as [| a IH]; intros l; [reflexivity |].
  destruct l as [| x l]; [cbn; rewrite firstn_nil; reflexivity |].
  cbn [Nat.add firstn skipn app]. rewrite IH. reflexivity.
Qed.

Lemma pages_concat {A : Type} (d : nat) (xs : list A) (k : nat) :
  List.concat (List.map (fun i => firstn d (skipn (i * d) xs)) (seq 0 k))
  = firstn (k * d) xs.
Proof.
  induction k as [| k IH]; [reflexivity |].
  rewrite seq_S, map_app, concat_app, IH. cbn [List.map List.concat Nat.add].
  rewrite app_nil_r, <- firstn_add. f_equal. lia.
Qed.

Lemma goToPage_shows_slice (s : state) (p : Z) :
  paged s ->
  (1 <= p <= totalPages s)%Z ->
  paginatedPatterns (goToPage p s)
  = firstn (Z.to_nat (itemsPerPage s))
      (skipn (Z.to_nat ((p - 1) * itemsPerPage s)) (filteredPatterns s))
  /\ currentPage (goToPage p s) = p.
Proof.
  intros (Hd & Hp & Ht & Hpage) Hrange. unfold goToPage.
  destruct (Z.leb_spec 1 p); [| lia].
  destruct (Z.leb_spec p (totalPages s)); [| lia].
  cbn [andb]. unfold updatePagination.
  cbn [set_currentPage filteredPatterns itemsPerPage currentPage
       paginatedPatterns].
  rewrite <- Ht.
  destruct (Z.ltb_spec (totalPages s) p); [lia |].
  split; [| reflexivity]. apply slice_page; lia.
Qed.

(** Going through the pages from 1 to [totalPages] shows every pattern
    that passes the filters once, in the order of the list. *)
Theorem pages_show_every_pattern_once (s : state) :
  paged s ->
  List.concat
    (List.map (fun p => paginatedPatterns (goToPage p s))
              (range 1 (totalPages s)))
  = filteredPatterns s.
Proof.
  intros Hs. pose proof Hs as (Hd & Hp & Ht & Hpage).
  unfold range. rewrite map_map.
  replace (totalPages s - 1 + 1)%Z with (totalPages s) by lia.
  rewrite (map_ext_in _
             (fun i => firstn (Z.to_nat (itemsPerPage s))
                         (skipn (i * Z.to_nat (itemsPerPage s))
                                (filteredPatterns s)))).
  - rewrite pages_concat. apply firstn_all2.
    pose proof (ceil_div_bounds (Z.of_nat (List.length (filteredPatterns s)))
                  (itemsPerPage s) ltac:(lia) Hd) as (Ht0 & _ & Hhigh).
    rewrite <- Ht in *. nia.
  - intros i Hi. apply in_seq in Hi.
    destruct (goToPage_shows_slice s (1 + Z.of_nat i) Hs ltac:(lia)) as [-> _].
    f_equal. f_equal. nia.
Qed.

(** From a page that is not the last, [nextPage] moves one page forward
    and [previousPage] then restores the component as it was. *)
Theorem nextPage_then_previousPage (s : state) :
  paged s ->
  (currentPage s < totalPages s)%Z ->
  currentPage (nextPage s) = (currentPage s + 1)%Z
  /\ previousPage (nextPage s) = s.
Proof.
  intros (Hd & Hp & Ht & Hpage) Hlt.
  unfold nextPage. destruct (Z.ltb_spec (currentPage s) (totalPages s)); [| lia].
  unfold previousPage, updatePagination.
  cbn [set_currentPage filteredPatterns itemsPerPage currentPage
       paginatedPatterns totalPages architectPatterns searchQuery
       selectedCategory categories].
  rewrite <- Ht.
  destruct (Z.ltb_spec (totalPages s) (currentPage s + 1)); [lia |].
  split; [reflexivity |].
  destruct (Z.ltb_spec 1 (currentPage s + 1)); [| lia].
  replace (currentPage s + 1 - 1)%Z with (currentPage s) by lia.
  destruct (Z.ltb_spec (totalPages s) (currentPage s)); [lia |].
  rewrite <- Hpage. destruct s; reflexivity.
Qed.

Lemma range_of_four (lo : Z) :
  range lo (lo + 3) = [lo; (lo + 1)%Z; (lo + 2)%Z; (lo + 3)%Z].
Proof.
  unfold range. replace (lo + 3 - lo + 1)%Z with 4%Z by lia.
  change (Z.to_nat 4) with 4%nat. cbn [seq List.map].
  repeat f_equal; lia.
Qed.

Lemma range_spec (lo hi x : Z) :
  In x (range lo hi) <-> (lo <= x <= hi)%Z.
Proof.
  unfold range. rewrite in_map_iff. split.
  - intros (i & <- & Hi). apply in_seq in Hi. lia.
  - intros Hx. exists (Z.to_nat (x - lo)). split; [lia |].
    apply in_seq. lia.
Qed.

Lemma range_sorted (lo hi : Z) : StronglySorted Z.lt (range lo hi).
Proof.
  unfold range. generalize (Z.to_nat (hi - lo + 1)). intros n.
  generalize 0%nat. induction n as [| n IH]; intros start; [constructor |].
  cbn [seq List.map]. constructor; [apply IH |].
  apply Forall_forall. intros x Hx. apply in_map_iff in Hx.
  destruct Hx as (i & <- & Hi). apply in_seq in Hi. lia.
Qed.

(** On a valid page, the page bar shows the first page, the last page
    and the current page, holds at most seven entries, each an ellipsis
    or a page that exists, and its pages are in increasing order. *)
Theorem getPageNumbers_shape (s : state) :
  (1 <= currentPage s <= totalPages s)%Z ->
  In 1%Z (getPageNumbers s)
  /\ In (totalPages s) (getPageNumbers s)
  /\ In (currentPage s) (getPageNumbers s)
  /\ (List.length (getPageNumbers s) <= 7)%nat
  /\ Forall (fun p => p = (-1)%Z \/ (1 <= p <= totalPages s)%Z) (getPageNumbers s)
  /\ StronglySorted Z.lt (filter (fun p => (0 <? p)%Z) (getPageNumbers s)).
Proof.
  intros Hcur. unfold getPageNumbers.
  destruct (Z.leb_spec (totalPages s) 5) as [Hsmall | Hbig].
  - repeat split.
    + apply range_spec. lia.
    + apply range_spec. lia.
    + apply range_spec. lia.
    + unfold range. rewrite length_map, length_seq. lia.
    + apply Forall_forall. intros p Hp. apply range_spec in Hp. right. exact Hp.
    + rewrite filter_all; [apply range_sorted |].
      intros p Hp. apply range_spec in Hp. apply Z.ltb_lt. lia.
  - destruct (Z.leb_spec (currentPage s) 3) as [Hfirst | Hlater].
    + change (range 1 4) with [1%Z; 2%Z; 3%Z; 4%Z]. cbn [app].
      repeat split; cbn [In List.length]; try lia.
      * repeat (constructor; [lia |]). constructor.
      * cbn [filter Z.ltb Z.compare].
        destruct (Z.ltb_spec 0 (totalPages s)); [| lia].
        repeat (constructor; [| repeat (constructor; try lia)]). constructor.
    + destruct (Z.leb_spec (totalPages s - 2) (currentPage s)) as [Hlast | Hmid].
      * pose proof (range_of_four (totalPages s - 3)) as Hr.
        replace (totalPages s - 3 + 3)%Z with (totalPages s) in Hr by lia.
        rewrite Hr. clear Hr. cbn [app].
        repeat split; cbn [In List.length]; try lia.
        -- repeat (constructor; [lia |]). constructor.
        -- cbn [filter Z.ltb Z.compare].
           repeat match goal with
                  | |- context [(0 <? ?a)%Z] =>
                      destruct (Z.ltb_spec 0 a); [| lia]
                  end.
           repeat (constructor; [| repeat (constructor; try lia)]). constructor.
      * repeat split; cbn [In List.length]; try lia.
        -- repeat (constructor; [lia |]). constructor.
        -- cbn [filter Z.ltb Z.compare].
           repeat match goal with
                  | |- context [(0 <? ?a)%Z] =>
                      destruct (Z.ltb_spec 0 a); [| lia]
                  end.
           repeat (constructor; [| repeat (constructor; try lia)]). constructor.
Qed.

End PaginationProperties.

(** ** Instances *)

Section Instances.

Import AgentStreamService.

Lemma documents_newline_free : Forall JsStr.newline_free Samples.documents.
Proof. repeat constructor; apply newline_free_check; reflexivity. Defined.

Lemma whole_body_emitted_once_witness :
  Forall JsStr.newline_free Samples.documents
  /\ Rx.delivered
       (subject
          (streamAnswer JsonText.parse
             [ Sent; ResponseHeader;
               DownloadProgress (Some (flat_map frame Samples.documents));
               Response (Some (flat_map frame Samples.documents)) ]
             SourceComplete))
     = [ Rx.Next Samples.start_event; Rx.Next Samples.complete_event;
         Rx.Complete ].
Proof.
  split; [exact documents_newline_free |].
  rewrite (whole_body_emitted_once JsonText.parse Samples.documents
             documents_newline_free).
  vm_compute. reflexivity.
Defined.

Lemma frame_by_frame_delivery_reemits_witness :
  Forall JsStr.newline_free Samples.documents
  /\ Rx.values
       (Rx.delivered
          (subject
             (streamAnswer JsonText.parse
                (cumulative (List.map frame Samples.documents)) SourcePending)))
     = [ Samples.start_event; Samples.start_event; Samples.start_event;
         Samples.complete_event ].
Proof.
  split; [exact documents_newline_free |].
  destruct (frame_by_frame_delivery_reemits JsonText.parse Samples.documents
              documents_newline_free) as [Hvalues _].
  rewrite Hvalues. vm_compute. reflexivity.
Defined.

End Instances.

Section RoomInstances.

Import AgentStreamService InterviewRoomComponent.

Lemma carries_chunk_sample (c : jstring) (f : bool) :
  carries_chunk (Samples.content_event c f) c.
Proof. split; [reflexivity |]. eexists. split; reflexivity. Defined.

Lemma content_chunks_accumulate_witness :
  subscription Samples.no_number Samples.ascii_upper (JsStr.lit "hi")
    [ (1%Z, Rx.Next (Samples.content_event (JsStr.lit "Hel") false));
      (2%Z, Rx.Next (Samples.content_event (JsStr.lit "lo") true)) ]
    (set_currentAnswer (Js.Str []) Samples.room_with_question)
  = set_currentAnswer (Js.Str (JsStr.lit "Hello")) Samples.room_with_question.
Proof.
  apply (content_chunks_accumulate Samples.no_number Samples.ascii_upper (JsStr.lit "hi")
           [ (1%Z, Rx.Next (Samples.content_event (JsStr.lit "Hel") false));
             (2%Z, Rx.Next (Samples.content_event (JsStr.lit "lo") true)) ]
           [JsStr.lit "Hel"; JsStr.lit "lo"] []
           (set_currentAnswer (Js.Str []) Samples.room_with_question)).
  - repeat constructor; eexists; (split; [reflexivity | apply carries_chunk_sample]).
  - reflexivity.
Defined.

Lemma answer_complete_replaces_chunks_witness :
  currentAnswer
    (subscription Samples.no_number Samples.ascii_upper (JsStr.lit "hi")
       ([ (1%Z, Rx.Next (Samples.content_event (JsStr.lit "Hel") false));
          (2%Z, Rx.Next (Samples.content_event (JsStr.lit "Hel") false)) ]
        ++ [(3%Z, Rx.Next (Samples.answer_complete_event (JsStr.lit "Hello")))])
       (set_currentAnswer (Js.Str []) Samples.room_with_question))
  = Js.Str (JsStr.lit "Hello").
Proof.
  apply (answer_complete_replaces_chunks Samples.no_number Samples.ascii_upper
           (JsStr.lit "hi")
           [ (1%Z, Rx.Next (Samples.content_event (JsStr.lit "Hel") false));
             (2%Z, Rx.Next (Samples.content_event (JsStr.lit "Hel") false)) ]
           [JsStr.lit "Hel"; JsStr.lit "Hel"] 3%Z
           (Samples.answer_complete_event (JsStr.lit "Hello")) [] (JsStr.lit "Hello")
           (set_currentAnswer (Js.Str []) Samples.room_with_question)).
  - repeat constructor; eexists; (split; [reflexivity | apply carries_chunk_sample]).
  - reflexivity.
  - split; [reflexivity |]. eexists. split; reflexivity.
Defined.

Lemma unknown_event_type_ignored_witness :
  handled_type (Js.Str (JsStr.lit "heartbeat")) = false
  /\ handleStreamEvent Samples.no_number Samples.ascii_upper 5%Z Samples.heartbeat_event
       Samples.room_with_question
     = (Js.Return tt, Samples.room_with_question).
Proof.
  split; [reflexivity |].
  apply (unknown_event_type_ignored Samples.no_number Samples.ascii_upper 5%Z
           Samples.heartbeat_event (Js.Str (JsStr.lit "heartbeat")) Js.Null
           Samples.room_with_question SearchComponent.initial);
    reflexivity.
Defined.

Lemma event_without_payload_witness :
  Js.get Samples.bare_start_event (JsStr.lit "data") = Js.Return Js.Undefined
  /\ exists msg,
       handleStreamEvent Samples.no_number Samples.ascii_upper 5%Z Samples.bare_start_event
         Samples.room_with_question
       = (Js.Throw msg, Samples.room_with_question).
Proof.
  split; [reflexivity |].
  apply (event_without_payload Samples.no_number Samples.ascii_upper 5%Z
           Samples.bare_start_event (JsStr.lit "start") Samples.room_with_question
           eq_refl eq_refl).
  left. reflexivity.
Defined.

Lemma sendQuestion_sends_once_witness :
  JsStr.whitespace_only (question Samples.room_with_question) = false
  /\ exists request s',
       sendQuestion 7%Z Samples.room_with_question = (Some request, s')
       /\ r_question request = JsStr.lit " What about PACELC? "
       /\ sendQuestion 8%Z s' = (None, s').
Proof.
  split; [reflexivity |].
  destruct (sendQuestion_sends_once 7%Z 8%Z Samples.room_with_question eq_refl)
    as (request & s' & Hsend & Hq & _ & _ & _ & _ & Hagain).
  exists request, s'. repeat split; assumption.
Defined.


Lemma room_stops_streaming_witness :
  isStreaming
    (subscription Samples.no_number Samples.ascii_upper (JsStr.lit "hi")
       (List.map (fun n => (9%Z, n))
          (Rx.delivered
             (subject
                (streamAnswer JsonText.parse
                   (cumulative [Samples.part1; Samples.part2])
                   (SourceError Samples.server_error)))))
       (set_isStreaming true Samples.room_with_question))
  = false.
Proof.
  apply (room_stops_streaming Samples.no_number Samples.ascii_upper JsonText.parse
           (cumulative [Samples.part1; Samples.part2])
           (SourceError Samples.server_error) (JsStr.lit "hi")
           (List.map (fun n => (9%Z, n))
              (Rx.delivered
                 (subject
                    (streamAnswer JsonText.parse
                       (cumulative [Samples.part1; Samples.part2])
                       (SourceError Samples.server_error)))))
           (set_isStreaming true Samples.room_with_question)).
  - discriminate.
  - vm_compute. reflexivity.
Defined.

Lemma ascii_upper_adds_no_underscore (w : jstring) :
  ~ In 95%N w -> ~ In 95%N (Samples.ascii_upper w).
Proof.
  intros Hw Hin. apply in_map_iff in Hin. destruct Hin as (c & Hc & Hin).
  destruct ((97 <=? c) && (c <=? 122))%N eqn:E.
  - apply andb_prop in E. destruct E as [E1 E2].
    apply N.leb_le in E1. apply N.leb_le in E2. lia.
  - subst c. exact (Hw Hin).
Defined.

Lemma display_names_have_no_underscore_witness :
  exists name,
    formatAgentName Samples.ascii_upper (Js.Str (JsStr.lit "system_design"))
    = Js.Return name
    /\ name = JsStr.lit "System Design".
Proof.
  destruct (display_names_have_no_underscore Samples.ascii_upper
              (JsStr.lit "system_design") ascii_upper_adds_no_underscore)
    as (name & Hname & _ & _).
  exists name. split; [exact Hname |].
  vm_compute in Hname. inversion Hname. reflexivity.
Defined.

End RoomInstances.

Section PaginationInstances.

Import ArchitectComponent.

Lemma architect_loaded_paged : paged Samples.architect_loaded.
Proof. repeat split; try reflexivity; vm_compute; discriminate. Defined.

Lemma page_within_size_and_not_empty_witness :
  paged Samples.architect_loaded
  /\ List.length (paginatedPatterns Samples.architect_loaded) = 6%nat
  /\ (List.length (paginatedPatterns Samples.architect_loaded)
      <= Z.to_nat (itemsPerPage Samples.architect_loaded))%nat.
Proof.
  split; [exact architect_loaded_paged |]. split; [reflexivity |].
  apply (page_within_size_and_not_empty Samples.architect_loaded
           architect_loaded_paged).
Defined.

Lemma pages_show_every_pattern_once_witness :
  paged Samples.architect_loaded
  /\ List.map (fun p => List.length (paginatedPatterns (goToPage p Samples.architect_loaded)))
       (range 1 (totalPages Samples.architect_loaded))
     = [6%nat; 2%nat]
  /\ List.concat
       (List.map (fun p => paginatedPatterns (goToPage p Samples.architect_loaded))
          (range 1 (totalPages Samples.architect_loaded)))
     = Samples.patterns.
Proof.
  split; [exact architect_loaded_paged |]. split; [reflexivity |].
  apply (pages_show_every_pattern_once Samples.architect_loaded
           architect_loaded_paged).
Defined.

Lemma nextPage_then_previousPage_witness :
  paged Samples.architect_loaded
  /\ (currentPage Samples.architect_loaded < totalPages Samples.architect_loaded)%Z
  /\ previousPage (nextPage Samples.architect_loaded) = Samples.architect_loaded.
Proof.
  split; [exact architect_loaded_paged |]. split; [reflexivity |].
  apply (nextPage_then_previousPage Samples.architect_loaded
           architect_loaded_paged eq_refl).
Defined.

Lemma getPageNumbers_shape_witness :
  (1 <= currentPage Samples.architect_many_pages
   <= totalPages Samples.architect_many_pages)%Z
  /\ getPageNumbers Samples.architect_many_pages
     = [1; -1; 19; 20; 21; -1; 40]%Z
  /\ In (currentPage Samples.architect_many_pages)
        (getPageNumbers Samples.architect_many_pages).
Proof.
  assert (H : (1 <= currentPage Samples.architect_many_pages
               <= totalPages Samples.architect_many_pages)%Z)
    by (split; discriminate).
  split; [exact H |]. split; [reflexivity |].
  apply (getPageNumbers_shape Samples.architect_many_pages H).
Defined.

End PaginationInstances.

(** ** markdown.pipe.ts: tables *)

Section TableFacts.

Import MarkdownPipe.

Lemma split_single_piece (c : N) (piece : jstring) :
  ~ In c piece -> JsStr.split [c] piece = [piece].
Proof.
  unfold JsStr.split. induction piece as [| x piece IH]; intros Hfree;
    [reflexivity |].
  cbn [JsStr.split_from JsStr.startsWith].
  destruct (N.eqb_spec c x) as [E | E]; [exfalso; apply Hfree; left; auto |].
  cbn [andb]. rewrite IH; [reflexivity |].
  intros H. apply Hfree. right. exact H.
Qed.

Lemma split_single_cons (c : N) (piece rest : jstring) :
  ~ In c piece ->
  JsStr.split [c] (piece ++ [c] ++ rest) = piece :: JsStr.split [c] rest.
Proof.
  unfold JsStr.split. induction piece as [| x piece IH]; intros Hfree.
  - cbn [app JsStr.split_from JsStr.startsWith List.length Nat.sub].
    rewrite N.eqb_refl. reflexivity.
  - change ((x :: piece) ++ [c] ++ rest) with (x :: (piece ++ [c] ++ rest)).
    cbn [JsStr.split_from JsStr.startsWith].
    destruct (N.eqb_spec c x) as [E | E]; [exfalso; apply Hfree; left; auto |].
    cbn [andb]. rewrite IH; [reflexivity |].
    intros H. apply Hfree. right. exact H.
Qed.

(** Cutting at a code unit undoes joining with it, for pieces that do
    not hold it. *)
Lemma split_single_join (c : N) (pieces : list jstring) :
  pieces <> [] ->
  Forall (fun piece => ~ In c piece) pieces ->
  JsStr.split [c] (JsStr.join [c] pieces) = pieces.
Proof.
  induction pieces as [| p pieces IH]; intros Hne Hall; [congruence |].
  inversion Hall as [| ? ? Hp Hrest]; subst.
  destruct pieces as [| p' pieces'].
  - cbn [JsStr.join]. apply split_single_piece. exact Hp.
  - change (JsStr.join [c] (p :: p' :: pieces'))
      with (p ++ [c] ++ JsStr.join [c] (p' :: pieces')).
    rewrite (split_single_cons _ _ _ Hp). f_equal.
    apply IH; [discriminate | exact Hrest].
Qed.

Lemma trimStart_visible (c : N) (s : jstring) :
  JsStr.is_whitespace c = false -> JsStr.trimStart (c :: s) = c :: s.
Proof. intros H. cbn [JsStr.trimStart]. rewrite H. reflexivity. Qed.

(** A text between two bars is left as it is by [trim]. *)
Lemma trim_between_bars (middle : jstring) :
  JsStr.trim ([pipe] ++ middle ++ [pipe]) = [pipe] ++ middle ++ [pipe].
Proof.
  unfold JsStr.trim, JsStr.trimEnd. cbn [app].
  rewrite trimStart_visible by reflexivity.
  change (pipe :: middle ++ [pipe]) with ([pipe] ++ middle ++ [pipe]).
  rewrite !rev_app_distr. cbn [rev app].
  rewrite trimStart_visible by reflexivity.
  change (pipe :: rev middle ++ [pipe]) with ([pipe] ++ rev middle ++ [pipe]).
  rewrite !rev_app_distr, rev_involutive. reflexivity.
Qed.

Lemma is_row_between_bars (middle : jstring) :
  is_row ([pipe] ++ middle ++ [pipe]) = true.
Proof.
  unfold is_row, JsStr.endsWith. cbn [app JsStr.startsWith].
  rewrite N.eqb_refl. cbn [andb].
  change (pipe :: middle ++ [pipe]) with ([pipe] ++ middle ++ [pipe]).
  rewrite !rev_app_distr. cbn [rev app JsStr.startsWith].
  rewrite N.eqb_refl. reflexivity.
Qed.

Lemma between_bars (middle : jstring) :
  JsStr.substring_between 1
    (List.length ([pipe] ++ middle ++ [pipe]) - 1) ([pipe] ++ middle ++ [pipe])
  = middle.
Proof.
  unfold JsStr.substring_between.
  rewrite !length_app. cbn [List.length].
  replace (Nat.min 1 (1 + (List.length middle + 1)))%nat with 1%nat by lia.
  replace (Nat.min (1 + (List.length middle + 1) - 1)
                   (1 + (List.length middle + 1)))%nat
    with (S (List.length middle)) by lia.
  replace (Nat.max 1 (S (List.length middle))
           - Nat.min 1 (S (List.length middle)))%nat
    with (List.length middle) by lia.
  replace (Nat.min 1 (S (List.length middle)))%nat with 1%nat by lia.
  cbn [app skipn]. rewrite firstn_app, firstn_all, Nat.sub_diag.
  cbn [firstn]. apply app_nil_r.
Qed.

Lemma cells_of_row_line (cells : list jstring) :
  cells <> [] -> Forall plain_cell cells -> cells_of (row_line cells) = cells.
Proof.
  intros Hne Hall. unfold cells_of, row_line.
  rewrite between_bars, split_single_join.
  - induction Hall as [| c cs (Htrim & _) _ IH]; [reflexivity |].
    cbn [List.map]. rewrite Htrim. f_equal.
    destruct cs as [| c' cs']; [reflexivity | apply IH; discriminate].
  - exact Hne.
  - eapply Forall_impl; [| exact Hall]. intros c (_ & Hc & _). exact Hc.
Qed.

Lemma row_line_newline_free (cells : list jstring) :
  Forall plain_cell cells -> ~ In JsStr.newline (row_line cells).
Proof.
  intros Hall. unfold row_line. intros Hin.
  apply in_app_or in Hin. destruct Hin as [[H | []] | Hin]; [discriminate H |].
  apply in_app_or in Hin. destruct Hin as [Hin | [H | []]]; [| discriminate H].
  revert Hin. apply join_free.
  - intros [H | []]. discriminate H.
  - eapply Forall_impl; [| exact Hall]. intros c (_ & _ & Hc). exact Hc.
Qed.

Lemma trim_row_line (cells : list jstring) :
  JsStr.trim (row_line cells) = row_line cells.
Proof. apply trim_between_bars. Qed.

Lemma is_row_row_line (cells : list jstring) : is_row (row_line cells) = true.
Proof. apply is_row_between_bars. Qed.

Lemma is_separator_two_cells (first second : jstring) (others : list jstring) :
  is_separator (row_line (first :: second :: others)) = false.
Proof.
  unfold is_separator, row_line. cbn [app].
  rewrite N.eqb_refl. cbn [andb].
  rewrite rev_app_distr. cbn [rev app]. rewrite N.eqb_refl. cbn [andb].
  assert (Hin : In pipe (rev (JsStr.join [pipe] (first :: second :: others)))).
  { rewrite <- in_rev.
    change (JsStr.join [pipe] (first :: second :: others))
      with (first ++ [pipe] ++ JsStr.join [pipe] (second :: others)).
    apply in_or_app. right. left. reflexivity. }
  destruct (rev (JsStr.join [pipe] (first :: second :: others))) as [| x middle];
    [destruct Hin |].
  cbn [andb].
  destruct (forallb separator_unit (x :: middle)) eqn:E; [| reflexivity].
  rewrite forallb_forall in E. specialize (E _ Hin). discriminate E.
Qed.

(** On a text without line feed the loop takes one turn. *)
Lemma convertTables_one_line (html : jstring) :
  ~ In JsStr.newline html ->
  convertTables html
  = if inTable (turn (mkLoop false false []) html)
    then result (turn (mkLoop false false []) html) ++ JsStr.lit "</tbody></table>"
    else result (turn (mkLoop false false []) html).
Proof.
  intros Hfree. unfold convertTables.
  rewrite (split_single_piece _ _ Hfree). reflexivity.
Qed.

(** A line of two or more cells, alone: a table that is all header. *)
Lemma convertTables_row_line (first second : jstring) (others : list jstring) :
  Forall plain_cell (first :: second :: others) ->
  convertTables (row_line (first :: second :: others))
  = JsStr.lit "<table>" ++ header_row (first :: second :: others)
    ++ JsStr.lit "</tbody></table>".
Proof.
  intros Hcells.
  rewrite convertTables_one_line by (apply row_line_newline_free; exact Hcells).
  assert (Hne : first :: second :: others <> []) by discriminate.
  unfold turn.
  rewrite trim_row_line, is_row_row_line, is_separator_two_cells,
    (cells_of_row_line _ Hne Hcells).
  cbn [inTable isHeader result app]. rewrite <- app_assoc. reflexivity.
Qed.










(** The separator test knows the separator of a one-column table only.
    Alone on the line that [transform] passes, such a separator yields a
    table that closes a body it never opened; a line of two or more
    cells, dashes or not, is never a separator and is rendered as a
    header. *)
Theorem separator_needs_one_column
  (middle first second : jstring) (others : list jstring) :
  middle <> [] ->
  forallb separator_unit middle = true ->
  ~ In JsStr.newline middle ->
  Forall plain_cell (first :: second :: others) ->
  is_separator ([pipe] ++ middle ++ [pipe]) = true
  /\ convertTables ([pipe] ++ middle ++ [pipe])
     = JsStr.lit "<table></tbody></table>"
  /\ is_separator (row_line (first :: second :: others)) = false
  /\ convertTables (row_line (first :: second :: others))
     = JsStr.lit "<table>" ++ header_row (first :: second :: others)
       ++ JsStr.lit "</tbody></table>".
Proof.
  intros Hne Hunits Hfree Hcells.
  assert (Hsep : is_separator ([pipe] ++ middle ++ [pipe]) = true).
  { unfold is_separator. cbn [app]. rewrite N.eqb_refl. cbn [andb].
    rewrite rev_app_distr. cbn [rev app]. rewrite N.eqb_refl. cbn [andb].
    destruct (rev middle) as [| x m] eqn:E.
    - apply (f_equal (@rev N)) in E. rewrite rev_involutive in E.
      cbn [rev] in E. congruence.
    - rewrite <- E. cbn [andb]. rewrite forallb_forall in *.
      intros c Hc. apply Hunits. apply in_rev. exact Hc. }
  split; [exact Hsep |]. split.
  - rewrite convertTables_one_line.
    + unfold turn. rewrite trim_between_bars, is_row_between_bars, Hsep.
      reflexivity.
    + intros Hin. apply in_app_or in Hin.
      destruct Hin as [[H | []] | Hin]; [discriminate H |].
      apply in_app_or in Hin.
      destruct Hin as [Hin | [H | []]]; [auto | discriminate H].
  - split; [apply is_separator_two_cells |].
    apply convertTables_row_line. exact Hcells.
Qed.

(** A text without table row goes through line by line: each line is
    trimmed and followed by a line feed, so that the empty text becomes a
    single line feed and indentation is lost. *)
Theorem convertTables_without_rows (html : jstring) :
  Forall (fun raw => is_row (JsStr.trim raw) = false)
         (JsStr.split [JsStr.newline] html) ->
  convertTables html
  = flat_map (fun raw => JsStr.trim raw ++ [JsStr.newline])
             (JsStr.split [JsStr.newline] html).
Proof.
  intros Hall. unfold convertTables.
  assert (H : forall header r,
             fold_left turn (JsStr.split [JsStr.newline] html)
                       (mkLoop false header r)
             = mkLoop false header
                 (r ++ flat_map (fun raw => JsStr.trim raw ++ [JsStr.newline])
                         (JsStr.split [JsStr.newline] html))).
  { induction Hall as [| raw lines Hraw _ IH]; intros header r.
    - cbn. rewrite app_nil_r. reflexivity.
    - cbn [fold_left flat_map]. unfold turn at 2. rewrite Hraw.
      cbn [inTable isHeader result]. rewrite IH, <- !app_assoc. reflexivity. }
  rewrite H. reflexivity.
Qed.

End TableFacts.

(** ** Lookups in object literals *)

Lemma lookup_or_text (table : list (jstring * jstring)) (fallback key : jstring) :
  existsb (JsStr.eqb key) Js.object_prototype_keys = false ->
  exists text,
    Js.lookup_or table fallback key = Js.Text text
    /\ (text = fallback \/ In text (List.map snd table)).
Proof.
  intros Hkey. unfold Js.lookup_or.
  destruct (Js.own table key) as [v |] eqn:E.
  - assert (Hin : In v (List.map snd table)).
    { clear - E. induction table as [| [k w] table IH]; [discriminate E |].
      cbn [Js.own] in E. destruct (JsStr.eqb key k).
      - inversion E; subst. left. reflexivity.
      - right. apply IH. exact E. }
    destruct v as [| c v]; eexists; (split; [reflexivity |]); auto.
  - rewrite Hkey. eexists. split; [reflexivity | left; reflexivity].
Qed.

(** For a status and a result that are not names of members of
    [Object.prototype], the badge class is one of the five [badge-]
    classes, and [badge-secondary] when the table has no entry. *)
Theorem badge_class_always_defined (status result : jstring) :
  existsb (JsStr.eqb status) Js.object_prototype_keys = false ->
  existsb (JsStr.eqb result) Js.object_prototype_keys = false ->
  (exists cls,
     ListInterviewsComponent.getStatusBadgeClass status = Js.Text cls
     /\ JsStr.startsWith (JsStr.lit "badge-") cls = true
     /\ (Js.own ListInterviewsComponent.statusClasses status = None ->
         cls = JsStr.lit "badge-secondary"))
  /\ (exists cls,
        ListInterviewsComponent.getResultBadgeClass result = Js.Text cls
        /\ JsStr.startsWith (JsStr.lit "badge-") cls = true
        /\ (Js.own ListInterviewsComponent.resultClasses result = None ->
            cls = JsStr.lit "badge-secondary")).
Proof.
  intros Hstatus Hresult. split.
  - destruct (lookup_or_text ListInterviewsComponent.statusClasses
                (JsStr.lit "badge-secondary") status Hstatus)
      as (cls & Hcls & Hin).
    exists cls. split; [exact Hcls |]. split.
    + destruct Hin as [-> | Hin]; [reflexivity |].
      cbn [ListInterviewsComponent.statusClasses List.map snd In] in Hin.
      repeat (destruct Hin as [<- | Hin]; [reflexivity |]). destruct Hin.
    + intros Hnone. unfold ListInterviewsComponent.getStatusBadgeClass,
        Js.lookup_or in Hcls.
      rewrite Hnone, Hstatus in Hcls. congruence.
  - destruct (lookup_or_text ListInterviewsComponent.resultClasses
                (JsStr.lit "badge-secondary") result Hresult)
      as (cls & Hcls & Hin).
    exists cls. split; [exact Hcls |]. split.
    + destruct Hin as [-> | Hin]; [reflexivity |].
      cbn [ListInterviewsComponent.resultClasses List.map snd In] in Hin.
      repeat (destruct Hin as [<- | Hin]; [reflexivity |]). destruct Hin.
    + intros Hnone. unfold ListInterviewsComponent.getResultBadgeClass,
        Js.lookup_or in Hcls.
      rewrite Hnone, Hresult in Hcls. congruence.
Qed.

(** For an agent type that is not the name of a member of
    [Object.prototype], the colour is a [#] followed by six characters:
    the agent's own for the six agents, the grey [#757575] otherwise. *)
Theorem agent_colour_always_defined (agentType : jstring) :
  existsb (JsStr.eqb agentType) Js.object_prototype_keys = false ->
  exists colour,
    InterviewRoomComponent.getAgentColor agentType = Js.Text colour
    /\ List.length colour = 7%nat
    /\ JsStr.startsWith (JsStr.lit "#") colour = true
    /\ (Js.own InterviewRoomComponent.agent_colors agentType = None ->
        colour = JsStr.lit "#757575").
Proof.
  intros Hkey.
  destruct (lookup_or_text InterviewRoomComponent.agent_colors
              (JsStr.lit "#757575") agentType Hkey) as (colour & Hc & Hin).
  exists colour. split; [exact Hc |].
  assert (Hshape : List.length colour = 7%nat
                   /\ JsStr.startsWith (JsStr.lit "#") colour = true).
  { destruct Hin as [-> | Hin]; [split; reflexivity |].
    cbn [InterviewRoomComponent.agent_colors List.map snd In] in Hin.
    repeat (destruct Hin as [<- | Hin]; [split; reflexivity |]). destruct Hin. }
  destruct Hshape as [Hlen Hhash]. repeat split; try assumption.
  intros Hnone. unfold InterviewRoomComponent.getAgentColor, Js.lookup_or in Hc.
  rewrite Hnone, Hkey in Hc. congruence.
Qed.

(** ** interview-room.component.ts: a whole turn of the conversation *)

Section ConversationTurn.

Import AgentStreamService InterviewRoomComponent.

Variable Number_toString : float -> jstring.
Variable toUpperCase : jstring -> jstring.

Lemma fold_nexts (P : state -> Prop) (Q : StreamEvent -> Prop)
  (currentQuestion : jstring)
  (timed : list (Z * Rx.notification StreamEvent HttpErrorResponse)) (s : state) :
  (forall now event s0,
      Q event -> P s0 ->
      P (snd (handleStreamEvent Number_toString toUpperCase now event s0))) ->
  Forall (fun tn => exists event, snd tn = Rx.Next event /\ Q event) timed ->
  P s ->
  exists s',
    fold_left (receive Number_toString toUpperCase currentQuestion) timed (false, s)
    = (false, s')
    /\ P s'.
Proof.
  intros Hstep Hall. revert s.
  induction Hall as [| tn timed (event & Hnext & Hq) _ IH]; intros s Hs.
  - exists s. split; [reflexivity | exact Hs].
  - cbn [fold_left]. unfold receive at 2. rewrite Hnext.
    apply IH. apply Hstep; assumption.
Qed.

(** Only a [routing] event assigns the agent, and only [content] and
    [answer_complete] events the answer. *)
Lemma not_routing_keeps_agent (now : Z) (event : StreamEvent) (s : state) :
  has_type event (JsStr.lit "routing") = false ->
  currentAgent (snd (handleStreamEvent Number_toString toUpperCase now event s))
  = currentAgent s.
Proof.
  unfold has_type. intros H. run_handler.
  destruct (Js.get event (JsStr.lit "event_type")) as [ty | msg];
    [| reflexivity].
  cbv beta iota. rewrite H.
  repeat (cbv beta iota;
          match goal with
          | |- context [if ?b then _ else _] => destruct b
          | |- context [match ?c with Js.Return _ => _ | Js.Throw _ => _ end] =>
              destruct c
          end);
    reflexivity.
Qed.

Lemma other_events_keep_answer (now : Z) (event : StreamEvent) (s : state) :
  has_type event (JsStr.lit "content") = false ->
  has_type event (JsStr.lit "answer_complete") = false ->
  currentAnswer (snd (handleStreamEvent Number_toString toUpperCase now event s))
  = currentAnswer s.
Proof.
  unfold has_type. intros H1 H2. run_handler.
  destruct (Js.get event (JsStr.lit "event_type")) as [ty | msg];
    [| reflexivity].
  cbv beta iota. rewrite H1, H2.
  repeat (cbv beta iota;
          match goal with
          | |- context [if ?b then _ else _] => destruct b
          | |- context [match ?c with Js.Return _ => _ | Js.Throw _ => _ end] =>
              destruct c
          end);
    reflexivity.
Qed.

Lemma routing_assigns_agent (now : Z) (event : StreamEvent) (agent : Js.value)
  (s : state) :
  carries_agent event agent ->
  currentAgent (snd (handleStreamEvent Number_toString toUpperCase now event s))
  = agent.
Proof.
  intros (Hty & data & Hdata & Hagent).
  run_handler. rewrite Hty, Hdata. decide_cases. rewrite Hagent.
  repeat (cbv beta iota;
          match goal with
          | |- context [match ?c with Js.Return _ => _ | Js.Throw _ => _ end] =>
              destruct c
          end);
    reflexivity.
Qed.

(** A whole turn of the protocol: the question is sent, events arrive,
    among them the [routing] event that selects the agent (the last of
    its type), then [answer_complete] with a non-empty answer, then
    events of other types ([follow_ups], [complete]), and the stream
    completes.  The history then ends with the question as it was sent,
    the full answer and the agent the routing selected; the room is no
    longer streaming; and the request of the next question carries that
    history. *)
Theorem conversation_turn_recorded
  (sent later : Z)
  (opening middle closing : list (Z * Rx.notification StreamEvent HttpErrorResponse))
  (routed now done : Z) (routing final : StreamEvent)
  (agent : Js.value) (full next_question : jstring) (s : state) :
  JsStr.whitespace_only (question s) = false ->
  Forall (fun tn => exists event, snd tn = Rx.Next event) opening ->
  carries_agent routing agent ->
  Forall (fun tn => exists event,
              snd tn = Rx.Next event
              /\ has_type event (JsStr.lit "routing") = false) middle ->
  carries_full_answer final full ->
  full <> [] ->
  Forall (fun tn => exists event,
              snd tn = Rx.Next event
              /\ has_type event (JsStr.lit "routing") = false
              /\ has_type event (JsStr.lit "content") = false
              /\ has_type event (JsStr.lit "answer_complete") = false) closing ->
  conversationHistory
    (subscription Number_toString toUpperCase (question s)
       (whole_turn opening routed routing middle now final closing done)
       (snd (sendQuestion sent s)))
  = conversationHistory s ++ [mkHistoryEntry (question s) (Js.Str full) agent]
  /\ isStreaming
       (subscription Number_toString toUpperCase (question s)
          (whole_turn opening routed routing middle now final closing done)
          (snd (sendQuestion sent s)))
     = false
  /\ (JsStr.whitespace_only next_question = false ->
      option_map r_conversation_history
        (fst (askFollowUp later next_question
                (subscription Number_toString toUpperCase (question s)
                   (whole_turn opening routed routing middle now final closing done)
                   (snd (sendQuestion sent s)))))
      = Some (conversationHistory s
              ++ [mkHistoryEntry (question s) (Js.Str full) agent])).
Proof.
  intros Hvisible Hopening Hrouting Hmiddle Hfull Hne Hclosing.
  assert (Hsent : conversationHistory (snd (sendQuestion sent s))
                  = conversationHistory s).
  { unfold sendQuestion.
    destruct (JsStr.trim (question s)) as [| c r] eqn:E; reflexivity. }
  revert Hsent. generalize (snd (sendQuestion sent s)). intros s0 Hsent.
  assert (Hrun : exists s3,
             fold_left (receive Number_toString toUpperCase (question s))
               (whole_turn opening routed routing middle now final closing done)
               (false, s0)
             = (true, onStreamComplete (question s) s3)
             /\ conversationHistory s3 = conversationHistory s
             /\ currentAgent s3 = agent
             /\ currentAnswer s3 = Js.Str full).
  { unfold whole_turn.
  (* the events before the routing *)
  destruct (fold_nexts (fun s' => conversationHistory s' = conversationHistory s)
              (fun _ => True) (question s) opening s0) as (s1 & Hfold1 & Hh1).
  { intros t e st _ Hst. rewrite <- Hst. apply handleStreamEvent_frame. }
  { eapply Forall_impl; [| exact Hopening].
    intros tn (event & Hnext). exists event. split; [exact Hnext | exact I]. }
  { exact Hsent. }
  rewrite fold_left_app, Hfold1. cbn [fold_left]. unfold receive at 2.
  cbn [snd fst].
  (* the routing, and the events up to the answer *)
  destruct (fold_nexts
              (fun s' => conversationHistory s' = conversationHistory s
                         /\ currentAgent s' = agent)
              (fun event => has_type event (JsStr.lit "routing") = false)
              (question s) middle
              (snd (handleStreamEvent Number_toString toUpperCase routed routing s1)))
    as (s2 & Hfold2 & Hh2 & Ha2).
  { intros t e st Hq [Hst Hag]. split.
    - rewrite <- Hst. apply handleStreamEvent_frame.
    - rewrite <- Hag. apply not_routing_keeps_agent. exact Hq. }
  { exact Hmiddle. }
  { split.
    - rewrite <- Hh1. apply handleStreamEvent_frame.
    - apply routing_assigns_agent. exact Hrouting. }
  rewrite fold_left_app, Hfold2. cbn [fold_left]. unfold receive at 2.
  cbn [snd fst].
  rewrite (handle_answer_complete Number_toString toUpperCase now final full s2 Hfull).
  cbn [snd].
  (* the events after the answer, and the completion *)
  destruct (fold_nexts
              (fun s' => conversationHistory s' = conversationHistory s
                         /\ currentAgent s' = agent
                         /\ currentAnswer s' = Js.Str full)
              (fun event => has_type event (JsStr.lit "routing") = false
                            /\ has_type event (JsStr.lit "content") = false
                            /\ has_type event (JsStr.lit "answer_complete") = false)
              (question s) closing
              (set_streamingStatus (Js.Str (JsStr.lit "Answer complete"))
                 (addAgentMessage now (Js.Str full) (currentAgent s2)
                    (set_currentAnswer (Js.Str full) s2))))
    as (s3 & Hfold3 & Hh3 & Ha3 & Hans3).
  { intros t e st (Hq1 & Hq2 & Hq3) (Hst & Hag & Hans). repeat split.
    - rewrite <- Hst. apply handleStreamEvent_frame.
    - rewrite <- Hag. apply not_routing_keeps_agent. exact Hq1.
    - rewrite <- Hans. apply other_events_keep_answer; assumption. }
  { exact Hclosing. }
  { repeat split; assumption. }
  rewrite fold_left_app, Hfold3. cbn [fold_left receive snd fst].
  exists s3. repeat split; assumption. }
  destruct Hrun as (s3 & Hrun & Hh3 & Ha3 & Hans3).
  unfold subscription. rewrite Hrun. cbn [snd].
  unfold onStreamComplete.
  destruct s3 as [q3 c3 m3 a3 i3 g3 r3 f3 u3 h3 t3 sr3 sp3].
  cbn [currentAnswer conversationHistory currentAgent] in Hh3, Ha3, Hans3.
  subst a3 h3 g3.
  destruct full as [| c full]; [congruence |].
  cbn -[JsStr.trim JsStr.lit JsStr.whitespace_only askFollowUp].
  repeat split.
  intros Hnext. unfold askFollowUp, sendQuestion.
  cbn [question set_question].
  destruct (JsStr.trim next_question) as [| c' r'] eqn:E.
  - apply trim_nil_iff in E. congruence.
  - reflexivity.
Qed.

End ConversationTurn.

Section FurtherInstances.

Import AgentStreamService InterviewRoomComponent.

Lemma not_in_check (c : N) (s : jstring) :
  forallb (fun x => negb (N.eqb x c)) s = true -> ~ In c s.
Proof.
  intros H Hin. rewrite forallb_forall in H. specialize (H _ Hin).
  rewrite N.eqb_refl in H. discriminate H.
Defined.

Lemma plain_cell_check (cell : jstring) :
  JsStr.eqb (JsStr.trim cell) cell = true ->
  forallb (fun x => negb (N.eqb x MarkdownPipe.pipe)) cell = true ->
  forallb (fun x => negb (N.eqb x JsStr.newline)) cell = true ->
  MarkdownPipe.plain_cell cell.
Proof.
  intros Ht Hp Hn. repeat split.
  - apply JsStr_eqb_eq. exact Ht.
  - apply not_in_check. exact Hp.
  - apply not_in_check. exact Hn.
Defined.


End FurtherInstances.

Section LastInstances.

Import AgentStreamService InterviewRoomComponent.

Lemma separator_needs_one_column_witness :
  MarkdownPipe.convertTables Samples.table_separator
  = JsStr.lit "<table></tbody></table>"
  /\ MarkdownPipe.convertTables (MarkdownPipe.row_line Samples.table_dashes)
     = JsStr.lit "<table><thead><tr><th>---</th><th>:--</th></tr></thead><tbody></tbody></table>".
Proof.
  destruct (separator_needs_one_column (JsStr.lit " :------- ")
              (JsStr.lit "---") (JsStr.lit ":--") [])
    as (_ & Hone & _ & Hwide).
  - discriminate.
  - reflexivity.
  - apply not_in_check. reflexivity.
  - apply Forall_cons; [apply plain_cell_check; reflexivity |].
    apply Forall_cons; [apply plain_cell_check; reflexivity |].
    apply Forall_nil.
  - split; [exact Hone | exact Hwide].
Defined.

Lemma convertTables_without_rows_witness :
  Forall (fun raw => MarkdownPipe.is_row (JsStr.trim raw) = false)
         (JsStr.split [JsStr.newline] Samples.indented_text)
  /\ MarkdownPipe.convertTables Samples.indented_text
     = JsStr.lit "# Title" ++ [JsStr.newline] ++ JsStr.lit "a | b"
       ++ [JsStr.newline].
Proof.
  assert (H : Forall (fun raw => MarkdownPipe.is_row (JsStr.trim raw) = false)
                (JsStr.split [JsStr.newline] Samples.indented_text)).
  { apply Forall_cons; [reflexivity |].
    apply Forall_cons; [reflexivity |]. apply Forall_nil. }
  split; [exact H |].
  rewrite (convertTables_without_rows Samples.indented_text H). reflexivity.
Defined.

Lemma badge_class_always_defined_witness :
  existsb (JsStr.eqb (JsStr.lit "completed")) Js.object_prototype_keys = false
  /\ ListInterviewsComponent.getStatusBadgeClass (JsStr.lit "completed")
     = Js.Text (JsStr.lit "badge-success")
  /\ exists cls,
       ListInterviewsComponent.getResultBadgeClass (JsStr.lit "withdrawn")
       = Js.Text cls
       /\ cls = JsStr.lit "badge-secondary".
Proof.
  split; [reflexivity |]. split; [reflexivity |].
  destruct (badge_class_always_defined (JsStr.lit "completed")
              (JsStr.lit "withdrawn") eq_refl eq_refl)
    as [_ (cls & Hcls & _ & Hdefault)].
  exists cls. split; [exact Hcls | apply Hdefault; reflexivity].
Defined.

Lemma agent_colour_always_defined_witness :
  existsb (JsStr.eqb (JsStr.lit "coding")) Js.object_prototype_keys = false
  /\ exists colour,
       getAgentColor (JsStr.lit "coding") = Js.Text colour
       /\ List.length colour = 7%nat.
Proof.
  split; [reflexivity |].
  destruct (agent_colour_always_defined (JsStr.lit "coding") eq_refl)
    as (colour & Hc & Hlen & _).
  exists colour. split; assumption.
Defined.

Lemma conversation_turn_recorded_witness :
  JsStr.whitespace_only (question Samples.room_with_question) = false
  /\ conversationHistory
       (subscription Samples.no_number Samples.ascii_upper
          (question Samples.room_with_question)
          (whole_turn
             [ (1%Z, Rx.Next Samples.start_event) ]
             2%Z (Samples.routing_event (JsStr.lit "coding"))
             [ (3%Z, Rx.Next Samples.processing_event);
               (4%Z, Rx.Next (Samples.content_event (JsStr.lit "Hel") false));
               (5%Z, Rx.Next (Samples.content_event (JsStr.lit "lo") true)) ]
             6%Z (Samples.answer_complete_event (JsStr.lit "Hello"))
             [ (7%Z, Rx.Next (Samples.follow_ups_event [JsStr.lit "And then?"]));
               (8%Z, Rx.Next Samples.complete_event) ]
             9%Z)
          (snd (sendQuestion 0%Z Samples.room_with_question)))
     = conversationHistory Samples.room_with_question
       ++ [ mkHistoryEntry (JsStr.lit " What about PACELC? ")
              (Js.Str (JsStr.lit "Hello")) (Js.Str (JsStr.lit "coding")) ].
Proof.
  split; [reflexivity |].
  destruct (conversation_turn_recorded Samples.no_number Samples.ascii_upper
              0%Z 10%Z
              [ (1%Z, Rx.Next Samples.start_event) ]
              [ (3%Z, Rx.Next Samples.processing_event);
                (4%Z, Rx.Next (Samples.content_event (JsStr.lit "Hel") false));
                (5%Z, Rx.Next (Samples.content_event (JsStr.lit "lo") true)) ]
              [ (7%Z, Rx.Next (Samples.follow_ups_event [JsStr.lit "And then?"]));
                (8%Z, Rx.Next Samples.complete_event) ]
              2%Z 6%Z 9%Z
              (Samples.routing_event (JsStr.lit "coding"))
              (Samples.answer_complete_event (JsStr.lit "Hello"))
              (Js.Str (JsStr.lit "coding"))
              (JsStr.lit "Hello") (JsStr.lit "And then?")
              Samples.room_with_question eq_refl) as (Hhist & _).
  - repeat constructor; eexists; reflexivity.
  - split; [reflexivity |]. eexists. split; reflexivity.
  - repeat constructor; eexists; (split; reflexivity).
  - split; [reflexivity |]. eexists. split; reflexivity.
  - discriminate.
  - repeat constructor; eexists; (repeat split; reflexivity).
  - exact Hhist.
Defined.

End LastInstances.
